(** * AccountingSystem: ledger, client cache, reports and tax calculator

    A shallow embedding of the bookkeeping application:
    - [supabase/functions/calculate-tax/index.ts] (the tax calculator),
    - [backend/server.js] and its later version (the Express handlers over
      PostgreSQL),
    - [src/contexts/TransactionContext.tsx] (the client ledger cache),
    - the add and edit transaction pages (form validation),
    - [src/pages/Reports.tsx] (the reporting aggregator).

    Modelling conventions.
    - The tax calculator computes on JavaScript numbers, which are IEEE 754
      doubles: its numbers are Rocq's primitive [float]s, with their rounding,
      signed zeros, infinities and NaN.
    - An amount of the ledger is a [DECIMAL(15, 2)] value of the store and is
      held as an exact rational ([Qc], canonical fractions with Leibniz
      equality).  The report adds the amounts it selects from left to right;
      the model adds them exactly, where the page adds their doubles.  The
      statements about the report say which amounts are added and in which
      row; none relies on an identity between sums taken in different
      orders.
    - A [string] is a sequence of UTF-16 code units below 256 (Latin-1), one
      [ascii] each, so that a length counts what [String.prototype.length],
      Zod's [max] and [VARCHAR(n)] count.
    - An integer column of the store ([SERIAL], [INTEGER]) is held as the
      decimal text of the integer; a request parameter compared with it goes
      through the integer input of the store first ([Server.int4in]).  The
      interface [Transaction] declares the identifiers as strings.
    - The store answers every statement: a handler's [catch] is reached by
      the errors the statement itself raises.
    - A [Map] is an association list in insertion order, which is the order
      [Map.prototype.entries] enumerates.
    - A transaction date is a calendar date [YYYY-MM-DD]; [new Date(s)] reads it
      as midnight UTC and the runtime's local zone is taken to be UTC.
    - [await fetch(...)] is modelled by its outcome: a network failure or a
      response with a status and a body. *)

From Stdlib Require Import Floats.
From Stdlib Require Import ZArith QArith Qcanon Qround.
From Stdlib Require Import List String Ascii Bool Lia Lqa.
From Stdlib Require Import DecimalString DecimalN.
From Stdlib Require Import Sorted Permutation.
Import ListNotations.

(* ================================================================== *)
(** * JavaScript values the sources rely on *)
(* ================================================================== *)

Module JS.

(** ** Doubles *)

(** [Math.round(x)]: the integer nearest to [x], the one towards +infinity
    when two are equally near; [-0] for [-0.5 <= x < 0]; an integral or
    non-finite [x] itself.  A finite double is [m * 2^e] with [m] an
    integer; for [e < 0] its magnitude is below [2^53] and the result is
    computed on the exact value. *)
Definition Math_round (x : float) : float :=
  match Prim2SF x with
  | S754_finite s m e =>
      if (0 <=? e)%Z then x
      else
        let n := if s then Z.neg m else Z.pos m in
        let d := Z.pow 2 (- e) in
        let r := ((2 * n + d) / (2 * d))%Z in
        if (r =? 0)%Z then (if s then (-0)%float else 0%float)
        else if (r <? 0)%Z then (- of_uint63 (Uint63.of_Z (- r)))%float
        else of_uint63 (Uint63.of_Z r)
  | _ => x
  end.

(** [Math.round(x * 100) / 100], the rounding idiom of the tax function. *)
Definition round2 (x : float) : float := (Math_round (x * 100) / 100)%float.

(** Truthiness of a double: [0], [-0] and NaN are falsy. *)
Definition truthy_double (x : float) : bool :=
  negb (PrimFloat.eqb x 0 || PrimFloat.is_nan x).

(** [x || d] where [x] is a double, [null] or [undefined]. *)
Definition or_double (x : option float) (d : float) : float :=
  match x with
  | Some v => if truthy_double v then v else d
  | None => d
  end.

(** ** Amounts of the ledger *)

(** [number] as the report reads an amount: an exact rational. *)
Abbreviation number := Qc (only parsing).

(** Integer literal as a number. *)
Definition num (z : Z) : number := Q2Qc (inject_Z z).

(** Truthiness of a number: [0] is falsy. *)
Definition truthy_num (x : number) : bool := negb (Qc_eq_bool x 0).

(** Truthiness of a string: the empty string is falsy. *)
Definition truthy_str (s : string) : bool :=
  match s with EmptyString => false | _ => true end.

(** Truthiness of [string | null]. *)
Definition truthy_opt_str (s : option string) : bool :=
  match s with Some v => truthy_str v | None => false end.

(** [x || d] where [x] is a number, [null] or [undefined]. *)
Definition or_num (x : option number) (d : number) : number :=
  match x with
  | Some v => if truthy_num v then v else d
  | None => d
  end.

(** [s || d] where [s] is a string, [null] or [undefined]. *)
Definition or_str (s : option string) (d : string) : string :=
  match s with
  | Some v => if truthy_str v then v else d
  | None => d
  end.

(** [s || null] where [s] is a string, [null] or [undefined]. *)
Definition or_null (s : option string) : option string :=
  match s with
  | Some v => if truthy_str v then Some v else None
  | None => None
  end.

(** ** [Map<string, V>] in insertion order *)
Section StringMap.
Variable V : Type.

Definition Map := list (string * V).

Definition Map_empty : Map := [].

Fixpoint Map_get (m : Map) (k : string) : option V :=
  match m with
  | [] => None
  | (k', v) :: m' => if String.eqb k' k then Some v else Map_get m' k
  end.

(** [map.set(k, v)]: an existing key keeps its position, a new key goes
    last. *)
Fixpoint Map_set (m : Map) (k : string) (v : V) : Map :=
  match m with
  | [] => [(k, v)]
  | (k', v') :: m' =>
      if String.eqb k' k then (k', v) :: m' else (k', v') :: Map_set m' k v
  end.

(** [Array.from(map.entries())]. *)
Definition Map_entries (m : Map) : list (string * V) := m.
End StringMap.

Arguments Map_get {V} m k.
Arguments Map_set {V} m k v.
Arguments Map_entries {V} m.

(** ** [Array.prototype.sort(compare)]

    The sort is stable (ECMAScript 2019); an insertion sort realises it.  The
    comparator returns a number whose sign decides and [None] stands for
    NaN, which [sort] treats as [+0]. *)
Section Sort.
Variable A : Type.
Variable compare : A -> A -> option Z.

Definition comes_after (x y : A) : bool :=
  match compare x y with
  | Some c => (0 <? c)%Z
  | None => false
  end.

Fixpoint sort_insert (x : A) (l : list A) : list A :=
  match l with
  | [] => [x]
  | y :: l' => if comes_after x y then y :: sort_insert x l' else x :: y :: l'
  end.

Fixpoint Array_sort (l : list A) : list A :=
  match l with
  | [] => []
  | x :: l' => sort_insert x (Array_sort l')
  end.
End Sort.

Arguments comes_after {A} compare x y.
Arguments sort_insert {A} compare x l.
Arguments Array_sort {A} compare l.

End JS.

(* ================================================================== *)
(** * Shared data model ([TransactionContext.tsx], the SQL schema) *)
(* ================================================================== *)

(** [type: 'income' | 'expense'] *)
Inductive TxType : Type := income | expense.

Definition TxType_eqb (a b : TxType) : bool :=
  match a, b with
  | income, income | expense, expense => true
  | _, _ => false
  end.

(** The joined category of a transaction:
    [categories?: { id; name; color } | null]. *)
Record CategoryInfo : Type := mkCategoryInfo {
  c_id : string;
  c_name : string;
  c_color : string
}.

(** Months of the calendar, as [toLocaleDateString] abbreviates them. *)
Inductive Month : Type :=
| Jan | Feb | Mar | Apr | May | Jun | Jul | Aug | Sep | Oct | Nov | Dec.

(** A calendar date, the content of a [YYYY-MM-DD] string. *)
Record Date : Type := mkDate {
  year : Z;
  month : Month;
  day : Z
}.

(** [interface Transaction].  The column [user_id] is nullable in the store:
    [None] is the [null] a row without a user carries. *)
Record Transaction : Type := mkTransaction {
  tx_id : string;
  tx_user_id : option string;
  tx_amount : Qc;
  tx_type : TxType;
  tx_date : Date;
  tx_account : option string;
  tx_document_no : option string;
  tx_description : option string;
  tx_category_id : option string;
  tx_created_at : option string;
  tx_updated_at : option string;
  tx_categories : option CategoryInfo
}.

(* ================================================================== *)
(** * The [Date] object *)
(* ================================================================== *)

Module JSDate.
Local Open Scope Z_scope.

Definition month_number (m : Month) : Z :=
  match m with
  | Jan => 1 | Feb => 2 | Mar => 3 | Apr => 4 | May => 5 | Jun => 6
  | Jul => 7 | Aug => 8 | Sep => 9 | Oct => 10 | Nov => 11 | Dec => 12
  end.

Definition month_abbrev (m : Month) : string :=
  match m with
  | Jan => "Jan" | Feb => "Feb" | Mar => "Mar" | Apr => "Apr"
  | May => "May" | Jun => "Jun" | Jul => "Jul" | Aug => "Aug"
  | Sep => "Sep" | Oct => "Oct" | Nov => "Nov" | Dec => "Dec"
  end%string.

Definition all_months : list Month :=
  [Jan; Feb; Mar; Apr; May; Jun; Jul; Aug; Sep; Oct; Nov; Dec].

Definition month_of_abbrev (s : string) : option Month :=
  find (fun m => String.eqb (month_abbrev m) s) all_months.

(** Days from 1970-01-01 to the civil date [y]-[m]-[d] in the proleptic
    Gregorian calendar (the day number ECMAScript's [MakeDay] computes),
    years counted from March. *)
Definition days_from_civil (y m d : Z) : Z :=
  let y' := if m <=? 2 then y - 1 else y in
  let era := y' / 400 in
  let yoe := y' - era * 400 in
  let mp := (m + 9) mod 12 in
  let doy := (153 * mp + 2) / 5 + d - 1 in
  let doe := yoe * 365 + yoe / 4 - yoe / 100 + doy in
  era * 146097 + doe - 719468.

Definition msPerDay : Z := 86400000.

(** [new Date(d).getTime()] for a calendar date string: midnight UTC. *)
Definition getTime (d : Date) : Z :=
  msPerDay * days_from_civil (year d) (month_number (month d)) (day d).

(** Decimal digits of a year. *)
Definition year_digits (y : Z) : string :=
  NilEmpty.string_of_uint (N.to_uint (Z.to_N y)).

(** [new Date(d).toLocaleDateString('en-US', { month: 'short', year:
    'numeric' })], such as ["Jan 2024"]. *)
Definition toLocaleDateString_month_year (d : Date) : string :=
  (month_abbrev (month d) ++ " " ++ year_digits (year d))%string.

(** The number and the month a label of that form is made of. *)
Definition parse_month_year (s : string) : option (Z * Month) :=
  match s with
  | String a (String b (String c (String sp rest))) =>
      if Ascii.eqb sp " " then
        match month_of_abbrev (String a (String b (String c EmptyString))),
              NilEmpty.uint_of_string rest with
        | Some m, Some u => Some (Z.of_N (N.of_uint u), m)
        | _, _ => None
        end
      else None
  | _ => None
  end.

(** [new Date(label).getTime()] for a month-year label; [None] is the NaN
    of an invalid date.  The label is not an ISO date, so the engine's legacy
    parser reads it: a month name and one number [n].  A number that can be
    a day of the month (1 to 31) is taken as the day, of the year 2001; any
    other number is the year, on the first of the month, where 0 to 49 mean
    2000 to 2049 and 50 to 99 mean 1950 to 1999. *)
Definition getTime_of_label (s : string) : option Z :=
  match parse_month_year s with
  | Some (n, m) =>
      let '(y, d) :=
        if (1 <=? n) && (n <=? 31) then (2001, n)
        else if n <=? 49 then (2000 + n, 1)
        else if n <=? 99 then (1900 + n, 1)
        else (n, 1) in
      Some (msPerDay * days_from_civil y (month_number m) d)
  | None => None
  end.

(** ** The calendar, in the words of the Gregorian rules *)

Definition is_leap (y : Z) : bool :=
  (y mod 4 =? 0) && (negb (y mod 100 =? 0) || (y mod 400 =? 0)).

Definition days_in_month (y : Z) (m : Month) : Z :=
  match m with
  | Feb => if is_leap y then 29 else 28
  | Apr | Jun | Sep | Nov => 30
  | _ => 31
  end.

(** A date that exists in the calendar. *)
Definition valid_date (d : Date) : Prop :=
  1 <= day d <= days_in_month (year d) (month d).

(** [a] is the same day as [b] or an earlier one. *)
Definition date_leb (a b : Date) : bool :=
  (year a <? year b)
  || ((year a =? year b)
      && ((month_number (month a) <? month_number (month b))
          || ((month_number (month a) =? month_number (month b))
              && (day a <=? day b)))).

(** Calendar month [a] is strictly before calendar month [b]. *)
Definition month_lt (a b : Z * Month) : Prop :=
  fst a < fst b
  \/ (fst a = fst b /\ month_number (snd a) < month_number (snd b)).

Definition Month_eqb (a b : Month) : bool :=
  month_number a =? month_number b.

(** The label of a calendar month. *)
Definition month_label (ym : Z * Month) : string :=
  (month_abbrev (snd ym) ++ " " ++ year_digits (fst ym))%string.

End JSDate.

(* ================================================================== *)
(** * Reporting aggregator ([src/pages/Reports.tsx]) *)
(* ================================================================== *)

Module Reports.
Import JS JSDate.
Local Open Scope Qc_scope.

(** [interface CategoryData] *)
Record CategoryData : Type := mkCategoryData {
  cd_name : string;
  cd_value : number;
  cd_color : string
}.

(** [interface MonthlyData] *)
Record MonthlyData : Type := mkMonthlyData {
  md_month : string;
  md_income : number;
  md_expenses : number;
  md_profit : number
}.

(** What [generateReportData] stores through the component's setters. *)
Record Report : Type := mkReport {
  totalIncome : number;
  totalExpenses : number;
  netBalance : number;
  incomeByCategory : list CategoryData;
  expensesByCategory : list CategoryData;
  monthlyData : list MonthlyData
}.

(** [txDate >= start && txDate <= end] *)
Definition in_range (startDate endDate : Date) (t : Transaction) : bool :=
  (getTime startDate <=? getTime (tx_date t))%Z
  && (getTime (tx_date t) <=? getTime endDate)%Z.

Definition filteredTransactions (transactions : list Transaction)
           (startDate endDate : Date) : list Transaction :=
  filter (in_range startDate endDate) transactions.

(** [.filter(t => t.type === ty).reduce((sum, t) => sum + Number(t.amount),
    0)] *)
Definition total_of (ty : TxType) (l : list Transaction) : number :=
  fold_left (fun sum t => sum + tx_amount t)
            (filter (fun t => TxType_eqb (tx_type t) ty) l) (num 0).

(** The values of [incomeMap] and [expensesMap]. *)
Definition Bucket : Type := (number * string)%type.

(** [map.set(key, { value: (existing?.value || 0) + Number(t.amount),
    color })] *)
Definition add_to_bucket (m : Map Bucket) (key : string) (t : Transaction)
           (color : string) : Map Bucket :=
  let existing := Map_get m key in
  Map_set m key (or_num (option_map fst existing) (num 0) + tx_amount t, color).

(** One iteration of the first [forEach]: the pair is
    [(incomeMap, expensesMap)]. *)
Definition category_step (maps : Map Bucket * Map Bucket) (t : Transaction)
  : Map Bucket * Map Bucket :=
  match tx_categories t with
  | Some c =>
      let color := or_str (Some (c_color c)) "#8884d8" in
      match tx_type t with
      | income => (add_to_bucket (fst maps) (c_name c) t color, snd maps)
      | expense => (fst maps, add_to_bucket (snd maps) (c_name c) t color)
      end
  | None =>
      if truthy_opt_str (tx_category_id t) then
        match tx_type t with
        | income =>
            (add_to_bucket (fst maps) "Uncategorized Income" t "#10b981",
             snd maps)
        | expense =>
            (fst maps,
             add_to_bucket (snd maps) "Uncategorized Expense" t "#ef4444")
        end
      else maps
  end.

(** [Array.from(map.entries()).map(([name, data]) => ({ name, value, color
    }))] *)
Definition category_rows (m : Map Bucket) : list CategoryData :=
  map (fun e => {| cd_name := fst e;
                   cd_value := fst (snd e);
                   cd_color := snd (snd e) |})
      (Map_entries m).

(** The values of [monthlyMap]: income, expenses, profit. *)
Definition MonthCell : Type := (number * number * number)%type.

(** One iteration of the second [forEach]. *)
Definition monthly_step (monthlyMap : Map MonthCell) (t : Transaction)
  : Map MonthCell :=
  let label := toLocaleDateString_month_year (tx_date t) in
  let existing :=
    match Map_get monthlyMap label with
    | Some cell => cell
    | None => (num 0, num 0, num 0)
    end in
  let '(inc, exp, _) := existing in
  let '(inc', exp') :=
    match tx_type t with
    | income => (inc + tx_amount t, exp)
    | expense => (inc, exp + tx_amount t)
    end in
  Map_set monthlyMap label (inc', exp', inc' - exp').

Definition monthly_rows (m : Map MonthCell) : list MonthlyData :=
  map (fun e => let '(inc, exp, prof) := snd e in
                {| md_month := fst e;
                   md_income := inc;
                   md_expenses := exp;
                   md_profit := prof |})
      (Map_entries m).

(** [(a, b) => new Date(a.month).getTime() - new Date(b.month).getTime()] *)
Definition compare_months (a b : MonthlyData) : option Z :=
  match getTime_of_label (md_month a), getTime_of_label (md_month b) with
  | Some ta, Some tb => Some (ta - tb)%Z
  | _, _ => None
  end.

Definition generateReportData (transactions : list Transaction)
           (startDate endDate : Date) : Report :=
  let filtered := filteredTransactions transactions startDate endDate in
  let inc := total_of income filtered in
  let exp := total_of expense filtered in
  let maps := fold_left category_step filtered (Map_empty _, Map_empty _) in
  let monthlyMap := fold_left monthly_step filtered (Map_empty _) in
  {| totalIncome := inc;
     totalExpenses := exp;
     netBalance := inc - exp;
     incomeByCategory := category_rows (fst maps);
     expensesByCategory := category_rows (snd maps);
     monthlyData := Array_sort compare_months (monthly_rows monthlyMap) |}.

(** ** The report, in the words of section 4.3 *)

Fixpoint sum_amounts (l : list Transaction) : number :=
  match l with
  | [] => num 0
  | t :: l' => tx_amount t + sum_amounts l'
  end.

Definition of_type (ty : TxType) (t : Transaction) : bool :=
  TxType_eqb (tx_type t) ty.

(** The transaction's date lies between the two dates, both included. *)
Definition date_between (startDate endDate : Date) (t : Transaction) : bool :=
  date_leb startDate (tx_date t) && date_leb (tx_date t) endDate.

(** Sum of the amounts of one type with a date in the range. *)
Definition spec_total (ty : TxType) (transactions : list Transaction)
           (startDate endDate : Date) : number :=
  sum_amounts
    (filter (fun t => of_type ty t && date_between startDate endDate t)
            transactions).

(** The calendar month of a transaction. *)
Definition month_of (t : Transaction) : Z * Month :=
  (year (tx_date t), month (tx_date t)).

Definition in_month (ym : Z * Month) (t : Transaction) : bool :=
  (fst (month_of t) =? fst ym)%Z && Month_eqb (snd (month_of t)) (snd ym).

(** Sum of the amounts of one type within one calendar month. *)
Definition month_total (ty : TxType) (ym : Z * Month)
           (l : list Transaction) : number :=
  sum_amounts (filter (fun t => of_type ty t && in_month ym t) l).

(** Income, expenses and profit of one calendar month. *)
Definition month_cell (ym : Z * Month) (l : list Transaction) : MonthCell :=
  (month_total income ym l, month_total expense ym l,
   month_total income ym l - month_total expense ym l).

(** What the spec asks of one row of the trend, for month [ym] of the
    filtered transactions [l]. *)
Definition row_for_month (l : list Transaction) (row : MonthlyData)
           (ym : Z * Month) : Prop :=
  md_month row = month_label ym
  /\ md_income row = month_total income ym l
  /\ md_expenses row = month_total expense ym l
  /\ md_profit row = md_income row - md_expenses row.

(** What [monthlyMap] holds once the transactions [l] have been visited. *)
Definition monthly_inv (l : list Transaction) (m : Map MonthCell) : Prop :=
  NoDup (map fst m)
  /\ (forall k, In k (map fst m) ->
                exists t, In t l /\ k = month_label (month_of t))
  /\ (forall t, In t l ->
                Map_get m (month_label (month_of t))
                = Some (month_cell (month_of t) l)).

(** ** The category breakdowns, in the words of section 4.3 *)

(** The transaction refers to a category. *)
Definition has_reference (t : Transaction) : bool :=
  truthy_opt_str (tx_category_id t).

(** The display name a transaction is grouped under: its category's name,
    the synthetic label when it refers to a category that was not resolved,
    none otherwise. *)
Definition bucket_label (t : Transaction) : option string :=
  match tx_categories t with
  | Some c => Some (c_name c)
  | None =>
      if has_reference t then
        Some (match tx_type t with
              | income => "Uncategorized Income"
              | expense => "Uncategorized Expense"
              end)%string
      else None
  end.

(** The display colour a transaction brings: its category's colour (a grey
    when the category has none), a fixed colour per type when unresolved. *)
Definition bucket_color (t : Transaction) : string :=
  match tx_categories t with
  | Some c => if truthy_str (c_color c) then c_color c else "#8884d8"
  | None => match tx_type t with income => "#10b981" | expense => "#ef4444" end
  end%string.

Definition in_bucket (ty : TxType) (k : string) (t : Transaction) : bool :=
  of_type ty t
  && match bucket_label t with Some k' => String.eqb k' k | None => false end.

(** The colour of the last transaction of a list, [d] for the empty list. *)
Fixpoint last_color (l : list Transaction) (d : string) : string :=
  match l with
  | [] => d
  | t :: l' => last_color l' (bucket_color t)
  end.

(** What a map of one type holds once the transactions [l] were visited. *)
Definition bucket_inv (ty : TxType) (l : list Transaction) (m : Map Bucket)
  : Prop :=
  NoDup (map fst m)
  /\ forall k,
      Map_get m k
      = match filter (in_bucket ty k) l with
        | [] => None
        | B => Some (sum_amounts B, last_color B EmptyString)
        end.

(** What section 4.3 asks of the rows of one breakdown over the filtered
    transactions [l]. *)
Definition breakdown_spec (ty : TxType) (l : list Transaction)
           (rows : list CategoryData) : Prop :=
  NoDup (map cd_name rows)
  /\ (forall row, In row rows ->
        let B := filter (in_bucket ty (cd_name row)) l in
        B <> []
        /\ cd_value row = sum_amounts B
        /\ cd_color row = last_color B EmptyString
        /\ (forall c, Forall (fun t => bucket_color t = c) B ->
                      cd_color row = c))
  /\ (forall t k, In t l -> tx_type t = ty -> bucket_label t = Some k ->
                  exists row, In row rows /\ cd_name row = k).

(** Years that a label shows with three digits or more, which are the
    labels the engine reads back as a month of that year. *)
Definition year_ok (t : Transaction) : Prop := (100 <= year (tx_date t))%Z.

(** The month a row's label denotes, and the timestamp the sort reads. *)
Definition row_month (row : MonthlyData) : Z * Month :=
  match parse_month_year (md_month row) with
  | Some ym => ym
  | None => (0%Z, Jan)
  end.

Definition row_key (row : MonthlyData) : Z :=
  match getTime_of_label (md_month row) with
  | Some z => z
  | None => 0%Z
  end.

(** A row whose label was made from a calendar month of a year that the
    label shows with three digits or more. *)
Definition labelled_row (row : MonthlyData) : Prop :=
  exists ym, (100 <= fst ym)%Z /\ md_month row = month_label ym.

(** Years that a label shows with four digits. *)
Definition four_digit_year (t : Transaction) : Prop :=
  (1000 <= year (tx_date t) <= 9999)%Z.

(** ** Sample ledgers *)

Definition sample_tx (i : string) (a : Z) (ty : TxType) (d : Date)
           (cid : option string) (cat : option CategoryInfo) : Transaction :=
  {| tx_id := i; tx_user_id := Some "1"%string; tx_amount := num a;
     tx_type := ty; tx_date := d; tx_account := None; tx_document_no := None;
     tx_description := None; tx_category_id := cid;
     tx_created_at := None; tx_updated_at := None;
     tx_categories := cat |}.

(** The ledger of section 8: 100 income on 2024-01-10, 40 expense on
    2024-01-15, 60 income on 2024-02-01. *)
Definition ledger_2024 : list Transaction :=
  [ sample_tx "1" 100 income (mkDate 2024 Jan 10) None None;
    sample_tx "2" 40 expense (mkDate 2024 Jan 15) None None;
    sample_tx "3" 60 income (mkDate 2024 Feb 1) None None ].

Definition january_2024 : Date * Date :=
  (mkDate 2024 Jan 1, mkDate 2024 Jan 31).

(** A ledger with resolved, unresolved and missing categories. *)
Definition food : CategoryInfo :=
  {| c_id := "7"; c_name := "Food"; c_color := "#ef4444" |}%string.

Definition salary : CategoryInfo :=
  {| c_id := "8"; c_name := "Salary"; c_color := "#3b82f6" |}%string.

Definition ledger_categories : list Transaction :=
  [ sample_tx "1" 30 expense (mkDate 2024 Mar 2) (Some "7") (Some food);
    sample_tx "2" 900 income (mkDate 2024 Mar 5) (Some "8") (Some salary);
    sample_tx "3" 12 expense (mkDate 2024 Mar 9) (Some "7") (Some food);
    sample_tx "4" 50 income (mkDate 2024 Mar 11) (Some "99") None;
    sample_tx "5" 8 expense (mkDate 2024 Mar 20) None None ]%string.


(** A ledger of two early years, in calendar order: 0050-07-15 and
    0999-03-15. *)
Definition ledger_early_years : list Transaction :=
  [ sample_tx "1" 100 income (mkDate 50 Jul 15) None None;
    sample_tx "2" 40 expense (mkDate 999 Mar 15) None None ].

(** A ledger across a year end, months out of alphabetical order. *)
Definition ledger_year_end : list Transaction :=
  [ sample_tx "1" 100 income (mkDate 2025 Jan 10) None None;
    sample_tx "2" 40 expense (mkDate 2024 Dec 15) None None;
    sample_tx "3" 60 income (mkDate 2024 Apr 1) None None;
    sample_tx "4" 25 expense (mkDate 2024 Feb 20) None None;
    sample_tx "5" 5 income (mkDate 2024 Dec 31) None None ].

End Reports.

(* ================================================================== *)
(** * Tax calculator ([supabase/functions/calculate-tax/index.ts]) *)
(* ================================================================== *)

Module Tax.
Import JS.
Local Open Scope float_scope.

(** The columns the handler selects from [company_settings]; each is
    nullable in the schema, and the rates are [numeric] without a check. *)
Record CompanySettings : Type := mkSettings {
  vat_rate : option float;
  vat_registered : option bool;
  income_tax_rate : option float
}.

(** [interface TaxCalculationResponse].  [JSON.stringify] writes a number
    that is not finite as [null]. *)
Record TaxCalculationResponse : Type := mkTaxResponse {
  amount : float;
  vatAmount : float;
  vatRate : float;
  amountWithoutVat : float;
  incomeTaxAmount : option float;
  incomeTaxRate : option float
}.

(** [companySettings?.vat_registered] as a condition. *)
Definition is_registered (cs : option CompanySettings) : bool :=
  match cs with
  | Some s => match vat_registered s with Some b => b | None => false end
  | None => false
  end.

(** [companySettings?.vat_rate] and [companySettings?.income_tax_rate]. *)
Definition settings_vat_rate (cs : option CompanySettings) : option float :=
  match cs with Some s => vat_rate s | None => None end.

Definition settings_income_tax_rate (cs : option CompanySettings)
  : option float :=
  match cs with Some s => income_tax_rate s | None => None end.

(** Lines 69-91 of the handler: the computation on the request's [amount]
    and [type] and the settings row ([None] when the user has none). *)
Definition calculateTax (amt : float) (ty : TxType)
           (companySettings : option CompanySettings)
  : TaxCalculationResponse :=
  (* const vatRate = ...; const incomeTaxRate = ...; *)
  let vRate :=
    if is_registered companySettings
    then or_double (settings_vat_rate companySettings) 10
    else 0 in
  let iRate := or_double (settings_income_tax_rate companySettings) 10 in
  (* const vatAmount = ...; const amountWithoutVat = amount - vatAmount; *)
  let rawVat :=
    if is_registered companySettings
    then (amt * vRate) / (100 + vRate)
    else 0 in
  let rawWithoutVat := amt - rawVat in
  match ty with
  | income =>
      (* result.incomeTaxAmount = ...; result.incomeTaxRate = ...; *)
      let rawIncomeTax := (rawWithoutVat * iRate) / 100 in
      {| amount := amt;
         vatAmount := round2 rawVat;
         vatRate := vRate;
         amountWithoutVat := round2 rawWithoutVat;
         incomeTaxAmount := Some (round2 rawIncomeTax);
         incomeTaxRate := Some iRate |}
  | expense =>
      {| amount := amt;
         vatAmount := round2 rawVat;
         vatRate := vRate;
         amountWithoutVat := round2 rawWithoutVat;
         incomeTaxAmount := None;
         incomeTaxRate := None |}
  end.

(** The handler around the computation: an unauthenticated caller gets 401. *)
Inductive Response : Type :=
| Unauthorized
| Ok200 (body : TaxCalculationResponse).

Definition serve (user : option string) (amt : float) (ty : TxType)
           (companySettings : option CompanySettings) : Response :=
  match user with
  | None => Unauthorized
  | Some _ => Ok200 (calculateTax amt ty companySettings)
  end.

(** ** The breakdown, in the words of section 4.4 *)

(** The rate a settings column denotes: the stored rate, 10 when none is
    stored. *)
Definition spec_rate_default_10 (stored : option float) : float :=
  match stored with Some r => r | None => 10 end.

(** [vatRate]: the settings VAT rate if registered, else 0. *)
Definition spec_vatRate (cs : option CompanySettings) : float :=
  if is_registered cs
  then spec_rate_default_10 (settings_vat_rate cs)
  else 0.

Definition spec_incomeTaxRate (cs : option CompanySettings) : float :=
  spec_rate_default_10 (settings_income_tax_rate cs).

(** The VAT component of a VAT-inclusive amount, before it is rounded. *)
Definition spec_vat (amt : float) (cs : option CompanySettings) : float :=
  if is_registered cs
  then amt * spec_vatRate cs / (100 + spec_vatRate cs)
  else 0.

(** The breakdown of section 4.4: each monetary output is rounded to two
    decimals on its own, at the end of its computation. *)
Definition spec_breakdown (amt : float) (ty : TxType)
           (cs : option CompanySettings) : TaxCalculationResponse :=
  {| amount := amt;
     vatAmount := round2 (spec_vat amt cs);
     vatRate := spec_vatRate cs;
     amountWithoutVat := round2 (amt - spec_vat amt cs);
     incomeTaxAmount :=
       match ty with
       | income =>
           Some (round2 ((amt - spec_vat amt cs) * spec_incomeTaxRate cs
                         / 100))
       | expense => None
       end;
     incomeTaxRate :=
       match ty with
       | income => Some (spec_incomeTaxRate cs)
       | expense => None
       end |}.

(** A stored rate that [||] keeps: not [0] and not NaN. *)
Definition kept_rate (stored : option float) : bool :=
  match stored with Some r => truthy_double r | None => true end.

(** A VAT-registered company at the standard rates. *)
Definition standard_settings : option CompanySettings :=
  Some {| vat_rate := Some 10;
          vat_registered := Some true;
          income_tax_rate := Some 10 |}.

(** A VAT-registered company whose stored VAT rate is zero. *)
Definition zero_rated_settings : option CompanySettings :=
  Some {| vat_rate := Some 0;
          vat_registered := Some true;
          income_tax_rate := Some 10 |}.

(** A company exempt from income tax: the stored rate is zero. *)
Definition tax_exempt_settings : option CompanySettings :=
  Some {| vat_rate := Some 10;
          vat_registered := Some false;
          income_tax_rate := Some 0 |}.

End Tax.

(* ================================================================== *)
(** * Requests and replies *)
(* ================================================================== *)

Module Http.

(** What a handler sends: [res.status(s).json(body)] with a payload, always
    under a 2xx status in the handlers below, or [res.status(s).json({
    message, ... })] under a 4xx or 5xx status. *)
Inductive Reply (A : Type) : Type :=
| Success (status : Z) (body : A)
| Failure (status : Z) (message : string).

Arguments Success {A} status body.
Arguments Failure {A} status message.

(** What [await fetch(...)] gives the client: a rejection (no response), a
    response with [res.ok] whose JSON is [data] ([None] when the body does
    not parse, so that [res.json()] throws), or a response without
    [res.ok]. *)
Inductive FetchResult (A : Type) : Type :=
| Rejected
| Ok (data : option A)
| NotOk (status : Z) (message : string).

Arguments Rejected {A}.
Arguments Ok {A} data.
Arguments NotOk {A} status message.

(** The response the client sees when the request reaches the handler. *)
Definition delivered {A : Type} (r : Reply A) : FetchResult A :=
  match r with
  | Success _ body => Ok (Some body)
  | Failure status message => NotOk status message
  end.

(** The [Error] a client function throws, by what it was built from. *)
Inductive Problem : Type :=
| HttpProblem (status : Z) (message : string)
| FetchProblem.

(** How an [async] client function ends. *)
Inductive Completion (A : Type) : Type :=
| Returned (value : A)
| Thrown (problem : Problem).

Arguments Returned {A} value.
Arguments Thrown {A} problem.

(** The fetch did not succeed: it was rejected, the status was not ok, or
    the body did not parse. *)
Definition failed {A : Type} (res : FetchResult A) : Prop :=
  res = Rejected \/ (exists status message, res = NotOk status message)
  \/ res = Ok None.

End Http.

(* ================================================================== *)
(** * Ledger API (the Express handlers of [server.js]) *)
(* ================================================================== *)

(** Two versions of [server.js] are in the sources.  [backend/server.js]
    registers login, signup, [POST] and [GET /api/transactions] and the
    categories list.  The later version, the one that opens with
    [initializeDatabase] (it follows the edit page in
    [src/contexts/AuthContext.tsx]), has the same handlers for login, signup
    and [POST], returns the joined category as a nested object, and adds
    [DELETE] and [PUT /api/transactions/:id]; the client of
    [TransactionContext.tsx] is written against it.  The tables are those
    its [initializeDatabase] creates. *)
Module Server.
Import JS JSDate Http.
Local Open Scope string_scope.

Inductive Backend : Type :=
| Basic   (* backend/server.js *)
| Full.   (* the version with DELETE and PUT *)

(** A row of [users]. *)
Record UserRow : Type := mkUserRow {
  u_id : string;
  u_name : option string;
  u_email : string;
  u_user_type : string;
  u_organization_name : option string;
  u_organization_id : option string;
  u_password : string;
  u_created_at : string
}.

(** A row of [categories]; a null colour is the empty string. *)
Record CategoryRow : Type := mkCategoryRow {
  cat_id : string;
  cat_name : string;
  cat_type : string;
  cat_color : string
}.

(** The store.  Rows of [transactions] are kept in storage order with
    [tx_categories := None]; identifiers are the decimal renderings of the
    two sequences, each of which holds the value [nextval] gives next. *)
Record DB : Type := mkDB {
  users : list UserRow;
  categories : list CategoryRow;
  transactions : list Transaction;
  users_id_seq : N;
  transactions_id_seq : N
}.

Definition serial (n : N) : string := NilEmpty.string_of_uint (N.to_uint n).

(** ** JSON objects of user rows *)

Inductive JsonValue : Type :=
| JNull
| JString (s : string).

Definition JsonObject : Type := list (string * JsonValue).

Definition json_of_option (o : option string) : JsonValue :=
  match o with Some s => JString s | None => JNull end.

(** The object [pg] builds for a row of [SELECT * FROM users]. *)
Definition user_object (u : UserRow) : JsonObject :=
  [ ("id", JString (u_id u));
    ("name", json_of_option (u_name u));
    ("email", JString (u_email u));
    ("user_type", JString (u_user_type u));
    ("organization_name", json_of_option (u_organization_name u));
    ("organization_id", json_of_option (u_organization_id u));
    ("password", JString (u_password u));
    ("created_at", JString (u_created_at u)) ].

(** [const { [k]: _, ...rest } = o] *)
Definition omit (k : string) (o : JsonObject) : JsonObject :=
  filter (fun kv => negb (String.eqb (fst kv) k)) o.

(** [RETURNING c1, c2, ...] *)
Definition returning (cols : list string) (o : JsonObject) : JsonObject :=
  flat_map (fun c => match Map_get o c with
                     | Some v => [(c, v)]
                     | None => []
                     end) cols.

(** [VARCHAR(n)]: a longer value makes the statement fail. *)
Definition fits (n : nat) (s : string) : bool := (String.length s <=? n)%nat.

Definition fits_opt (n : nat) (o : option string) : bool :=
  match o with Some s => fits n s | None => true end.

(** ** Integers of the store *)

(** The text of an [INTEGER] value. *)
Definition integer_text (z : Z) : string :=
  if (z <? 0)%Z then "-" ++ serial (Z.to_N (- z)) else serial (Z.to_N z).

(** White space of the store's input functions ([isspace]). *)
Definition is_blank (c : ascii) : bool :=
  let n := nat_of_ascii c in
  (Nat.eqb n 32 || ((9 <=? n)%nat && (n <=? 13)%nat))%bool.

Fixpoint skip_blanks (s : string) : string :=
  match s with
  | String c r => if is_blank c then skip_blanks r else s
  | EmptyString => EmptyString
  end.

Fixpoint drop_last_blanks (s : string) : string :=
  match s with
  | EmptyString => EmptyString
  | String c r =>
      match drop_last_blanks r with
      | EmptyString => if is_blank c then EmptyString else String c EmptyString
      | r' => String c r'
      end
  end.

(** The integer input of the store, which reads the text of a parameter
    that meets an [INTEGER] column: blanks, an optional sign, decimal digits,
    blanks; [None] is the error "invalid input syntax for type integer" or
    "out of range".  This is the syntax every version of the store reads;
    the hexadecimal, octal and binary forms and the digit separators that
    version 16 adds are errors here. *)
Definition int4in (s : string) : option Z :=
  let t := drop_last_blanks (skip_blanks s) in
  let '(negative, digits) :=
    match t with
    | String "-"%char r => (true, r)
    | String "+"%char r => (false, r)
    | _ => (false, t)
    end in
  match digits, NilEmpty.uint_of_string digits with
  | String _ _, Some u =>
      let n := Z.of_N (N.of_uint u) in
      let z := if negative then (- n)%Z else n in
      if ((-2147483648 <=? z) && (z <=? 2147483647))%Z then Some z else None
  | _, _ => None
  end.

(** An integer parameter: [null] stays null and a text is read by [int4in];
    the outer [None] is the error of a text that is no integer. *)
Definition integer_param (p : option string) : option (option Z) :=
  match p with
  | None => Some None
  | Some text =>
      match int4in text with
      | Some z => Some (Some z)
      | None => None
      end
  end.

(** [nextval] of a [SERIAL] column fails beyond the largest [INTEGER]. *)
Definition exhausted (seq : N) : bool := (2147483647 <? seq)%N.

(** ** Login and signup *)

Section Auth.
(** [bcrypt.hash(password, 10)] and [bcrypt.compare(password, hash)]. *)
Variable bcrypt_hash : string -> string.
Variable bcrypt_compare : string -> string -> bool.

(** [{ message, user }] *)
Record LoginBody : Type := mkLoginBody {
  login_message : string;
  login_user : JsonObject
}.

(** [POST /api/login].  The fields are those the login form sends: a string,
    or nothing.  The handler's [catch], which answers 500, is reached when
    [bcrypt.compare] is given a password that is no string; it is not
    reached by these requests. *)
Definition login (db : DB) (email password : option string)
  : Reply LoginBody :=
  match email, password with
  | Some em, Some pw =>
      if negb (truthy_str em) || negb (truthy_str pw) then
        Failure 400 "Email and password are required"
      else
        match filter (fun u => String.eqb (u_email u) em) (users db) with
        | [] => Failure 400 "Invalid email or password"
        | user :: _ =>
            if bcrypt_compare pw (u_password user) then
              Success 200
                {| login_message := "Login successful";
                   login_user := omit "password" (user_object user) |}
            else Failure 400 "Invalid email or password"
        end
  | _, _ => Failure 400 "Email and password are required"
  end.

(** The body of [POST /api/signup]. *)
Record SignupBody : Type := mkSignupBody {
  sb_name : option string;
  sb_email : option string;
  sb_user_type : option string;
  sb_organization_name : option string;
  sb_organization_id : option string;
  sb_password : option string
}.

Definition set_users (db : DB) (rows : list UserRow) (seq : N) : DB :=
  {| users := rows;
     categories := categories db;
     transactions := transactions db;
     users_id_seq := seq;
     transactions_id_seq := transactions_id_seq db |}.

(** [POST /api/signup]; [now] is [CURRENT_TIMESTAMP].  Every failure of the
    statement ends in the handler's 500.  A value longer than its column is
    refused when the parameters are bound, before a row is formed; the
    [UNIQUE] email is checked when the row is put into the table, after
    [nextval] gave the row its id, and the sequence keeps the step. *)
Definition signup (db : DB) (now : string) (body : SignupBody)
  : DB * Reply JsonObject :=
  match sb_email body, sb_user_type body, sb_password body with
  | Some em, Some ut, Some pw =>
      if negb (truthy_str em) || negb (truthy_str ut) || negb (truthy_str pw)
      then
        (db, Failure 400 "Email, user_type and password are required")
      else
        let hashedPassword := bcrypt_hash pw in
        if negb (fits_opt 255 (or_null (sb_name body)) && fits 255 em
                 && fits 50 ut
                 && fits_opt 255 (or_null (sb_organization_name body))
                 && fits_opt 255 (or_null (sb_organization_id body))
                 && fits 255 hashedPassword)
           || exhausted (users_id_seq db)
        then
          (db, Failure 500 "Internal server error")
        else if existsb (fun u => String.eqb (u_email u) em) (users db)
        then
          (set_users db (users db) (N.succ (users_id_seq db)),
           Failure 500 "Internal server error")
        else
          let row :=
            {| u_id := serial (users_id_seq db);
               u_name := or_null (sb_name body);
               u_email := em;
               u_user_type := ut;
               u_organization_name := or_null (sb_organization_name body);
               u_organization_id := or_null (sb_organization_id body);
               u_password := hashedPassword;
               u_created_at := now |} in
          (set_users db (users db ++ [row]) (N.succ (users_id_seq db)),
           Success 201
             (returning ["id"; "name"; "email"; "user_type";
                         "organization_name"; "organization_id"]
                        (user_object row)))
  | _, _, _ =>
      (db, Failure 400 "Email, user_type and password are required")
  end.

End Auth.

(** ** Transactions *)

(** The fields a request body gives for a transaction; [None] is a missing
    or null field.  [user_id] and [category_id] are the texts the driver
    sends for them. *)
Record TransactionBody : Type := mkTransactionBody {
  b_user_id : option string;
  b_amount : option Qc;
  b_type : option TxType;
  b_date : option Date;
  b_account : option string;
  b_document_no : option string;
  b_description : option string;
  b_category_id : option string
}.

(** Rounding to two decimals, halves away from zero, as [numeric] does. *)
Definition round_half_away (x : Qc) : Qc :=
  if Qle_bool 0 x
  then (num (Qfloor (x * num 100 + Q2Qc (1 # 2))%Qc) / num 100)%Qc
  else (- (num (Qfloor (- x * num 100 + Q2Qc (1 # 2))%Qc) / num 100))%Qc.

(** Storing into [DECIMAL(15, 2)]: the rounded value, an error when it needs
    more than thirteen integer digits. *)
Definition numeric_15_2 (x : Qc) : option Qc :=
  let r := round_half_away x in
  if Qle_bool (num 10000000000000) r || Qle_bool r (num (-10000000000000))
  then None else Some r.

(** The amount parameter: [null] stays null; the outer [None] is the
    overflow of the column. *)
Definition amount_param (p : option Qc) : option (option Qc) :=
  match p with
  | None => Some None
  | Some a =>
      match numeric_15_2 a with
      | Some a' => Some (Some a')
      | None => None
      end
  end.

(** A row of [users] has this id. *)
Definition user_exists (db : DB) (uid : string) : bool :=
  existsb (fun u => String.eqb (u_id u) uid) (users db).

(** The row of [categories] with this id. *)
Definition category_row (db : DB) (cid : string) : option CategoryRow :=
  find (fun c => String.eqb (cat_id c) cid) (categories db).

(** [SELECT ... FROM categories WHERE id = $1] with the text of a
    parameter. *)
Definition find_category (db : DB) (cid : string) : option CategoryRow :=
  match int4in cid with
  | Some k => category_row db (integer_text k)
  | None => None
  end.


(** The foreign keys of a row: a user and a category that are not null
    exist. *)
Definition references_ok (db : DB) (user_id category_id : option Z) : bool :=
  match user_id with
  | Some u => user_exists db (integer_text u)
  | None => true
  end
  && match category_id with
     | Some c =>
         match category_row db (integer_text c) with
         | Some _ => true
         | None => false
         end
     | None => true
     end.

(** What binding the parameters of a statement checks before any row is
    touched: the integers read as integers, the amount fits its column, and
    account and document number fit [VARCHAR(255)].  [None] is the error
    [pg] raises. *)
Definition bound_values (user_id category_id : option string)
           (amount : option Qc) (account document_no : option string)
  : option (option Z * option Z * option Qc) :=
  match integer_param user_id, integer_param category_id,
        amount_param amount with
  | Some u, Some c, Some a =>
      if fits_opt 255 account && fits_opt 255 document_no
      then Some (u, c, a) else None
  | _, _, _ => None
  end.

(** The columns [amount], [type] and [date] are [NOT NULL]. *)
Definition not_null_values (amount : option Qc) (type : option TxType)
           (date : option Date) : option (Qc * TxType * Date) :=
  match amount, type, date with
  | Some a, Some ty, Some d => Some (a, ty, d)
  | _, _, _ => None
  end.

Definition set_transactions (db : DB) (rows : list Transaction) : DB :=
  {| users := users db;
     categories := categories db;
     transactions := rows;
     users_id_seq := users_id_seq db;
     transactions_id_seq := transactions_id_seq db |}.

(** [nextval('transactions_id_seq')]: the sequence moves on, also when the
    statement fails afterwards. *)
Definition draw_id (db : DB) : DB :=
  {| users := users db;
     categories := categories db;
     transactions := transactions db;
     users_id_seq := users_id_seq db;
     transactions_id_seq := N.succ (transactions_id_seq db) |}.

(** [POST /api/transactions]: [INSERT ... RETURNING *].  The handler checks
    nothing itself; every error of the statement ends in its 500.  An error
    of binding leaves the store as it was; the [NOT NULL] columns and the
    foreign keys are checked on the row, after [nextval] gave it its id. *)
Definition post_transactions (db : DB) (now : string) (body : TransactionBody)
  : DB * Reply Transaction :=
  let categoryIdValue :=
    match b_category_id body with
    | Some c => if String.eqb c "" then None else Some c
    | None => None
    end in
  match bound_values (b_user_id body) categoryIdValue (b_amount body)
                     (or_null (b_account body))
                     (or_null (b_document_no body)) with
  | None => (db, Failure 500 "Internal server error")
  | Some (user_id, category_id, amount) =>
      if exhausted (transactions_id_seq db) then
        (db, Failure 500 "Internal server error")
      else
        match not_null_values amount (b_type body) (b_date body) with
        | Some (a, ty, d) =>
            if references_ok db user_id category_id then
              let row :=
                {| tx_id := serial (transactions_id_seq db);
                   tx_user_id := option_map integer_text user_id;
                   tx_amount := a;
                   tx_type := ty;
                   tx_date := d;
                   tx_account := or_null (b_account body);
                   tx_document_no := or_null (b_document_no body);
                   tx_description := or_null (b_description body);
                   tx_category_id := option_map integer_text category_id;
                   tx_created_at := Some now;
                   tx_updated_at := None;
                   tx_categories := None |} in
              (set_transactions (draw_id db) (transactions db ++ [row]),
               Success 201 row)
            else (draw_id db, Failure 500 "Internal server error")
        | None => (draw_id db, Failure 500 "Internal server error")
        end
  end.

(** The [LEFT JOIN] with [json_build_object('id', 'name', 'color')], on the
    stored [category_id]. *)
Definition join_category (db : DB) (category_id : option string)
  : option CategoryInfo :=
  match category_id with
  | Some cid =>
      match category_row db cid with
      | Some c => Some {| c_id := cat_id c; c_name := cat_name c;
                          c_color := cat_color c |}
      | None => None
      end
  | None => None
  end.

Definition with_categories (t : Transaction) (c : option CategoryInfo)
  : Transaction :=
  {| tx_id := tx_id t; tx_user_id := tx_user_id t; tx_amount := tx_amount t;
     tx_type := tx_type t; tx_date := tx_date t; tx_account := tx_account t;
     tx_document_no := tx_document_no t; tx_description := tx_description t;
     tx_category_id := tx_category_id t; tx_created_at := tx_created_at t;
     tx_updated_at := tx_updated_at t; tx_categories := c |}.

(** The select list of [GET /api/transactions]: the columns without
    [created_at], and the joined category. *)
Definition selected (t : Transaction) (c : option CategoryInfo)
  : Transaction :=
  {| tx_id := tx_id t; tx_user_id := tx_user_id t; tx_amount := tx_amount t;
     tx_type := tx_type t; tx_date := tx_date t; tx_account := tx_account t;
     tx_document_no := tx_document_no t; tx_description := tx_description t;
     tx_category_id := tx_category_id t; tx_created_at := None;
     tx_updated_at := None; tx_categories := c |}.

(** [ORDER BY t.date DESC]; rows of one date come in storage order here (the
    store promises no order among them). *)
Definition by_date_desc (a b : Transaction) : option Z :=
  Some (getTime (tx_date b) - getTime (tx_date a))%Z.

(** [WHERE t.user_id = $1] *)
Definition owned_by (user : Z) (t : Transaction) : bool :=
  match tx_user_id t with
  | Some u => String.eqb u (integer_text user)
  | None => false
  end.

(** [GET /api/transactions?user_id=]: a [user_id] that is no integer makes
    the query fail, which the handler answers with 500. *)
Definition get_transactions (db : DB) (user_id : option string)
  : Reply (list Transaction) :=
  match user_id with
  | Some uid =>
      if truthy_str uid then
        match int4in uid with
        | Some user =>
            Success 200
              (Array_sort by_date_desc
                 (map (fun t => selected t
                                  (join_category db (tx_category_id t)))
                      (filter (owned_by user) (transactions db))))
        | None => Failure 500 "Internal server error"
        end
      else Failure 400 "user_id is required"
  | None => Failure 400 "user_id is required"
  end.

(** [WHERE id = $1] *)
Definition has_id (id : Z) (t : Transaction) : bool :=
  String.eqb (tx_id t) (integer_text id).

(** [{ message, transaction }] *)
Record DeleteBody : Type := mkDeleteBody {
  delete_message : string;
  delete_transaction_row : Transaction
}.

(** [DELETE /api/transactions/:id]: [DELETE ... WHERE id = $1 RETURNING *];
    an [id] that is no integer makes the statement fail, which the handler
    answers with 500. *)
Definition delete_transaction (db : DB) (id : string)
  : DB * Reply DeleteBody :=
  if negb (truthy_str id) then
    (db, Failure 400 "Transaction id is required")
  else
    match int4in id with
    | None => (db, Failure 500 "Internal server error")
    | Some key =>
        match filter (has_id key) (transactions db) with
        | [] => (db, Failure 404 "Transaction not found")
        | row :: _ =>
            (set_transactions db
               (filter (fun t => negb (has_id key t)) (transactions db)),
             Success 200
               {| delete_message := "Transaction deleted successfully";
                  delete_transaction_row := row |})
        end
    end.

(** [PUT /api/transactions/:id]: [UPDATE ... WHERE id = $8 RETURNING *], then
    the lookup of the category when the row's [category_id] is truthy (an
    integer other than 0).  An error of binding comes before the search for
    the row; the [NOT NULL] columns and the foreign key are checked on the
    row that is written.  The new version of the row is stored behind the
    other rows. *)
Definition put_transaction (db : DB) (id : string) (body : TransactionBody)
  : DB * Reply Transaction :=
  if negb (truthy_str id) then
    (db, Failure 400 "Transaction ID is required")
  else
    match int4in id,
          bound_values None (or_null (b_category_id body)) (b_amount body)
                       (or_null (b_account body))
                       (or_null (b_document_no body)) with
    | Some key, Some (_, category_id, amount) =>
        match filter (has_id key) (transactions db) with
        | [] => (db, Failure 404 "Transaction not found")
        | old :: _ =>
            match not_null_values amount (b_type body) (b_date body) with
            | Some (a, ty, d) =>
                if references_ok db None category_id then
                  let update (t : Transaction) : Transaction :=
                    {| tx_id := tx_id t; tx_user_id := tx_user_id t;
                       tx_amount := a; tx_type := ty; tx_date := d;
                       tx_account := or_null (b_account body);
                       tx_document_no := or_null (b_document_no body);
                       tx_description := or_null (b_description body);
                       tx_category_id := option_map integer_text category_id;
                       tx_created_at := tx_created_at t;
                       tx_updated_at := tx_updated_at t;
                       tx_categories := None |} in
                  (set_transactions db
                     (filter (fun t => negb (has_id key t)) (transactions db)
                      ++ map update (filter (has_id key) (transactions db)))%list,
                   Success 200
                     (with_categories (update old)
                        (match category_id with
                         | Some c =>
                             if (c =? 0)%Z then None
                             else join_category db (Some (integer_text c))
                         | None => None
                         end)))
                else (db, Failure 500 "Internal server error")
            | None => (db, Failure 500 "Internal server error")
            end
        end
    | _, _ => (db, Failure 500 "Internal server error")
    end.

(** The 404 handler that answers every route a backend does not register. *)
Definition not_found {A : Type} (method url : string) : Reply A :=
  Failure 404 ("Route " ++ method ++ " " ++ url ++ " not found").

(** [DELETE /api/transactions/:id] on either backend; [id] is one segment of
    the path, and the route does not match an empty one. *)
Definition route_delete (backend : Backend) (db : DB) (id : string)
  : DB * Reply DeleteBody :=
  match backend with
  | Full =>
      if truthy_str id then delete_transaction db id
      else (db, not_found "DELETE" "/api/transactions/")
  | Basic => (db, not_found "DELETE" ("/api/transactions/" ++ id))
  end.

(** [PUT /api/transactions/:id] on either backend. *)
Definition route_put (backend : Backend) (db : DB) (id : string)
           (body : TransactionBody) : DB * Reply Transaction :=
  match backend with
  | Full =>
      if truthy_str id then put_transaction db id body
      else (db, not_found "PUT" "/api/transactions/")
  | Basic => (db, not_found "PUT" ("/api/transactions/" ++ id))
  end.

End Server.

(* ================================================================== *)
(** * Client ledger cache ([src/contexts/TransactionContext.tsx]) *)
(* ================================================================== *)

Module Client.
Import JS JSDate Http Server.
Local Open Scope string_scope.

(** Each function takes the outcome of its [fetch] and the current
    [transactions] state, and gives the next state and how the call ends. *)

Definition addTransaction (res : FetchResult Transaction)
           (transactions : list Transaction)
  : list Transaction * Completion Transaction :=
  match res with
  | Rejected => (transactions, Thrown FetchProblem)
  | NotOk status message => (transactions, Thrown (HttpProblem status message))
  | Ok None => (transactions, Thrown FetchProblem)
  | Ok (Some newTransaction) =>
      (* setTransactions((prev) => [...prev, newTransaction]) *)
      ((transactions ++ [newTransaction])%list, Returned newTransaction)
  end.

Definition fetchTransactions (res : FetchResult (list Transaction))
           (transactions : list Transaction)
  : list Transaction * Completion unit :=
  match res with
  | Ok (Some data) => (data, Returned tt)      (* setTransactions(data) *)
  | Ok None => (transactions, Returned tt)     (* res.json() threw: caught *)
  | NotOk _ _ => (transactions, Returned tt)   (* thrown in the try: caught *)
  | Rejected => (transactions, Returned tt)    (* fetch threw: caught *)
  end.

Definition updateTransaction (tx : Transaction)
           (res : FetchResult Transaction) (transactions : list Transaction)
  : list Transaction * Completion Transaction :=
  match res with
  | Rejected => (transactions, Thrown FetchProblem)
  | NotOk status message => (transactions, Thrown (HttpProblem status message))
  | Ok None => (transactions, Thrown FetchProblem)
  | Ok (Some updatedTx) =>
      (* prev.map((t) => (t.id === tx.id ? updatedTx : t)) *)
      (map (fun t => if String.eqb (tx_id t) (tx_id tx) then updatedTx else t)
           transactions,
       Returned updatedTx)
  end.

Definition deleteTransaction {A : Type} (id : string) (res : FetchResult A)
           (transactions : list Transaction)
  : list Transaction * Completion unit :=
  match res with
  | Rejected => (transactions, Thrown FetchProblem)
  | NotOk status message => (transactions, Thrown (HttpProblem status message))
  | Ok _ =>
      (* prev.filter((t) => t.id !== id) *)
      (filter (fun t => negb (String.eqb (tx_id t) id)) transactions,
       Returned tt)
  end.

(** ** The forms (the [AddTransaction] and [EditTransaction] pages) *)

(** White space and line terminators, which [trim] removes at both ends:
    among the code units below 256 these are tab to carriage return, the
    space and the no-break space. *)
Definition is_space (c : ascii) : bool :=
  let n := nat_of_ascii c in
  (Nat.eqb n 32 || Nat.eqb n 160 || ((9 <=? n)%nat && (n <=? 13)%nat))%bool.

Fixpoint trim_start (s : string) : string :=
  match s with
  | String c r => if is_space c then trim_start r else s
  | EmptyString => EmptyString
  end.

Fixpoint trim_end (s : string) : string :=
  match s with
  | EmptyString => EmptyString
  | String c r =>
      match trim_end r with
      | EmptyString => if is_space c then EmptyString else String c EmptyString
      | r' => String c r'
      end
  end.

Definition trim (s : string) : string := trim_end (trim_start s).

(** What a form hands to [transactionSchema.parse]: the amount after
    [parseFloat] or [Number] ([None] is NaN), the date ([None] is the empty
    string), and text fields where [None] is [null]. *)
Record SchemaInput : Type := mkSchemaInput {
  in_type : TxType;
  in_amount : option Qc;
  in_date : option Date;
  in_category_id : string;
  in_account : option string;
  in_document_no : option string;
  in_description : option string
}.

Record Validated : Type := mkValidated {
  v_type : TxType;
  v_amount : Qc;
  v_date : Date;
  v_category_id : string;
  v_account : string;
  v_document_no : string;
  v_description : string
}.

(** [z.string().trim().max(n).optional()] on a field that is a string or
    [null]: [null] is refused. *)
Definition trimmed_max (n : nat) (field : option string) : option string :=
  match field with
  | Some s => if (String.length (trim s) <=? n)%nat then Some (trim s) else None
  | None => None
  end.

(** [transactionSchema.parse]; [None] is the [ZodError]. *)
Definition transactionSchema (i : SchemaInput) : option Validated :=
  match in_amount i, in_date i,
        trimmed_max 100 (in_account i),
        trimmed_max 50 (in_document_no i),
        trimmed_max 500 (in_description i) with
  | Some a, Some d, Some acc, Some doc, Some desc =>
      if Qle_bool a 0 then None            (* z.number().positive() *)
      else if negb (truthy_str (in_category_id i)) then None  (* min(1) *)
      else Some {| v_type := in_type i; v_amount := a; v_date := d;
                   v_category_id := in_category_id i;
                   v_account := acc; v_document_no := doc;
                   v_description := desc |}
  | _, _, _, _, _ => None
  end.

(** [interface User] of the session, as far as the forms read it. *)
Record User : Type := mkUser {
  user_id : string;
  user_email : string
}.

(** [interface TransactionInput], as the request body it becomes. *)
Definition TransactionInput : Type := TransactionBody.

(** The state of the add form. *)
Record AddForm : Type := mkAddForm {
  af_type : TxType;
  af_amount : option Qc;        (* parseFloat(formData.amount) *)
  af_date : option Date;
  af_category_id : string;
  af_account : string;
  af_document_no : string;
  af_description : string
}.

(** [handleSubmit] of [AddTransaction] up to the call of [addTransaction]:
    the [transactionData] it sends, [None] when it shows an error instead. *)
Definition AddTransaction_handleSubmit (user : option User) (formData : AddForm)
  : option TransactionInput :=
  match transactionSchema
          {| in_type := af_type formData;
             in_amount := af_amount formData;
             in_date := af_date formData;
             in_category_id := af_category_id formData;
             in_account := Some (af_account formData);
             in_document_no := Some (af_document_no formData);
             in_description := Some (af_description formData) |} with
  | None => None
  | Some validatedData =>
      match user with
      | None => None
      | Some u =>
          let userId := or_str (Some (user_id u)) (user_email u) in
          if negb (truthy_str userId) then None
          else
            Some {| b_user_id := Some userId;
                    b_type := Some (v_type validatedData);
                    b_amount := Some (v_amount validatedData);
                    b_date := Some (v_date validatedData);
                    b_category_id := or_null (Some (v_category_id validatedData));
                    b_account := or_null (Some (v_account validatedData));
                    b_document_no :=
                      or_null (Some (v_document_no validatedData));
                    b_description :=
                      or_null (Some (v_description validatedData)) |}
      end
  end.

(** The state of the edit form: a [TransactionInput] whose amount went
    through [Number]; [user_id] is copied from the cached record. *)
Record EditForm : Type := mkEditForm {
  ef_user_id : option string;
  ef_type : TxType;
  ef_amount : option Qc;
  ef_date : option Date;
  ef_category_id : option string;
  ef_account : option string;
  ef_document_no : option string;
  ef_description : option string
}.

(** [handleSubmit] of [EditTransaction] up to the call of
    [updateTransaction]: the [transactionToUpdate] it sends; [now] is [new
    Date().toISOString()]. *)
Definition EditTransaction_handleSubmit (id : string) (now : string)
           (formData : EditForm) (transactions : list Transaction)
  : option Transaction :=
  match transactionSchema
          {| in_type := ef_type formData;
             in_amount := ef_amount formData;
             in_date := ef_date formData;
             in_category_id := or_str (ef_category_id formData) "";
             in_account := ef_account formData;
             in_document_no := ef_document_no formData;
             in_description := Some (or_str (ef_description formData) "") |}
  with
  | None => None
  | Some validatedData =>
      match find (fun t => String.eqb (tx_id t) id) transactions with
      | None => None
      | Some existingTx =>
          Some {| tx_id := id;
                  tx_user_id := ef_user_id formData;
                  tx_type := v_type validatedData;
                  tx_amount := v_amount validatedData;
                  tx_date := v_date validatedData;
                  tx_category_id := Some (v_category_id validatedData);
                  tx_account := or_null (Some (v_account validatedData));
                  tx_document_no :=
                    or_null (Some (v_document_no validatedData));
                  tx_description :=
                    or_null (Some (v_description validatedData));
                  tx_created_at :=
                    Some (or_str (tx_created_at existingTx) now);
                  tx_updated_at := Some now;
                  tx_categories := tx_categories existingTx |}
      end
  end.

(** [JSON.stringify(tx)] as the handler of [PUT] reads it. *)
Definition body_of_transaction (tx : Transaction) : TransactionBody :=
  {| b_user_id := tx_user_id tx;
     b_amount := Some (tx_amount tx);
     b_type := Some (tx_type tx);
     b_date := Some (tx_date tx);
     b_account := tx_account tx;
     b_document_no := tx_document_no tx;
     b_description := tx_description tx;
     b_category_id := tx_category_id tx |}.

(** ** The client wired to a backend *)

Record System : Type := mkSystem {
  backend : Backend;
  db : DB;
  cache : list Transaction
}.

(** What becomes of a request on its way: it is answered, it never reaches
    the handler, or the handler runs and its reply is lost.  In the last two
    cases [fetch] rejects. *)
Inductive Delivery : Type :=
| Delivered
| RequestLost
| ReplyLost.

(** The store after the request and what [fetch] gives the client, where
    [served] is what the handler makes of the store [db]. *)
Definition exchange {A : Type} (net : Delivery) (db : DB)
           (served : DB * Reply A) : DB * FetchResult A :=
  match net with
  | Delivered => (fst served, delivered (snd served))
  | RequestLost => (db, Rejected)
  | ReplyLost => (fst served, Rejected)
  end.

(** An identifier that the client can put into a URL as it is: letters,
    digits, [-] and [_], at least one. *)
Definition url_char (c : ascii) : bool :=
  let n := nat_of_ascii c in
  (((48 <=? n) && (n <=? 57)) || ((65 <=? n) && (n <=? 90))
   || ((97 <=? n) && (n <=? 122)) || Nat.eqb n 45 || Nat.eqb n 95)%nat.

Fixpoint url_chars (s : string) : bool :=
  match s with
  | EmptyString => true
  | String c r => url_char c && url_chars r
  end.

Definition url_segment (s : string) : bool := truthy_str s && url_chars s.

Definition sys_addTransaction (net : Delivery) (now : string)
           (input : TransactionInput) (s : System)
  : System * Completion Transaction :=
  let '(db', res) :=
    exchange net (db s) (post_transactions (db s) now input) in
  let '(cache', c) := addTransaction res (cache s) in
  ({| backend := backend s; db := db'; cache := cache' |}, c).


Definition sys_updateTransaction (net : Delivery) (tx : Transaction)
           (s : System) : System * Completion Transaction :=
  let '(db', res) :=
    exchange net (db s)
             (route_put (backend s) (db s) (tx_id tx)
                        (body_of_transaction tx)) in
  let '(cache', c) := updateTransaction tx res (cache s) in
  ({| backend := backend s; db := db'; cache := cache' |}, c).

Definition sys_deleteTransaction (net : Delivery) (id : string) (s : System)
  : System * Completion unit :=
  let '(db', res) :=
    exchange net (db s) (route_delete (backend s) (db s) id) in
  let '(cache', c) := deleteTransaction id res (cache s) in
  ({| backend := backend s; db := db'; cache := cache' |}, c).

(** ** Sample stores *)

Definition sample_user : UserRow :=
  {| u_id := "1"; u_name := Some "Bat"; u_email := "bat@example.mn";
     u_user_type := "individual"; u_organization_name := None;
     u_organization_id := None; u_password := "$2b$10$secret";
     u_created_at := "2024-01-01T00:00:00.000Z" |}.

Definition sample_row (i : string) (a : Z) (ty : TxType) (d : Date)
  : Transaction :=
  {| tx_id := i; tx_user_id := Some "1"; tx_amount := num a; tx_type := ty;
     tx_date := d; tx_account := None; tx_document_no := None;
     tx_description := None; tx_category_id := None;
     tx_created_at := Some "2024-01-01T00:00:00.000Z";
     tx_updated_at := None; tx_categories := None |}.

Definition sample_db : DB :=
  {| users := [sample_user];
     categories := [ {| cat_id := "1"; cat_name := "Food";
                        cat_type := "expense"; cat_color := "#ef4444" |} ];
     transactions := [ sample_row "1" 100 income (mkDate 2024 Jan 10);
                       sample_row "2" 40 expense (mkDate 2024 Jan 15);
                       sample_row "3" 60 income (mkDate 2024 Feb 1) ];
     users_id_seq := 2;
     transactions_id_seq := 4 |}.

(** A request sent to the API directly, with a negative amount. *)
Definition negative_body : TransactionBody :=
  {| b_user_id := Some "1"; b_amount := Some (num (-5));
     b_type := Some expense; b_date := Some (mkDate 2024 Mar 1);
     b_account := None; b_document_no := None; b_description := None;
     b_category_id := None |}.

(** A filled add form: 12.50 spent on food. *)
Definition sample_add_form : AddForm :=
  {| af_type := expense; af_amount := Some (Q2Qc (25 # 2));
     af_date := Some (mkDate 2024 Mar 1); af_category_id := "1";
     af_account := " Cash "; af_document_no := ""; af_description := "" |}.

(** A stand-in for bcrypt: the hash of the sample user's password is the
    stored one. *)
Definition sample_hash (password : string) : string :=
  if String.eqb password "secret" then "$2b$10$secret"
  else "$2b$10$" ++ password.

Definition sample_compare (password hash : string) : bool :=
  String.eqb (sample_hash password) hash.

Definition sample_signup : SignupBody :=
  {| sb_name := Some "Dorj"; sb_email := Some "dorj@example.mn";
     sb_user_type := Some "individual"; sb_organization_name := Some "";
     sb_organization_id := None; sb_password := Some "hunter2" |}.

Definition sample_system (b : Backend) : System :=
  {| backend := b; db := sample_db; cache := transactions sample_db |}.

End Client.

(* ================================================================== *)
(** * Categories list ([GET /api/categories] and [Categories]) *)
(* ================================================================== *)

Module CategoryList.
Import JS Http Server.
Local Open Scope string_scope.

(** [GET /api/categories?type=]: [SELECT * FROM categories], with [WHERE
    type = $1] when the query has a type. *)
Definition get_categories (db : DB) (type : option string)
  : Reply (list CategoryRow) :=
  Success 200
    (if truthy_opt_str type
     then filter (fun c => String.eqb (cat_type c)
                                      (match type with
                                       | Some ty => ty
                                       | None => ""
                                       end))
                 (categories db)
     else categories db).

(** [Categories(categoryType)] of [TransactionContext.tsx] on the outcome of
    its fetch: the parsed list, the empty list after any failure. *)
Definition Categories (res : FetchResult (list CategoryRow))
  : list CategoryRow :=
  match res with
  | Ok (Some data) => data
  | Ok None => []
  | NotOk _ _ => []
  | Rejected => []
  end.

(** The client asks [?type=${categoryType}] of the backend. *)
Definition sys_Categories (categoryType : string) (db : DB)
  : list CategoryRow :=
  Categories (delivered (get_categories db (Some categoryType))).

(** ['income' | 'expense'] as the string the form passes. *)
Definition type_name (ty : TxType) : string :=
  match ty with income => "income" | expense => "expense" end.

End CategoryList.

(* ================================================================== *)
(** * The transactions page ([src/pages/Transactions.tsx]) *)
(* ================================================================== *)

Module TransactionsPage.
Import JS CategoryList.
Local Open Scope string_scope.

(** [toLowerCase] on one code unit below 256: the capital letters [A] to
    [Z] and those of Latin-1 (192 to 222 without the multiplication sign 215)
    have their small letter 32 places on; every other unit is kept. *)
Definition lower_char (c : ascii) : ascii :=
  let n := nat_of_ascii c in
  if (((65 <=? n) && (n <=? 90))
      || ((192 <=? n) && (n <=? 222) && negb (Nat.eqb n 215)))%nat
  then ascii_of_nat (n + 32) else c.

Fixpoint toLowerCase (s : string) : string :=
  match s with
  | EmptyString => EmptyString
  | String c r => String (lower_char c) (toLowerCase r)
  end.

(** [s.includes(sub)] *)
Fixpoint includes (s sub : string) : bool :=
  String.prefix sub s
  || match s with
     | EmptyString => false
     | String _ r => includes r sub
     end.

(** [field?.toLowerCase().includes(search)], falsy when the field is null. *)
Definition field_matches (field : option string) (search : string) : bool :=
  match field with
  | Some v => includes (toLowerCase v) search
  | None => false
  end.

(** The predicate of the search filter. *)
Definition matches_search (search : string) (t : Transaction) : bool :=
  field_matches (tx_description t) search
  || field_matches (tx_account t) search
  || field_matches (tx_document_no t) search
  || field_matches (option_map c_name (tx_categories t)) search.

(** The filter effect: [typeFilter] is ['all'] or a type, [searchTerm] the
    text of the search box; the result is what [setFilteredTransactions]
    receives. *)
Definition applyFilters (transactions : list Transaction)
           (searchTerm typeFilter : string) : list Transaction :=
  let filtered := transactions in
  let filtered :=
    if negb (String.eqb typeFilter "all")
    then filter (fun t => String.eqb (type_name (tx_type t)) typeFilter)
                filtered
    else filtered in
  if truthy_str searchTerm
  then let search := toLowerCase searchTerm in
       filter (matches_search search) filtered
  else filtered.

End TransactionsPage.

(* ================================================================== *)
(** * The edit page: the amount field *)
(* ================================================================== *)

Module EditPage.
Import JS Client.

(** The effect that fills the form from the cached transaction [tx]. *)
Definition loadForm (tx : Transaction) : EditForm :=
  {| ef_user_id := tx_user_id tx;
     ef_type := tx_type tx;
     ef_amount := Some (tx_amount tx);      (* Number(tx.amount) *)
     ef_date := Some (tx_date tx);
     ef_category_id := tx_category_id tx;
     ef_account := tx_account tx;
     ef_document_no := tx_document_no tx;
     ef_description := tx_description tx |}.

(** [handleInputChange('account', value)] and the like for the text
    inputs. *)
Definition setAccount (value : string) (formData : EditForm) : EditForm :=
  {| ef_user_id := ef_user_id formData;
     ef_type := ef_type formData;
     ef_amount := ef_amount formData;
     ef_date := ef_date formData;
     ef_category_id := ef_category_id formData;
     ef_account := Some value;
     ef_document_no := ef_document_no formData;
     ef_description := ef_description formData |}.

Definition setDocumentNo (value : string) (formData : EditForm) : EditForm :=
  {| ef_user_id := ef_user_id formData;
     ef_type := ef_type formData;
     ef_amount := ef_amount formData;
     ef_date := ef_date formData;
     ef_category_id := ef_category_id formData;
     ef_account := ef_account formData;
     ef_document_no := Some value;
     ef_description := ef_description formData |}.

(** [handleAmountChange(value)]: [parseFloat(value)], zero when it is NaN;
    [parsed] is the result of [parseFloat]. *)
Definition handleAmountChange (parsed : option Qc) (formData : EditForm)
  : EditForm :=
  {| ef_user_id := ef_user_id formData;
     ef_type := ef_type formData;
     ef_amount := Some (match parsed with Some v => v | None => num 0 end);
     ef_date := ef_date formData;
     ef_category_id := ef_category_id formData;
     ef_account := ef_account formData;
     ef_document_no := ef_document_no formData;
     ef_description := ef_description formData |}.

(** [handleTypeChange(value)]: the category is reset. *)
Definition handleTypeChange (value : TxType) (formData : EditForm)
  : EditForm :=
  {| ef_user_id := ef_user_id formData;
     ef_type := value;
     ef_amount := ef_amount formData;
     ef_date := ef_date formData;
     ef_category_id := None;
     ef_account := ef_account formData;
     ef_document_no := ef_document_no formData;
     ef_description := ef_description formData |}.

End EditPage.

(* ================================================================== *)
(** * The session ([src/contexts/AuthContext.tsx]) *)
(* ================================================================== *)

Module Session.
Import JS Http Server.
Local Open Scope string_scope.

(** [interface User] *)
Record SessionUser : Type := mkSessionUser {
  su_id : JsonValue;
  su_name : JsonValue;
  su_email : JsonValue;
  su_user_type : JsonValue;
  su_organization_name : JsonValue;
  su_organization_id : JsonValue
}.

(** The provider's state: [user], and the ["user"] item of [localStorage]
    ([None]: no item; [Some None]: an item that does not parse). *)
Record State : Type := mkState {
  user : option SessionUser;
  stored : option (option SessionUser)
}.

(** A property of a JSON object, [JNull] when it is missing. *)
Definition prop (o : JsonObject) (k : string) : JsonValue :=
  match Map_get o k with Some v => v | None => JNull end.

Definition truthy_json (v : JsonValue) : bool :=
  match v with JNull => false | JString s => truthy_str s end.

(** [a || b] on JSON values. *)
Definition or_json (a b : JsonValue) : JsonValue :=
  if truthy_json a then a else b.

(** The mount effect: the stored user is read back; an item that does not
    parse is removed. *)
Definition mount (st : State) : State :=
  match stored st with
  | Some (Some parsedUser) => {| user := Some parsedUser; stored := stored st |}
  | Some None => {| user := user st; stored := None |}
  | None => st
  end.

(** How [signIn] and [signUp] end: [{}] or [{ error }]. *)
Inductive Outcome : Type :=
| Done
| WithError (problem : Problem).

(** [signIn(email, password)] on the outcome of its fetch.  The body is
    parsed before the status is looked at. *)
Definition signIn (res : FetchResult LoginBody) (st : State)
  : State * Outcome :=
  match res with
  | Rejected => (st, WithError FetchProblem)
  | Ok None => (st, WithError FetchProblem)
  | NotOk status message => (st, WithError (HttpProblem status message))
  | Ok (Some data) =>
      let u := login_user data in
      let userData :=
        {| su_id := or_json (prop u "id") (prop u "email");
           su_name := prop u "name";
           su_email := prop u "email";
           su_user_type := or_json (prop u "user_type") (JString "individual");
           su_organization_name := prop u "organization_name";
           su_organization_id := prop u "organization_id" |} in
      ({| user := Some userData; stored := Some (Some userData) |}, Done)
  end.

(** [signUp(data)] on the outcome of its fetch: the session starts only
    when the result has an id. *)
Definition signUp (res : FetchResult JsonObject) (st : State)
  : State * Outcome :=
  match res with
  | Rejected => (st, WithError FetchProblem)
  | Ok None => (st, WithError FetchProblem)
  | NotOk status message => (st, WithError (HttpProblem status message))
  | Ok (Some result) =>
      if truthy_json (prop result "id") then
        let userData :=
          {| su_id := prop result "id";
             su_name := prop result "name";
             su_email := prop result "email";
             su_user_type := prop result "user_type";
             su_organization_name := prop result "organization_name";
             su_organization_id := prop result "organization_id" |} in
        ({| user := Some userData; stored := Some (Some userData) |}, Done)
      else (st, Done)
  end.

Definition signOut (st : State) : State :=
  {| user := None; stored := None |}.

(** A reload of the page: the provider starts without a user, the storage is
    what it was, and the mount effect runs. *)
Definition reload (st : State) : State :=
  mount {| user := None; stored := stored st |}.

(** [ProtectedRoute]: the children are rendered only for a user. *)
Definition ProtectedRoute {A : Type} (st : State) (children : A) : option A :=
  match user st with
  | Some _ => Some children
  | None => None
  end.

End Session.

(* ================================================================== *)
(** * Predicates the properties below are stated with *)
(* ================================================================== *)

Module Shape.
Import JS JSDate Http Server Client Reports.
Local Open Scope Qc_scope.

(** Identifiers of the stored transactions come from the sequence and are
    distinct. *)
Definition keys_ok (d : DB) : Prop :=
  (forall t, In t (transactions d) ->
             exists n, (n < transactions_id_seq d)%N /\ tx_id t = serial n)
  /\ NoDup (map tx_id (transactions d)).

(** The row [UPDATE ... SET] makes of [t] with the values of a request
    body, once they are bound and checked. *)
Definition put_row (body : TransactionBody) (category : option Z) (a : Qc)
           (ty : TxType) (d : Date) (t : Transaction) : Transaction :=
  {| tx_id := tx_id t; tx_user_id := tx_user_id t;
     tx_amount := a; tx_type := ty; tx_date := d;
     tx_account := or_null (b_account body);
     tx_document_no := or_null (b_document_no body);
     tx_description := or_null (b_description body);
     tx_category_id := option_map integer_text category;
     tx_created_at := tx_created_at t;
     tx_updated_at := tx_updated_at t;
     tx_categories := None |}.

(** The tables of [d'] are those of [d]; the sequences may differ. *)
Definition same_tables (d d' : DB) : Prop :=
  users d' = users d /\ categories d' = categories d
  /\ transactions d' = transactions d.

(** The [category_id] a [POST] binds: an empty string counts as none. *)
Definition posted_category (body : TransactionBody) : option string :=
  match b_category_id body with
  | Some c => if String.eqb c "" then None else Some c
  | None => None
  end.

(** The columns of a row that every reply carries: the timestamps and the
    joined category are left out ([GET] selects no [created_at]). *)
Definition columns (t : Transaction) : Transaction :=
  {| tx_id := tx_id t; tx_user_id := tx_user_id t; tx_amount := tx_amount t;
     tx_type := tx_type t; tx_date := tx_date t; tx_account := tx_account t;
     tx_document_no := tx_document_no t; tx_description := tx_description t;
     tx_category_id := tx_category_id t; tx_created_at := None;
     tx_updated_at := None; tx_categories := None |}.

(** The rows of one user, in storage order. *)
Definition rows_of (user : Z) (d : DB) : list Transaction :=
  filter (owned_by user) (transactions d).



(** Later dates first. *)
Definition date_desc (a b : Transaction) : Prop :=
  (getTime (tx_date b) <= getTime (tx_date a))%Z.

(** No two users share an email. *)
Definition emails_unique (d : DB) : Prop := NoDup (map u_email (users d)).


End Shape.

(* ================================================================== *)
(** * Theorems *)
(* ================================================================== *)

(* ------------------------------------------------------------------ *)
(** ** Maps in insertion order *)
(* ------------------------------------------------------------------ *)

Section MapFacts.
Import JS.
Variable V : Type.
Implicit Types (m : Map V) (k : string) (v : V).

Lemma Map_get_set_same m k v : Map_get (Map_set m k v) k = Some v.
Proof.
  induction m as [|[k' v'] m IH]; simpl.
  - now rewrite String.eqb_refl.
  - destruct (String.eqb k' k) eqn:E; simpl; rewrite E; trivial.
Qed.

Lemma Map_get_set_other m k k' v :
  k <> k' -> Map_get (Map_set m k v) k' = Map_get m k'.
Proof.
  intros N. induction m as [|[k0 v0] m IH]; simpl.
  - apply String.eqb_neq in N. now rewrite N.
  - destruct (String.eqb k0 k) eqn:E; simpl.
    + apply String.eqb_eq in E. subst k0.
      apply String.eqb_neq in N. now rewrite N.
    + now rewrite IH.
Qed.

Lemma Map_get_keys m k : Map_get m k <> None <-> In k (map fst m).
Proof.
  induction m as [|[k' v'] m IH]; simpl.
  - split; [congruence|tauto].
  - destruct (String.eqb k' k) eqn:E.
    + apply String.eqb_eq in E. split; [auto|discriminate].
    + apply String.eqb_neq in E. rewrite IH. tauto.
Qed.

Lemma Map_get_Some_key m k v : Map_get m k = Some v -> In k (map fst m).
Proof. intros H. apply Map_get_keys. congruence. Qed.

Lemma Map_get_In m k v : Map_get m k = Some v -> In (k, v) m.
Proof.
  induction m as [|[k' v'] m IH]; simpl; [discriminate|].
  destruct (String.eqb k' k) eqn:E.
  - apply String.eqb_eq in E. intros [= ->]. left. now subst.
  - auto.
Qed.

Lemma Map_In_get m k v :
  NoDup (map fst m) -> In (k, v) m -> Map_get m k = Some v.
Proof.
  induction m as [|[k' v'] m IH]; simpl; [tauto|].
  intros ND [E|I].
  - injection E as -> ->. now rewrite String.eqb_refl.
  - inversion ND as [|? ? Hn ND']; subst.
    destruct (String.eqb k' k) eqn:E; [|auto].
    apply String.eqb_eq in E. subst k'. elim Hn.
    change k with (fst (k, v)). now apply in_map.
Qed.

Lemma Map_set_keys m k v :
  forall k', In k' (map fst (Map_set m k v)) <-> k' = k \/ In k' (map fst m).
Proof.
  intros k'. induction m as [|[k0 v0] m IH]; simpl.
  - intuition.
  - destruct (String.eqb k0 k) eqn:E; simpl.
    + apply String.eqb_eq in E. subst k0. intuition.
    + rewrite IH. intuition.
Qed.

Lemma Map_set_NoDup m k v :
  NoDup (map fst m) -> NoDup (map fst (Map_set m k v)).
Proof.
  induction m as [|[k0 v0] m IH]; simpl; intros ND.
  - constructor; [simpl; tauto|constructor].
  - inversion ND as [|? ? Hn ND']; subst.
    destruct (String.eqb k0 k) eqn:E; simpl.
    + now constructor.
    + constructor; [|auto].
      rewrite Map_set_keys. intros [->|I]; [|tauto].
      now rewrite String.eqb_refl in E.
Qed.

End MapFacts.

(* ------------------------------------------------------------------ *)
(** ** The stable sort *)
(* ------------------------------------------------------------------ *)

Section SortFacts.
Import JS.
Local Open Scope Z_scope.
Variable A : Type.
Variable compare : A -> A -> option Z.
Variable key : A -> Z.
Variable good : A -> Prop.
Hypothesis compare_key :
  forall x y, good x -> good y -> compare x y = Some (key x - key y).

Local Abbreviation key_le := (fun x y : A => key x <= key y).

Lemma sort_insert_perm (x : A) (l : list A) :
  Permutation (sort_insert compare x l) (x :: l).
Proof.
  induction l as [|y l IH]; simpl; [reflexivity|].
  destruct (comes_after compare x y); [|reflexivity].
  rewrite IH. apply perm_swap.
Qed.

Lemma Array_sort_perm (l : list A) : Permutation (Array_sort compare l) l.
Proof.
  induction l as [|x l IH]; simpl; [reflexivity|].
  rewrite sort_insert_perm. now constructor.
Qed.

Lemma sort_insert_sorted (x : A) (l : list A) :
  good x -> Forall good l ->
  StronglySorted key_le l -> StronglySorted key_le (sort_insert compare x l).
Proof.
  intros Gx Gl S. induction S as [|y l S IH F]; simpl.
  - repeat constructor.
  - inversion Gl as [|? ? Gy Gl']; subst.
    unfold comes_after. rewrite (compare_key x y Gx Gy).
    destruct (Z.ltb_spec 0 (key x - key y)) as [L|L].
    + constructor; [auto|].
      rewrite (sort_insert_perm x l). constructor; [lia|exact F].
    + constructor; [now constructor|].
      constructor; [lia|].
      eapply Forall_impl; [|exact F]. simpl. intros; lia.
Qed.

Lemma Array_sort_sorted (l : list A) :
  Forall good l -> StronglySorted key_le (Array_sort compare l).
Proof.
  induction l as [|x l IH]; simpl; intros G; [constructor|].
  inversion G; subst.
  apply sort_insert_sorted; auto.
  now rewrite Array_sort_perm.
Qed.

End SortFacts.

Section SortedFacts.
Variables (A B : Type) (R R' : A -> A -> Prop) (f : A -> B).

Lemma StronglySorted_strengthen (l : list A) :
  StronglySorted R l -> NoDup (map f l) ->
  (forall a b, In a l -> In b l -> R a b -> f a <> f b -> R' a b) ->
  StronglySorted R' l.
Proof.
  intros S. induction S as [|a l S IH F]; simpl; intros ND H.
  - constructor.
  - inversion ND as [|? ? Hn ND']; subst. constructor.
    + apply IH; [assumption|]. intros; apply H; simpl; auto.
    + rewrite Forall_forall in *. intros b Ib.
      apply H; simpl; auto.
      intros E. apply Hn. rewrite E. now apply in_map.
Qed.

Lemma StronglySorted_map (S : B -> B -> Prop) (l : list A) :
  StronglySorted (fun a b => S (f a) (f b)) l -> StronglySorted S (map f l).
Proof.
  induction 1 as [|a l _ IH F]; simpl; constructor; trivial.
  rewrite Forall_forall in *. intros b Ib.
  apply in_map_iff in Ib. destruct Ib as (x & <- & Ix). auto.
Qed.

End SortedFacts.

(* ------------------------------------------------------------------ *)
(** ** The tax calculator *)
(* ------------------------------------------------------------------ *)

Section TaxFacts.
Import JS Tax.
Local Open Scope float_scope.

(** [||] keeps a stored rate that is neither zero nor NaN and takes the
    default for a missing one. *)
Lemma or_double_kept (stored : option float) :
  kept_rate stored = true -> or_double stored 10 = spec_rate_default_10 stored.
Proof.
  destruct stored as [r|]; cbn; [|reflexivity].
  intros K. now rewrite K.
Qed.

(** A stored zero is not kept: the default takes its place. *)
Lemma or_double_zero (d : float) :
  or_double (Some 0) d = d /\ or_double (Some (-0)) d = d.
Proof. split; reflexivity. Qed.

(** An unauthenticated caller never gets a breakdown. *)
Lemma serve_requires_user amt ty cs : serve None amt ty cs = Unauthorized.
Proof. reflexivity. Qed.

(** Where [||] keeps the stored rates, the handler computes the breakdown of
    section 4.4 in doubles: each output is the formula's value on the
    unrounded intermediate results, rounded by [Math.round(x * 100) / 100]
    at the end. *)
Lemma breakdown_of_kept_rates
      (amt : float) (ty : TxType) (cs : option CompanySettings)
      (Hvat : kept_rate (settings_vat_rate cs) = true)
      (Hinc : kept_rate (settings_income_tax_rate cs) = true) :
  calculateTax amt ty cs = spec_breakdown amt ty cs.
Proof.
  unfold calculateTax, spec_breakdown, spec_vat, spec_vatRate,
    spec_incomeTaxRate.
  rewrite (or_double_kept _ Hvat), (or_double_kept _ Hinc).
  destruct ty, (is_registered cs); reflexivity.
Qed.

(** The example of section 8: 110 of income, VAT-registered at 10, income
    tax at 10. *)
Lemma breakdown_of_110 :
  calculateTax 110 income standard_settings
  = {| amount := 110; vatAmount := 10; vatRate := 10;
       amountWithoutVat := 100; incomeTaxAmount := Some 10;
       incomeTaxRate := Some 10 |}.
Proof. reflexivity. Qed.

(** The rounding is that of the doubles: 1.45 of income without a settings
    row is taxed [1.45 * 10 / 100], which is just below 0.145 and is
    returned as 0.14. *)
Lemma breakdown_of_1_45 :
  incomeTaxAmount (calculateTax (145 / 100) income None) = Some (14 / 100).
Proof. reflexivity. Qed.

(** C1 at a stored rate of zero.  For a VAT-registered company whose stored
    VAT rate is 0 the handler takes the rate for missing ([0 || 10]) and
    returns vatRate 10, vatAmount 10 and amountWithoutVat 100 for an amount
    of 110, where the rate of the settings, 0, gives vatAmount 0 and
    amountWithoutVat 110 and an income tax of 11.  In the same way a stored
    income tax rate of 0 is replaced by 10: an income of 100 is taxed 10
    instead of 0. *)
Theorem C1_zero_rate_replaced_by_default :
  let r := calculateTax 110 income zero_rated_settings in
  let claimed := spec_breakdown 110 income zero_rated_settings in
  let r' := calculateTax 100 income tax_exempt_settings in
  let claimed' := spec_breakdown 100 income tax_exempt_settings in
  (vatRate r = 10 /\ vatAmount r = 10 /\ amountWithoutVat r = 100
   /\ incomeTaxAmount r = Some 10)
  /\ (vatRate claimed = 0 /\ vatAmount claimed = 0
      /\ amountWithoutVat claimed = 110 /\ incomeTaxAmount claimed = Some 11)
  /\ (incomeTaxRate r' = Some 10 /\ incomeTaxAmount r' = Some 10)
  /\ (incomeTaxRate claimed' = Some 0 /\ incomeTaxAmount claimed' = Some 0).
Proof.
  cbv zeta.
  assert (Hcode : calculateTax 110 income zero_rated_settings
                  = {| amount := 110; vatAmount := 10; vatRate := 10;
                       amountWithoutVat := 100; incomeTaxAmount := Some 10;
                       incomeTaxRate := Some 10 |}) by reflexivity.
  assert (Hspec : spec_breakdown 110 income zero_rated_settings
                  = {| amount := 110; vatAmount := 0; vatRate := 0;
                       amountWithoutVat := 110; incomeTaxAmount := Some 11;
                       incomeTaxRate := Some 10 |}) by reflexivity.
  assert (Hcode' : calculateTax 100 income tax_exempt_settings
                   = {| amount := 100; vatAmount := 0; vatRate := 0;
                        amountWithoutVat := 100; incomeTaxAmount := Some 10;
                        incomeTaxRate := Some 10 |}) by reflexivity.
  assert (Hspec' : spec_breakdown 100 income tax_exempt_settings
                   = {| amount := 100; vatAmount := 0; vatRate := 0;
                        amountWithoutVat := 100; incomeTaxAmount := Some 0;
                        incomeTaxRate := Some 0 |}) by reflexivity.
  rewrite Hcode, Hspec, Hcode', Hspec'. cbn.
  repeat split.
Qed.

End TaxFacts.

(* ------------------------------------------------------------------ *)
(** ** The calendar *)
(* ------------------------------------------------------------------ *)

Section CalendarFacts.
Import JSDate.
Local Open Scope Z_scope.

Lemma month_number_range (m : Month) : 1 <= month_number m <= 12.
Proof. destruct m; simpl; lia. Qed.

Lemma month_number_inj (a b : Month) :
  month_number a = month_number b -> a = b.
Proof. destruct a, b; simpl; intros H; try reflexivity; discriminate. Qed.

Lemma Month_eqb_eq (a b : Month) : Month_eqb a b = true <-> a = b.
Proof.
  unfold Month_eqb. rewrite Z.eqb_eq. split.
  - apply month_number_inj.
  - now intros ->.
Qed.

(** Month starts are strictly increasing in (year, month). *)
Lemma month_start_lt (y1 m1 y2 m2 : Z) :
  1 <= m1 <= 12 -> 1 <= m2 <= 12 ->
  y1 < y2 \/ (y1 = y2 /\ m1 < m2) ->
  days_from_civil y1 m1 1 < days_from_civil y2 m2 1.
Proof.
  intros H1 H2 H. unfold days_from_civil.
  destruct (Z.leb_spec m1 2), (Z.leb_spec m2 2);
    Z.div_mod_to_equations; lia.
Qed.

Lemma days_from_civil_day (y m d : Z) :
  days_from_civil y m d = days_from_civil y m 1 + (d - 1).
Proof. unfold days_from_civil. lia. Qed.

Ltac eval_closed_tests :=
  repeat match goal with
         | |- context [Z.leb ?a ?b] =>
             let v := eval vm_compute in (Z.leb a b) in
             change (Z.leb a b) with v
         end; cbv iota.

(** From one month start to the next there are exactly the days the
    calendar gives the month, leap years included. *)
Lemma month_length (y : Z) (m : Month) :
  days_from_civil y (month_number m) 1 + days_in_month y m =
  match m with
  | Dec => days_from_civil (y + 1) 1 1
  | _ => days_from_civil y (month_number m + 1) 1
  end.
Proof.
  unfold days_in_month, is_leap, days_from_civil.
  destruct m; cbn [month_number]; eval_closed_tests;
    try (Z.div_mod_to_equations; lia).
  destruct (Z.eqb_spec (y mod 4) 0), (Z.eqb_spec (y mod 100) 0),
    (Z.eqb_spec (y mod 400) 0); cbn [andb orb negb];
    Z.div_mod_to_equations; lia.
Qed.

(** A valid date lies before the start of the next month. *)
Lemma before_next_month (y : Z) (m : Month) (d y2 m2 : Z) :
  1 <= d <= days_in_month y m -> 1 <= m2 <= 12 ->
  y < y2 \/ (y = y2 /\ month_number m < m2) ->
  days_from_civil y (month_number m) d < days_from_civil y2 m2 1.
Proof.
  intros Hd Hm2 H.
  pose proof (month_length y m) as L.
  pose proof (month_number_range m) as R.
  rewrite (days_from_civil_day y (month_number m) d).
  assert (N : match m with
              | Dec => days_from_civil (y + 1) 1 1
              | _ => days_from_civil y (month_number m + 1) 1
              end <= days_from_civil y2 m2 1).
  { destruct (Z.eq_dec (month_number m) 12) as [E|E].
    - assert (m = Dec) by (apply month_number_inj; exact E). subst m.
      destruct H as [H|[_ H]]; [|simpl in H; lia].
      destruct (Z.eq_dec (y + 1) y2) as [<-|];
        [destruct (Z.eq_dec m2 1) as [->|]; [lia|]|];
        apply Z.lt_le_incl, month_start_lt; lia.
    - assert (M : match m with
                  | Dec => days_from_civil (y + 1) 1 1
                  | _ => days_from_civil y (month_number m + 1) 1
                  end = days_from_civil y (month_number m + 1) 1).
      { destruct m; try reflexivity. now elim E. }
      rewrite M.
      destruct H as [H|[<- H]].
      + apply Z.lt_le_incl, month_start_lt; lia.
      + destruct (Z.eq_dec (month_number m + 1) m2) as [<-|]; [lia|].
        apply Z.lt_le_incl, month_start_lt; lia. }
  lia.
Qed.

(** On valid dates the order of timestamps is the order of the calendar. *)
Lemma getTime_leb_date_leb (a b : Date) :
  valid_date a -> valid_date b ->
  (getTime a <=? getTime b) = date_leb a b.
Proof.
  intros Va Vb. unfold getTime, date_leb, msPerDay.
  pose proof (month_number_range (month a)) as Ra.
  pose proof (month_number_range (month b)) as Rb.
  destruct a as [ya ma da], b as [yb mb db]; unfold valid_date in *;
    cbn [year month day] in *.
  destruct (Z.ltb_spec ya yb) as [Hy|Hy]; cbn [orb].
  - apply Z.leb_le.
    pose proof (before_next_month ya ma da yb (month_number mb)) as B.
    pose proof (days_from_civil_day yb (month_number mb) db). lia.
  - destruct (Z.eqb_spec ya yb) as [->|Hne]; cbn [andb].
    + destruct (Z.ltb_spec (month_number ma) (month_number mb)) as [Hm|Hm];
        cbn [orb].
      * apply Z.leb_le.
        pose proof (before_next_month yb ma da yb (month_number mb)) as B.
        pose proof (days_from_civil_day yb (month_number mb) db). lia.
      * destruct (Z.eqb_spec (month_number ma) (month_number mb)) as [E|E];
          cbn [andb].
        -- rewrite E.
           rewrite (days_from_civil_day yb (month_number mb) da).
           rewrite (days_from_civil_day yb (month_number mb) db).
           destruct (Z.leb_spec da db); [apply Z.leb_le|apply Z.leb_gt]; lia.
        -- apply Z.leb_gt.
           pose proof (before_next_month yb mb db yb (month_number ma)) as B.
           pose proof (days_from_civil_day yb (month_number ma) da). lia.
    + apply Z.leb_gt.
      pose proof (before_next_month yb mb db ya (month_number ma)) as B.
      pose proof (days_from_civil_day ya (month_number ma) da). lia.
Qed.

End CalendarFacts.

(* ------------------------------------------------------------------ *)
(** ** Reporting aggregator: totals *)
(* ------------------------------------------------------------------ *)

Section TotalsFacts.
Import JS JSDate Reports.
Local Open Scope Qc_scope.

Lemma num_0 : num 0 = 0.
Proof. reflexivity. Qed.

Ltac qc_ring := rewrite ?num_0; ring.

Lemma sum_amounts_app (l1 l2 : list Transaction) :
  sum_amounts (l1 ++ l2) = sum_amounts l1 + sum_amounts l2.
Proof.
  induction l1 as [|t l1 IH]; simpl.
  - qc_ring.
  - rewrite IH. qc_ring.
Qed.

(** [reduce] from the left adds up the same amounts. *)
Lemma reduce_sum (l : list Transaction) (acc : number) :
  fold_left (fun sum t => sum + tx_amount t) l acc = acc + sum_amounts l.
Proof.
  revert acc. induction l as [|t l IH]; intros acc; simpl.
  - qc_ring.
  - rewrite IH. qc_ring.
Qed.

Lemma total_of_sum (ty : TxType) (l : list Transaction) :
  total_of ty l = sum_amounts (filter (of_type ty) l).
Proof.
  unfold total_of. rewrite reduce_sum, num_0.
  change (fun t => TxType_eqb (tx_type t) ty) with (of_type ty). qc_ring.
Qed.

Lemma filter_filter (A : Type) (f g : A -> bool) (l : list A) :
  filter f (filter g l) = filter (fun x => f x && g x) l.
Proof.
  induction l as [|x l IH]; simpl; trivial.
  destruct (g x); simpl; rewrite ?andb_true_r, ?andb_false_r.
  - destruct (f x); now rewrite IH.
  - exact IH.
Qed.

Lemma filter_ext_Forall (A : Type) (P : A -> Prop) (f g : A -> bool)
      (l : list A) :
  Forall P l -> (forall x, P x -> f x = g x) -> filter f l = filter g l.
Proof.
  intros H E. induction H as [|x l Hx _ IH]; simpl; trivial.
  rewrite (E x Hx), IH. reflexivity.
Qed.

(** The range test of the code is the calendar's on valid dates. *)
Lemma in_range_date_between (s e : Date) (t : Transaction) :
  valid_date s -> valid_date e -> valid_date (tx_date t) ->
  in_range s e t = date_between s e t.
Proof.
  intros Vs Ve Vt. unfold in_range, date_between.
  now rewrite !getTime_leb_date_leb.
Qed.

(** The totals of the report over timestamps, without any assumption. *)
Lemma totals_by_timestamp (txs : list Transaction) (s e : Date) :
  let r := generateReportData txs s e in
  totalIncome r
  = sum_amounts (filter (fun t => of_type income t && in_range s e t) txs)
  /\ totalExpenses r
     = sum_amounts (filter (fun t => of_type expense t && in_range s e t) txs)
  /\ netBalance r = totalIncome r - totalExpenses r.
Proof.
  cbn. unfold filteredTransactions.
  rewrite !total_of_sum, !filter_filter. repeat split.
Qed.

(** C2: for every transaction collection of valid calendar dates and every
    valid inclusive start and end date, totalIncome is the sum of the
    amounts of the income transactions dated within the range,
    totalExpenses likewise for expenses, and netBalance = totalIncome -
    totalExpenses. *)
Theorem C2_report_totals (txs : list Transaction) (s e : Date)
        (Hs : valid_date s) (He : valid_date e)
        (Htx : Forall (fun t => valid_date (tx_date t)) txs) :
  let r := generateReportData txs s e in
  totalIncome r = spec_total income txs s e
  /\ totalExpenses r = spec_total expense txs s e
  /\ netBalance r = totalIncome r - totalExpenses r.
Proof.
  destruct (totals_by_timestamp txs s e) as (Hi & Hx & Hn).
  cbv zeta. rewrite Hn, Hi, Hx. unfold spec_total.
  repeat split; f_equal;
    apply filter_ext_Forall with (P := fun t => valid_date (tx_date t));
    trivial; intros t Vt; now rewrite in_range_date_between.
Qed.

(** The ledger of section 8 filtered to January 2024: totalIncome 100,
    totalExpenses 40, netBalance 60. *)
Lemma C2_example_january_2024 :
  let r := generateReportData ledger_2024 (fst january_2024)
                              (snd january_2024) in
  totalIncome r = num 100 /\ totalExpenses r = num 40
  /\ netBalance r = num 60.
Proof.
  assert (Hs : valid_date (fst january_2024)) by (vm_compute; intuition discriminate).
  assert (He : valid_date (snd january_2024)) by (vm_compute; intuition discriminate).
  assert (Htx : Forall (fun t => valid_date (tx_date t)) ledger_2024).
  { repeat constructor; vm_compute; intuition discriminate. }
  destruct (C2_report_totals ledger_2024 (fst january_2024)
              (snd january_2024) Hs He Htx) as (Hi & Hx & Hn).
  cbv zeta. rewrite Hn, Hi, Hx.
  repeat split; apply Qc_is_canon; reflexivity.
Defined.

(** The same ledger and range: the trend is the single row of January. *)
Lemma trend_example_january_2024 :
  map (fun row => (md_month row, md_income row, md_expenses row, md_profit row))
      (monthlyData (generateReportData ledger_2024 (fst january_2024)
                                       (snd january_2024)))
  = [("Jan 2024"%string, num 100, num 40, num 60)].
Proof.
  cbn. repeat f_equal; apply Qc_is_canon; reflexivity.
Qed.

End TotalsFacts.

(* ------------------------------------------------------------------ *)
(** ** Month labels *)
(* ------------------------------------------------------------------ *)

Section LabelFacts.
Import JSDate.
Local Open Scope Z_scope.

(** A label reads back as the month it was made from. *)
Lemma parse_month_label (ym : Z * Month) :
  0 <= fst ym -> parse_month_year (month_label ym) = Some ym.
Proof.
  destruct ym as [y m]. cbn [fst snd]. intros Hy.
  unfold month_label, year_digits. cbn [fst snd].
  destruct m; cbn -[NilEmpty.uint_of_string NilEmpty.string_of_uint N.to_uint
                    N.of_uint Z.of_N Z.to_N];
    rewrite NilEmpty.usu, Unsigned.of_to, Z2N.id by assumption; reflexivity.
Qed.

Lemma month_label_inj (a b : Z * Month) :
  0 <= fst a -> 0 <= fst b -> month_label a = month_label b -> a = b.
Proof.
  intros Ha Hb E.
  apply parse_month_label in Ha, Hb. rewrite E in Ha. congruence.
Qed.

(** A label with a year of three digits or more is read back as the first
    day of its month. *)
Lemma getTime_of_month_label (ym : Z * Month) :
  100 <= fst ym ->
  getTime_of_label (month_label ym)
  = Some (msPerDay * days_from_civil (fst ym) (month_number (snd ym)) 1).
Proof.
  intros Hy. unfold getTime_of_label.
  rewrite parse_month_label by lia.
  destruct ym as [y m]. cbn [fst snd] in *.
  replace ((1 <=? y) && (y <=? 31))%bool with false
    by (symmetry; apply andb_false_iff; right; apply Z.leb_gt; lia).
  replace (y <=? 49) with false by (symmetry; apply Z.leb_gt; lia).
  replace (y <=? 99) with false by (symmetry; apply Z.leb_gt; lia).
  reflexivity.
Qed.

(** A label with a year below 100 is not: the number is read as a day of
    2001 or as a year of the twentieth or twenty-first century. *)
Lemma getTime_of_short_label (y : Z) (m : Month) :
  0 <= y <= 99 ->
  getTime_of_label (month_label (y, m))
  = Some (msPerDay
          * if (1 <=? y) && (y <=? 31)
            then days_from_civil 2001 (month_number m) y
            else days_from_civil ((if y <=? 49 then 2000 else 1900) + y)
                                 (month_number m) 1).
Proof.
  intros Hy. unfold getTime_of_label.
  rewrite parse_month_label by (cbn; lia).
  destruct ((1 <=? y) && (y <=? 31))%bool; [reflexivity|].
  destruct (y <=? 49) eqn:E49; [reflexivity|].
  replace (y <=? 99) with true by (symmetry; apply Z.leb_le; lia).
  reflexivity.
Qed.

(** Trichotomy of calendar months. *)
Lemma month_lt_trichotomy (a b : Z * Month) :
  month_lt a b \/ a = b \/ month_lt b a.
Proof.
  destruct a as [ya ma], b as [yb mb]. unfold month_lt. cbn [fst snd].
  destruct (Z.lt_trichotomy ya yb) as [H|[H|H]]; [auto| |auto].
  destruct (Z.lt_trichotomy (month_number ma) (month_number mb)) as [M|[M|M]].
  - auto.
  - right; left. apply month_number_inj in M. now subst.
  - right; right. right. split; [now symmetry | exact M].
Qed.

(** The first day of an earlier month has an earlier timestamp. *)
Lemma month_lt_start (a b : Z * Month) :
  month_lt a b ->
  msPerDay * days_from_civil (fst a) (month_number (snd a)) 1
  < msPerDay * days_from_civil (fst b) (month_number (snd b)) 1.
Proof.
  intros H. unfold msPerDay.
  pose proof (month_number_range (snd a)).
  pose proof (month_number_range (snd b)).
  pose proof (month_start_lt (fst a) (month_number (snd a))
                (fst b) (month_number (snd b))) as L.
  unfold month_lt in H. lia.
Qed.

End LabelFacts.

(* ------------------------------------------------------------------ *)
(** ** Reporting aggregator: monthly trend *)
(* ------------------------------------------------------------------ *)

Section MonthlyFacts.
Import JS JSDate Reports.
Local Open Scope Qc_scope.

Ltac qc_ring := rewrite ?num_0; ring.

Lemma in_month_eq (ym : Z * Month) (t : Transaction) :
  in_month ym t = true <-> month_of t = ym.
Proof.
  unfold in_month. rewrite andb_true_iff, Z.eqb_eq, Month_eqb_eq.
  destruct (month_of t), ym; cbn [fst snd]. split.
  - now intros [-> ->].
  - now intros [= -> ->].
Qed.

Lemma in_month_neq (ym : Z * Month) (t : Transaction) :
  month_of t <> ym -> in_month ym t = false.
Proof.
  intros N. destruct (in_month ym t) eqn:E; trivial.
  apply in_month_eq in E. contradiction.
Qed.

Lemma filter_none (A : Type) (f : A -> bool) (l : list A) :
  (forall x, In x l -> f x = false) -> filter f l = [].
Proof.
  induction l as [|x l IH]; simpl; intros H; trivial.
  rewrite (H x) by auto. apply IH. auto.
Qed.

Lemma month_total_snoc (ty : TxType) (ym : Z * Month)
      (l : list Transaction) (t : Transaction) :
  month_total ty ym (l ++ [t])
  = month_total ty ym l
    + (if of_type ty t && in_month ym t then tx_amount t else 0).
Proof.
  unfold month_total. rewrite filter_app, sum_amounts_app. simpl.
  destruct (of_type ty t && in_month ym t); simpl; qc_ring.
Qed.

Lemma month_total_none (ty : TxType) (ym : Z * Month) (l : list Transaction) :
  (forall t, In t l -> month_of t <> ym) -> month_total ty ym l = 0.
Proof.
  intros H. unfold month_total. rewrite filter_none; [reflexivity|].
  intros t I. rewrite (in_month_neq ym t (H t I)). apply andb_false_r.
Qed.

Lemma of_type_income (t : Transaction) :
  of_type income t = match tx_type t with income => true | expense => false end.
Proof. unfold of_type. now destruct (tx_type t). Qed.

Lemma of_type_expense (t : Transaction) :
  of_type expense t = match tx_type t with income => false | expense => true end.
Proof. unfold of_type. now destruct (tx_type t). Qed.

(** The cell of a month after one more transaction of that month. *)
Lemma month_cell_snoc_same (l : list Transaction) (t : Transaction) :
  month_cell (month_of t) (l ++ [t])
  = let '(inc, exp, _) := month_cell (month_of t) l in
    let '(inc', exp') :=
      match tx_type t with
      | income => (inc + tx_amount t, exp)
      | expense => (inc, exp + tx_amount t)
      end in
    (inc', exp', inc' - exp').
Proof.
  unfold month_cell. rewrite !month_total_snoc.
  assert (M : in_month (month_of t) t = true) by now apply in_month_eq.
  rewrite M, of_type_income, of_type_expense.
  destruct (tx_type t); cbn [andb]; repeat f_equal; qc_ring.
Qed.

Lemma month_cell_snoc_other (ym : Z * Month) (l : list Transaction)
      (t : Transaction) :
  month_of t <> ym -> month_cell ym (l ++ [t]) = month_cell ym l.
Proof.
  intros N. unfold month_cell. rewrite !month_total_snoc.
  rewrite (in_month_neq ym t N), !andb_false_r. repeat f_equal; qc_ring.
Qed.

Lemma month_cell_none (ym : Z * Month) (l : list Transaction) :
  (forall t, In t l -> month_of t <> ym) -> month_cell ym l = (0, 0, 0 - 0).
Proof.
  intros H. unfold month_cell. now rewrite !month_total_none.
Qed.

Lemma same_label_same_month (t t' : Transaction) :
  year_ok t -> year_ok t' ->
  month_label (month_of t) = month_label (month_of t') ->
  month_of t = month_of t'.
Proof.
  unfold year_ok, month_of. intros H H'.
  apply month_label_inj; cbn [fst]; lia.
Qed.

Lemma monthly_step_inv (l : list Transaction) (m : Map MonthCell)
      (t0 : Transaction) :
  Forall year_ok l -> year_ok t0 ->
  monthly_inv l m -> monthly_inv (l ++ [t0]) (monthly_step m t0).
Proof.
  intros Yl Y0 (ND & Hkeys & Hget).
  rewrite Forall_forall in Yl.
  unfold monthly_step.
  change (toLocaleDateString_month_year (tx_date t0))
    with (month_label (month_of t0)).
  set (k0 := month_label (month_of t0)).
  (* the cell written for [t0]'s month is the month's cell *)
  assert (Hcell :
    (let '(inc, exp, _) :=
       match Map_get m k0 with
       | Some cell => cell
       | None => (num 0, num 0, num 0)
       end in
     let '(inc', exp') :=
       match tx_type t0 with
       | income => (inc + tx_amount t0, exp)
       | expense => (inc, exp + tx_amount t0)
       end in
     (inc', exp', inc' - exp'))
    = month_cell (month_of t0) (l ++ [t0])).
  { rewrite month_cell_snoc_same.
    destruct (Map_get m k0) as [cell|] eqn:G.
    - destruct (Hkeys k0 (Map_get_Some_key _ _ _ _ G)) as (t & It & Et).
      assert (Em : month_of t = month_of t0).
      { apply same_label_same_month; auto. }
      pose proof (Hget t It) as Gt. rewrite <- Et, G, Em in Gt.
      injection Gt as ->. reflexivity.
    - rewrite month_cell_none.
      + rewrite !num_0. destruct (tx_type t0); repeat f_equal; ring.
      + intros t It Em. pose proof (Hget t It) as Gt.
        rewrite Em in Gt. fold k0 in Gt. congruence. }
  set (cell0 := match Map_get m k0 with
                | Some cell => cell
                | None => (num 0, num 0, num 0)
                end) in *.
  destruct cell0 as [[inc exp] prof].
  destruct (match tx_type t0 with
            | income => (inc + tx_amount t0, exp)
            | expense => (inc, exp + tx_amount t0)
            end) as [inc' exp'] eqn:Estep.
  split; [|split].
  - now apply Map_set_NoDup.
  - intros k Ik. apply Map_set_keys in Ik. destruct Ik as [->|Ik].
    + exists t0. split; [apply in_or_app; simpl; auto|reflexivity].
    + destruct (Hkeys k Ik) as (t & It & Et).
      exists t. split; [apply in_or_app; auto|exact Et].
  - intros t It.
    destruct (string_dec k0 (month_label (month_of t))) as [E|N].
    + rewrite <- E, Map_get_set_same. f_equal.
      assert (Y : year_ok t).
      { apply in_app_or in It. destruct It as [It|[<-|[]]]; auto. }
      assert (Em : month_of t0 = month_of t)
        by (apply same_label_same_month; auto).
      rewrite <- Em. exact Hcell.
    + rewrite Map_get_set_other by exact N.
      apply in_app_or in It. destruct It as [It|[<-|[]]].
      * rewrite (Hget t It). f_equal. symmetry.
        apply month_cell_snoc_other. intros Em. apply N.
        unfold k0. now rewrite Em.
      * now elim N.
Qed.

Lemma monthly_fold_inv (l done : list Transaction) (m : Map MonthCell) :
  Forall year_ok (done ++ l) ->
  monthly_inv done m ->
  monthly_inv (done ++ l) (fold_left monthly_step l m).
Proof.
  revert done m. induction l as [|t l IH]; intros done m Y I; simpl.
  - now rewrite app_nil_r.
  - replace (done ++ t :: l) with ((done ++ [t]) ++ l) in *
      by (rewrite <- app_assoc; reflexivity).
    apply IH; [exact Y|].
    apply Forall_app in Y. destruct Y as [Y _].
    apply Forall_app in Y. destruct Y as [Yd Yt].
    inversion Yt; subst. now apply monthly_step_inv.
Qed.

Lemma monthly_inv_empty : monthly_inv [] (Map_empty MonthCell).
Proof.
  split; [constructor|]. split; simpl; intros; contradiction.
Qed.

Lemma monthly_rows_labels (m : Map MonthCell) :
  map md_month (monthly_rows m) = map fst m.
Proof.
  unfold monthly_rows, Map_entries. rewrite map_map.
  apply map_ext. intros [k [[inc exp] prof]]. reflexivity.
Qed.

Lemma row_month_label (row : MonthlyData) (ym : Z * Month) :
  (100 <= fst ym)%Z -> md_month row = month_label ym -> row_month row = ym.
Proof.
  intros Hy E. unfold row_month. rewrite E, parse_month_label; [easy|lia].
Qed.

(** The rows of a map that satisfies the invariant. *)
Lemma monthly_rows_spec (l : list Transaction) (m : Map MonthCell) :
  Forall year_ok l -> monthly_inv l m ->
  NoDup (map md_month (monthly_rows m))
  /\ Forall (fun row =>
               labelled_row row
               /\ (exists t, In t l /\ month_of t = row_month row)
               /\ row_for_month l row (row_month row))
            (monthly_rows m)
  /\ (forall t, In t l ->
                exists row, In row (monthly_rows m)
                            /\ row_month row = month_of t).
Proof.
  intros Y (ND & Hkeys & Hget). rewrite Forall_forall in Y.
  split; [now rewrite monthly_rows_labels|]. split.
  - rewrite Forall_forall. intros row Ir.
    unfold monthly_rows, Map_entries in Ir. apply in_map_iff in Ir.
    destruct Ir as ([k [[inc exp] prof]] & <- & Ie). cbn [fst snd].
    destruct (Hkeys k) as (t & It & Ek).
    { change k with (fst (k, (inc, exp, prof))). now apply in_map. }
    pose proof (Map_In_get _ _ _ _ ND Ie) as G.
    rewrite Ek, (Hget t It) in G. injection G as <- <- <-.
    assert (Er : row_month
                   {| md_month := k;
                      md_income := month_total income (month_of t) l;
                      md_expenses := month_total expense (month_of t) l;
                      md_profit := month_total income (month_of t) l
                                   - month_total expense (month_of t) l |}
                 = month_of t).
    { apply row_month_label; [apply (Y t It)|exact Ek]. }
    rewrite Er. split; [|split].
    + exists (month_of t). split; [apply (Y t It)|exact Ek].
    + now exists t.
    + repeat split. exact Ek.
  - intros t It. pose proof (Map_get_In _ _ _ _ (Hget t It)) as Ie.
    exists (let '(inc, exp, prof) := month_cell (month_of t) l in
            {| md_month := month_label (month_of t);
               md_income := inc; md_expenses := exp; md_profit := prof |}).
    split.
    + unfold monthly_rows, Map_entries. apply in_map_iff.
      now exists (month_label (month_of t), month_cell (month_of t) l).
    + unfold month_cell. apply row_month_label; [apply (Y t It)|reflexivity].
Qed.

Lemma compare_months_key (a b : MonthlyData) :
  labelled_row a -> labelled_row b ->
  compare_months a b = Some (row_key a - row_key b)%Z.
Proof.
  intros (ya & Ha & Ea) (yb & Hb & Eb). unfold compare_months, row_key.
  now rewrite Ea, Eb, !getTime_of_month_label.
Qed.

Lemma row_key_label (row : MonthlyData) (ym : Z * Month) :
  (100 <= fst ym)%Z -> md_month row = month_label ym ->
  row_key row
  = (msPerDay * days_from_civil (fst ym) (month_number (snd ym)) 1)%Z.
Proof.
  intros Hy E. unfold row_key. now rewrite E, getTime_of_month_label.
Qed.

(** Rows in timestamp order with distinct labels are in calendar order. *)
Lemma key_order_is_month_order (a b : MonthlyData) :
  labelled_row a -> labelled_row b ->
  (row_key a <= row_key b)%Z -> md_month a <> md_month b ->
  month_lt (row_month a) (row_month b).
Proof.
  intros (ya & Ha & Ea) (yb & Hb & Eb) K N.
  rewrite (row_month_label a ya Ha Ea), (row_month_label b yb Hb Eb).
  rewrite (row_key_label a ya Ha Ea), (row_key_label b yb Hb Eb) in K.
  destruct (month_lt_trichotomy ya yb) as [L|[E|L]]; trivial.
  - elim N. now rewrite Ea, Eb, E.
  - apply month_lt_start in L. lia.
Qed.

Lemma Forall_Forall2_map (A B : Type) (P : A -> B -> Prop) (f : A -> B)
      (l : list A) :
  Forall (fun x => P x (f x)) l -> Forall2 P l (map f l).
Proof. induction 1; simpl; constructor; trivial. Qed.

Lemma month_lt_irrefl (a : Z * Month) : ~ month_lt a a.
Proof. unfold month_lt. lia. Qed.

Lemma StronglySorted_month_lt_NoDup (l : list (Z * Month)) :
  StronglySorted month_lt l -> NoDup l.
Proof.
  induction 1 as [|a l _ IH F]; constructor; trivial.
  intros I. rewrite Forall_forall in F.
  apply (month_lt_irrefl a (F a I)).
Qed.

(** The trend of any ledger whose filtered transactions are of the year 100
    or later: one row per calendar month of the filtered set, with that
    month's sums, in calendar order. *)
Lemma monthly_trend_spec (txs : list Transaction) (s e : Date) :
  let F := filteredTransactions txs s e in
  let trend := monthlyData (generateReportData txs s e) in
  Forall year_ok F ->
  Forall2 (row_for_month F) trend (map row_month trend)
  /\ (forall ym, In ym (map row_month trend)
                 <-> exists t, In t F /\ month_of t = ym)
  /\ StronglySorted month_lt (map row_month trend).
Proof.
  intros F trend Y.
  set (m := fold_left monthly_step F (Map_empty MonthCell)).
  assert (I : monthly_inv F m).
  { apply (monthly_fold_inv F [] (Map_empty MonthCell)); [exact Y|].
    apply monthly_inv_empty. }
  destruct (monthly_rows_spec F m Y I) as (ND & Hrows & Hall).
  assert (P : Permutation trend (monthly_rows m))
    by apply Array_sort_perm.
  assert (Ht : Forall (fun row =>
               labelled_row row
               /\ (exists t, In t F /\ month_of t = row_month row)
               /\ row_for_month F row (row_month row)) trend).
  { rewrite Forall_forall in *. intros row Ir. apply Hrows.
    eapply Permutation_in; eassumption. }
  split; [|split].
  - apply Forall_Forall2_map. eapply Forall_impl; [|exact Ht].
    simpl. tauto.
  - intros ym. rewrite in_map_iff. split.
    + intros (row & <- & Ir). rewrite Forall_forall in Ht.
      destruct (Ht row Ir) as (_ & Hex & _). exact Hex.
    + intros (t & It & <-). destruct (Hall t It) as (row & Ir & Er).
      exists row. split; [exact Er|].
      eapply Permutation_in; [symmetry|]; eassumption.
  - apply StronglySorted_map.
    apply StronglySorted_strengthen
      with (R := fun x y => (row_key x <= row_key y)%Z) (f := md_month).
    + apply Array_sort_sorted with (good := labelled_row).
      * apply compare_months_key.
      * eapply Forall_impl; [|exact Hrows]. simpl. tauto.
    + eapply Permutation_NoDup; [|exact ND].
      apply Permutation_map. now symmetry.
    + rewrite Forall_forall in Ht. intros a b Ia Ib K N.
      apply key_order_is_month_order; trivial; now apply Ht.
Qed.

Lemma four_digit_year_ok (l : list Transaction) :
  Forall four_digit_year l -> Forall year_ok l.
Proof.
  apply Forall_impl. unfold four_digit_year, year_ok. intros; lia.
Qed.

(** The same for four-digit years, with the months listed. *)
Lemma trend_of_four_digit_years (txs : list Transaction) (s e : Date)
      (Hy : Forall four_digit_year (filteredTransactions txs s e)) :
  let F := filteredTransactions txs s e in
  let trend := monthlyData (generateReportData txs s e) in
  exists months : list (Z * Month),
    Forall2 (row_for_month F) trend months
    /\ NoDup months
    /\ (forall ym, In ym months <-> exists t, In t F /\ month_of t = ym)
    /\ StronglySorted month_lt months.
Proof.
  intros F trend.
  destruct (monthly_trend_spec txs s e (four_digit_year_ok _ Hy))
    as (H1 & H2 & H3).
  exists (map row_month trend). repeat split; trivial.
  - now apply StronglySorted_month_lt_NoDup.
  - now apply H2.
  - now apply H2.
Qed.

(** A ledger across the year end: the rows come out as Feb 2024, Apr 2024,
    Dec 2024, Jan 2025, so "Jan 2025" is after "Dec 2024" and "Apr 2024" is
    after "Feb 2024", against the spelling of the labels. *)
Lemma trend_across_year_end :
  let s := mkDate 2024 Jan 1 in
  let e := mkDate 2025 Dec 31 in
  map md_month (monthlyData (generateReportData ledger_year_end s e))
  = ["Feb 2024"; "Apr 2024"; "Dec 2024"; "Jan 2025"]%string.
Proof. reflexivity. Qed.

(** C3 on a ledger of early years.  The ledger holds an income dated
    0050-07-15 and an expense dated 0999-03-15, both within the range.  The
    trend has one row for each of the two months with that month's sums,
    but the row of March 999 comes before the row of July 50: the sort
    reads the labels back, and the label "Jul 50" is read as July 1950. *)
Theorem C3_early_years_out_of_order :
  let s := mkDate 1 Jan 1 in
  let e := mkDate 2024 Dec 31 in
  let F := filteredTransactions ledger_early_years s e in
  let trend := monthlyData (generateReportData ledger_early_years s e) in
  F = ledger_early_years
  /\ map md_month trend = ["Mar 999"; "Jul 50"]%string
  /\ Forall2 (row_for_month F) trend [(999%Z, Mar); (50%Z, Jul)]
  /\ month_lt (50%Z, Jul) (999%Z, Mar)
  /\ getTime_of_label "Mar 999" = Some (getTime (mkDate 999 Mar 1))
  /\ getTime_of_label "Jul 50" = Some (getTime (mkDate 1950 Jul 1)).
Proof.
  cbv zeta.
  assert (HF : filteredTransactions ledger_early_years (mkDate 1 Jan 1)
                                    (mkDate 2024 Dec 31)
               = ledger_early_years) by reflexivity.
  rewrite HF.
  split; [reflexivity|]. split; [reflexivity|]. split.
  - cbn. repeat constructor; cbn; apply Qc_is_canon; reflexivity.
  - split; [left; cbn; lia|]. split; reflexivity.
Qed.

End MonthlyFacts.

(* ------------------------------------------------------------------ *)
(** ** Reporting aggregator: category breakdowns *)
(* ------------------------------------------------------------------ *)

Section CategoryFacts.
Import JS JSDate Reports.
Local Open Scope Qc_scope.

Ltac qc_ring := rewrite ?num_0; ring.

(** [existing?.value || 0] is the value, zero when there is none. *)
Lemma or_num_zero_default (o : option Qc) :
  or_num o (num 0) = match o with Some v => v | None => 0 end.
Proof.
  destruct o as [v|]; simpl; trivial. unfold truthy_num.
  destruct (Qc_eq_bool v 0) eqn:E; simpl; trivial.
  apply Qc_eq_bool_correct in E. now subst.
Qed.

(** One iteration, by the label and the colour of the transaction. *)
Lemma category_step_bucket (maps : Map Bucket * Map Bucket)
      (t : Transaction) :
  category_step maps t
  = match bucket_label t with
    | Some k =>
        match tx_type t with
        | income => (add_to_bucket (fst maps) k t (bucket_color t), snd maps)
        | expense => (fst maps, add_to_bucket (snd maps) k t (bucket_color t))
        end
    | None => maps
    end.
Proof.
  unfold category_step, bucket_label, bucket_color, has_reference.
  destruct (tx_categories t) as [c|]; simpl.
  - reflexivity.
  - destruct (truthy_opt_str (tx_category_id t)), (tx_type t); reflexivity.
Qed.

Lemma last_color_snoc (l : list Transaction) (t : Transaction) (d : string) :
  last_color (l ++ [t]) d = bucket_color t.
Proof. revert d. induction l as [|x l IH]; intros d; simpl; auto. Qed.

Lemma last_color_uniform (l : list Transaction) (c : string) :
  l <> [] -> Forall (fun t => bucket_color t = c) l ->
  forall d, last_color l d = c.
Proof.
  induction l as [|x l IH]; [congruence|]. intros _ F d.
  inversion F as [|? ? Hx Hl]; subst. simpl.
  destruct l as [|y l]; [reflexivity|]. apply IH; [discriminate|exact Hl].
Qed.

Lemma snoc_not_nil (A : Type) (l : list A) (x : A) : l ++ [x] <> [].
Proof. destruct l; discriminate. Qed.

Lemma in_bucket_label (ty : TxType) (k : string) (t : Transaction) :
  in_bucket ty k t = true <-> tx_type t = ty /\ bucket_label t = Some k.
Proof.
  unfold in_bucket, of_type. rewrite andb_true_iff. split.
  - intros [Ht Hk]. split.
    + destruct (tx_type t), ty; trivial; discriminate.
    + destruct (bucket_label t) as [k'|]; [|discriminate].
      apply String.eqb_eq in Hk. now subst.
  - intros [<- ->]. split; [now destruct (tx_type t)|apply String.eqb_refl].
Qed.

Lemma in_bucket_false (ty : TxType) (k : string) (t : Transaction) :
  ~ (tx_type t = ty /\ bucket_label t = Some k) -> in_bucket ty k t = false.
Proof.
  intros N. destruct (in_bucket ty k t) eqn:E; trivial.
  apply in_bucket_label in E. contradiction.
Qed.

(** Adding a transaction to the bucket of its label keeps the invariant. *)
Lemma add_to_bucket_inv (ty : TxType) (l : list Transaction)
      (m : Map Bucket) (t : Transaction) (k0 : string) :
  tx_type t = ty -> bucket_label t = Some k0 ->
  bucket_inv ty l m ->
  bucket_inv ty (l ++ [t]) (add_to_bucket m k0 t (bucket_color t)).
Proof.
  intros Hty Hk (ND & Hget). unfold add_to_bucket. split.
  - now apply Map_set_NoDup.
  - intros k. rewrite filter_app. simpl.
    destruct (string_dec k0 k) as [<-|N].
    + rewrite Map_get_set_same.
      assert (E : in_bucket ty k0 t = true) by now apply in_bucket_label.
      rewrite E, Hget, or_num_zero_default.
      destruct (filter (in_bucket ty k0) l) as [|b B] eqn:EB.
      * simpl. f_equal. f_equal. qc_ring.
      * change ((b :: B) ++ [t]) with (b :: (B ++ [t])).
        cbv beta iota. f_equal. f_equal.
        -- change (b :: B ++ [t]) with ((b :: B) ++ [t]).
           rewrite sum_amounts_app. simpl. qc_ring.
        -- change (b :: B ++ [t]) with ((b :: B) ++ [t]).
           now rewrite last_color_snoc.
    + rewrite Map_get_set_other by exact N.
      rewrite in_bucket_false, app_nil_r; [apply Hget|].
      intros [_ E]. rewrite Hk in E. injection E as E. contradiction.
Qed.

(** A transaction outside the map's type or without a label changes no
    bucket. *)
Lemma skip_bucket_inv (ty : TxType) (l : list Transaction) (m : Map Bucket)
      (t : Transaction) :
  (tx_type t <> ty \/ bucket_label t = None) ->
  bucket_inv ty l m -> bucket_inv ty (l ++ [t]) m.
Proof.
  intros H (ND & Hget). split; [exact ND|].
  intros k. rewrite filter_app. simpl.
  rewrite in_bucket_false, app_nil_r; [apply Hget|].
  intros [E1 E2]. destruct H as [H|H]; [contradiction|congruence].
Qed.

Lemma category_step_inv (l : list Transaction)
      (maps : Map Bucket * Map Bucket) (t : Transaction) :
  bucket_inv income l (fst maps) /\ bucket_inv expense l (snd maps) ->
  bucket_inv income (l ++ [t]) (fst (category_step maps t))
  /\ bucket_inv expense (l ++ [t]) (snd (category_step maps t)).
Proof.
  intros [Hi He]. rewrite category_step_bucket.
  destruct (bucket_label t) as [k|] eqn:Ek.
  - destruct (tx_type t) eqn:Et; cbn [fst snd]; split.
    + now apply add_to_bucket_inv.
    + apply skip_bucket_inv; [left; congruence|exact He].
    + apply skip_bucket_inv; [left; congruence|exact Hi].
    + now apply add_to_bucket_inv.
  - split; apply skip_bucket_inv; auto.
Qed.

Lemma category_fold_inv (l done : list Transaction)
      (maps : Map Bucket * Map Bucket) :
  bucket_inv income done (fst maps) /\ bucket_inv expense done (snd maps) ->
  bucket_inv income (done ++ l) (fst (fold_left category_step l maps))
  /\ bucket_inv expense (done ++ l) (snd (fold_left category_step l maps)).
Proof.
  revert done maps. induction l as [|t l IH]; intros done maps H; simpl.
  - now rewrite app_nil_r.
  - replace (done ++ t :: l) with ((done ++ [t]) ++ l)
      by (rewrite <- app_assoc; reflexivity).
    apply IH. now apply category_step_inv.
Qed.

Lemma bucket_inv_empty (ty : TxType) : bucket_inv ty [] (Map_empty Bucket).
Proof. split; [constructor|reflexivity]. Qed.

Lemma category_rows_names (m : Map Bucket) :
  map cd_name (category_rows m) = map fst m.
Proof.
  unfold category_rows, Map_entries. rewrite map_map. now apply map_ext.
Qed.

(** The rows of a map that satisfies the invariant are the breakdown. *)
Lemma category_rows_spec (ty : TxType) (l : list Transaction)
      (m : Map Bucket) :
  bucket_inv ty l m -> breakdown_spec ty l (category_rows m).
Proof.
  intros (ND & Hget). split; [now rewrite category_rows_names|]. split.
  - intros row Ir. unfold category_rows, Map_entries in Ir.
    apply in_map_iff in Ir. destruct Ir as ([k [v c]] & <- & Ie).
    cbn [fst snd cd_name cd_value cd_color].
    pose proof (Map_In_get _ _ _ _ ND Ie) as G. rewrite Hget in G.
    destruct (filter (in_bucket ty k) l) as [|b B] eqn:EB; [discriminate|].
    injection G as <- <-. cbv zeta.
    split; [discriminate|]. split; [reflexivity|]. split; [reflexivity|].
    intros c F. change (last_color (b :: B) EmptyString = c).
    apply last_color_uniform; [discriminate|exact F].
  - intros t k It Ht Hk.
    assert (Ib : In t (filter (in_bucket ty k) l)).
    { apply filter_In. split; [exact It|]. now apply in_bucket_label. }
    pose proof (Hget k) as G.
    destruct (filter (in_bucket ty k) l) as [|b B] eqn:EB; [contradiction|].
    apply Map_get_In in G.
    exists {| cd_name := k; cd_value := sum_amounts (b :: B);
              cd_color := last_color (b :: B) EmptyString |}.
    split; [|reflexivity].
    unfold category_rows, Map_entries. apply in_map_iff.
    now exists (k, (sum_amounts (b :: B), last_color (b :: B) EmptyString)).
Qed.

(** C5: for every transaction collection and range, with F the filtered
    transactions, incomeByCategory and expensesByCategory list each display
    name once; a row's value is the sum of the amounts of the transactions
    of the matching type grouped under its name, and its colour is the one
    brought by the last of them (hence the category's colour whenever the
    group agrees on one); every transaction with a label has its row; a
    transaction with resolved category info is grouped under the category's
    name with the category's colour, and one that has a category reference
    but no resolved info is grouped under "Uncategorized Income" or
    "Uncategorized Expense" by its type, bringing the fixed colour of that
    type. *)
Theorem C5_category_breakdowns (txs : list Transaction) (s e : Date) :
  let F := filteredTransactions txs s e in
  let r := generateReportData txs s e in
  breakdown_spec income F (incomeByCategory r)
  /\ breakdown_spec expense F (expensesByCategory r)
  /\ (forall t c, tx_categories t = Some c -> c_color c <> EmptyString ->
                  bucket_label t = Some (c_name c)
                  /\ bucket_color t = c_color c)
  /\ (forall t, tx_categories t = None -> has_reference t = true ->
                match tx_type t with
                | income =>
                    bucket_label t = Some "Uncategorized Income"%string
                    /\ bucket_color t = "#10b981"%string
                | expense =>
                    bucket_label t = Some "Uncategorized Expense"%string
                    /\ bucket_color t = "#ef4444"%string
                end).
Proof.
  intros F r.
  destruct (category_fold_inv F [] (Map_empty Bucket, Map_empty Bucket))
    as [Hi He].
  { split; apply bucket_inv_empty. }
  split; [|split; [|split]].
  - now apply category_rows_spec.
  - now apply category_rows_spec.
  - intros t c Hc Hcol. unfold bucket_label, bucket_color. rewrite Hc.
    split; [reflexivity|].
    destruct (c_color c); [congruence|reflexivity].
  - intros t Hc Hr. unfold bucket_label, bucket_color. rewrite Hc, Hr.
    destruct (tx_type t); split; reflexivity.
Qed.

(** The sample ledger in March 2024: Food gathers 30 + 12 in its colour, the
    unresolved income goes to "Uncategorized Income", the transaction without
    any category is in no row. *)
Lemma C5_example_march_2024 :
  let s := mkDate 2024 Mar 1 in
  let e := mkDate 2024 Mar 31 in
  let r := generateReportData ledger_categories s e in
  (map (fun row => (cd_name row, cd_color row)) (incomeByCategory r)
   = [("Salary", "#3b82f6"); ("Uncategorized Income", "#10b981")]%string
   /\ map (fun row => (cd_name row, cd_color row)) (expensesByCategory r)
      = [("Food", "#ef4444")]%string
   /\ map cd_value (expensesByCategory r) = [num 42])
  /\ breakdown_spec income (filteredTransactions ledger_categories s e)
                    (incomeByCategory r)
  /\ breakdown_spec expense (filteredTransactions ledger_categories s e)
                    (expensesByCategory r).
Proof.
  intros s e r. split.
  - split; [reflexivity|]. split; [reflexivity|].
    cbn. first [reflexivity | f_equal; apply Qc_is_canon; reflexivity].
  - destruct (C5_category_breakdowns ledger_categories s e) as (Hi & He & _).
    split; assumption.
Defined.









End CategoryFacts.

(* ------------------------------------------------------------------ *)
(** ** Client ledger cache *)
(* ------------------------------------------------------------------ *)

Section CacheFacts.
Import JS Http Server Client.
Local Open Scope string_scope.

(** C10: for every cache state, if the fetch of fetchTransactions fails (it
    is rejected, the status is not ok, or the body does not parse), the
    cache is left as it was and the call returns normally, the error being
    swallowed; the cache is replaced, by the data received, only on a
    successful fetch. *)
Theorem C10_failed_fetch_keeps_cache
        (res : FetchResult (list Transaction)) (cache0 : list Transaction) :
  (failed res ->
   fetchTransactions res cache0 = (cache0, Returned tt))
  /\ (forall data, res = Ok (Some data) ->
                   fetchTransactions res cache0 = (data, Returned tt))
  /\ (fst (fetchTransactions res cache0) <> cache0 ->
      exists data, res = Ok (Some data))
  /\ snd (fetchTransactions res cache0) = Returned tt.
Proof.
  split; [|split; [|split]].
  - intros [->|[(st & m & ->)| ->]]; reflexivity.
  - intros data ->. reflexivity.
  - destruct res as [|[data|]|st m]; simpl; intros N;
      try (now elim N). now exists data.
  - destruct res as [|[data|]|st m]; reflexivity.
Qed.

(** A failing reply of the backend: the list is asked without a user id. *)
Lemma C10_example_bad_request :
  let res := delivered (get_transactions sample_db (Some "")) in
  failed res
  /\ fetchTransactions res (transactions sample_db)
     = (transactions sample_db, Returned tt).
Proof.
  intros res.
  assert (F : failed res).
  { right. left. now exists 400%Z, "user_id is required". }
  split; [exact F|].
  exact (proj1 (C10_failed_fetch_keeps_cache res (transactions sample_db)) F).
Defined.

Lemma map_replace_unique (f : Transaction -> bool) (u : Transaction)
      (l : list Transaction) :
  (forall x, In x l -> f x = false) ->
  map (fun t => if f t then u else t) l = l.
Proof.
  induction l as [|x l IH]; simpl; intros H; trivial.
  rewrite (H x) by auto. f_equal. apply IH. auto.
Qed.

(** C7: a successful updateTransaction(tx) maps the cache position by
    position: the length is kept, a record whose id is tx.id becomes the
    record the server returned and every other record stays as it was, at
    its place; when exactly one record has that id, the cache l1 ++ t :: l2
    becomes l1 ++ updatedTx :: l2. *)
Theorem C7_update_replaces_in_place
        (tx updatedTx : Transaction) (cache0 : list Transaction) :
  let cache1 := fst (updateTransaction tx (Ok (Some updatedTx)) cache0) in
  snd (updateTransaction tx (Ok (Some updatedTx)) cache0) = Returned updatedTx
  /\ List.length cache1 = List.length cache0
  /\ (forall i t, nth_error cache0 i = Some t ->
                  nth_error cache1 i
                  = Some (if String.eqb (tx_id t) (tx_id tx)
                          then updatedTx else t))
  /\ (forall l1 t l2,
        cache0 = (l1 ++ t :: l2)%list -> tx_id t = tx_id tx ->
        (forall x, In x (l1 ++ l2)%list -> tx_id x <> tx_id tx) ->
        cache1 = (l1 ++ updatedTx :: l2)%list).
Proof.
  cbn. split; [reflexivity|]. split; [apply length_map|]. split.
  - intros i t H. rewrite nth_error_map, H. reflexivity.
  - intros l1 t l2 -> Ht Hu. rewrite map_app. simpl.
    rewrite Ht, String.eqb_refl.
    rewrite !map_replace_unique; trivial;
      intros x Ix; apply String.eqb_neq, Hu, in_or_app; auto.
Qed.

(** Updating the second of three cached records. *)
Lemma C7_example_update_second :
  let tx := sample_row "2" 45 expense (mkDate 2024 Jan 16) in
  let updatedTx := sample_row "2" 45 expense (mkDate 2024 Jan 16) in
  fst (updateTransaction tx (Ok (Some updatedTx)) (transactions sample_db))
  = [ sample_row "1" 100 income (mkDate 2024 Jan 10);
      updatedTx;
      sample_row "3" 60 income (mkDate 2024 Feb 1) ].
Proof.
  intros tx updatedTx.
  destruct (C7_update_replaces_in_place tx updatedTx (transactions sample_db))
    as (_ & _ & _ & H).
  apply (H [sample_row "1" 100 income (mkDate 2024 Jan 10)]
           (sample_row "2" 40 expense (mkDate 2024 Jan 15))
           [sample_row "3" 60 income (mkDate 2024 Feb 1)]).
  - reflexivity.
  - reflexivity.
  - intros x [<-|[<-|[]]]; discriminate.
Defined.

End CacheFacts.
(* ------------------------------------------------------------------ *)
(** ** Deleting a transaction *)
(* ------------------------------------------------------------------ *)

Section DeleteFacts.
Import JS Http Server Client.
Local Open Scope string_scope.

Lemma truthy_str_nonempty (s : string) : s <> "" -> truthy_str s = true.
Proof. destruct s; [congruence|reflexivity]. Qed.

Lemma url_segment_nonempty (s : string) :
  url_segment s = true -> truthy_str s = true.
Proof. unfold url_segment. now intros H%andb_prop. Qed.

(** The store reads ["01"] and [" 1 "] as 1 and does not read ["abc"],
    ["1.5"] or an empty text. *)
Lemma int4in_readings :
  map int4in ["1"; "01"; " 1 "; "+1"; "-1"; "abc"; "1.5"; ""; "2147483648"]
  = [Some 1; Some 1; Some 1; Some 1; Some (-1); None; None; None; None]%Z.
Proof. reflexivity. Qed.

Lemma has_id_removed (key : Z) (l : list Transaction) :
  filter (has_id key) (filter (fun t => negb (has_id key t)) l) = [].
Proof.
  induction l as [|t l IH]; simpl; trivial.
  destruct (has_id key t) eqn:E; simpl; [exact IH|]. now rewrite E.
Qed.

(** The handler of [DELETE]: what it answers and what it leaves. *)
Lemma delete_transaction_spec (d : DB) (id : string) :
  truthy_str id = true ->
  let '(d', reply) := delete_transaction d id in
  match int4in id with
  | None => reply = Failure 500 "Internal server error" /\ d' = d
  | Some key =>
      match filter (has_id key) (transactions d) with
      | [] => reply = Failure 404 "Transaction not found" /\ d' = d
      | row :: _ =>
          reply = Success 200
                    {| delete_message := "Transaction deleted successfully";
                       delete_transaction_row := row |}
          /\ In row (transactions d) /\ tx_id row = integer_text key
          /\ (forall t, In t (transactions d') <->
                        In t (transactions d) /\ tx_id t <> integer_text key)
          /\ users d' = users d /\ categories d' = categories d
      end
  end.
Proof.
  intros Hid. unfold delete_transaction. rewrite Hid. cbn [negb].
  destruct (int4in id) as [key|]; [|split; reflexivity].
  destruct (filter (has_id key) (transactions d)) as [|row rest] eqn:E.
  - split; reflexivity.
  - assert (I : In row (filter (has_id key) (transactions d)))
      by (rewrite E; now left).
    apply filter_In in I. destruct I as [I H].
    apply String.eqb_eq in H.
    split; [reflexivity|]. split; [exact I|]. split; [exact H|].
    split; [|split; reflexivity].
    intros t. cbn [transactions set_transactions]. rewrite filter_In.
    unfold has_id. rewrite negb_true_iff, String.eqb_neq. tauto.
Qed.

(** After the handler has run on an id that reads as an integer, no stored
    row has that integer for its id; an id that does not read as one leaves
    the store as it was. *)
Lemma delete_transaction_gone (d : DB) (id : string) :
  match int4in id with
  | Some key =>
      filter (has_id key) (transactions (fst (delete_transaction d id))) = []
      \/ truthy_str id = false
  | None => fst (delete_transaction d id) = d
  end.
Proof.
  unfold delete_transaction.
  destruct (int4in id) as [key|]; [|now destruct (truthy_str id)].
  destruct (truthy_str id); [left|now right].
  cbn [negb]. destruct (filter (has_id key) (transactions d)) eqn:E.
  - exact E.
  - cbn [fst transactions set_transactions]. apply has_id_removed.
Qed.

(** On the backend without the route every call is answered by the 404
    handler and nothing is removed. *)
Lemma basic_delete_never_removes (d : DB) (id : string) :
  route_delete Basic d id
  = (d, Failure 404 ("Route DELETE /api/transactions/" ++ id ++ " not found")).
Proof. reflexivity. Qed.

(** C6, as stated, fails.  On [backend/server.js], which registers no DELETE
    route, transaction 2 of the sample store is stored, the call throws the
    404 of the route handler and the row stays: the matching row is not
    removed.  On the later [server.js] the second call for an id that is no
    integer throws the handler's 500, not a not-found error, and a call that
    removes a row returns nothing to its caller. *)
Lemma C6_row_stays_without_route :
  (In "2" (map tx_id (transactions (db (sample_system Basic))))
   /\ sys_deleteTransaction Delivered "2" (sample_system Basic)
      = (sample_system Basic,
         Thrown (HttpProblem 404 "Route DELETE /api/transactions/2 not found")))
  /\ snd (sys_deleteTransaction Delivered "abc"
            (fst (sys_deleteTransaction Delivered "abc" (sample_system Full))))
     = Thrown (HttpProblem 500 "Internal server error")
  /\ snd (sys_deleteTransaction Delivered "2" (sample_system Full))
     = Returned tt.
Proof.
  split; [split|split].
  - cbn. auto.
  - reflexivity.
  - reflexivity.
  - reflexivity.
Qed.

(** C6, amended: for every transaction id that the URL carries as it is and
    every store and cache,
    - on the later [server.js], when the first of two successive
      deleteTransaction(id) calls has reached the server and the second is
      answered, the second call throws and changes neither store nor cache:
      it throws the 404 "Transaction not found" when the id reads as an
      integer and the handler's 500 when it does not;
    - the handler of DELETE answers 500 and leaves the store as it is when
      the id does not read as an integer, answers 404 "Transaction not
      found" and leaves the store as it is when no row has that integer for
      its id, and otherwise removes the rows with that id, keeps every other
      row, and replies with the snapshot of the deleted row under status
      200;
    - the client function does not pass the snapshot on: after an ok reply
      it returns nothing and drops the cached records whose id is the
      string [id];
    - on [backend/server.js], which registers no DELETE route, a call
      removes nothing from store or cache and an answered call throws the
      404 of the route handler. *)
Theorem C6_delete_twice (s : System) (id : string)
        (Hid : url_segment id = true) :
  (backend s = Full ->
   forall net1, net1 <> RequestLost ->
     let '(s1, _) := sys_deleteTransaction net1 id s in
     let '(s2, c2) := sys_deleteTransaction Delivered id s1 in
     c2 = Thrown (match int4in id with
                  | Some _ => HttpProblem 404 "Transaction not found"
                  | None => HttpProblem 500 "Internal server error"
                  end)
     /\ s2 = s1)
  /\ (let '(d', reply) := delete_transaction (db s) id in
      match int4in id with
      | None => reply = Failure 500 "Internal server error" /\ d' = db s
      | Some key =>
          match filter (has_id key) (transactions (db s)) with
          | [] => reply = Failure 404 "Transaction not found" /\ d' = db s
          | row :: _ =>
              reply
              = Success 200
                  {| delete_message := "Transaction deleted successfully";
                     delete_transaction_row := row |}
              /\ In row (transactions (db s)) /\ tx_id row = integer_text key
              /\ (forall t, In t (transactions d') <->
                            In t (transactions (db s))
                            /\ tx_id t <> integer_text key)
              /\ users d' = users (db s) /\ categories d' = categories (db s)
          end
      end)
  /\ (forall (reply : option DeleteBody) (cache0 : list Transaction),
        deleteTransaction id (Ok reply) cache0
        = (filter (fun t => negb (String.eqb (tx_id t) id)) cache0,
           Returned tt))
  /\ (backend s = Basic ->
      forall net,
        let '(s1, c1) := sys_deleteTransaction net id s in
        s1 = s
        /\ (net = Delivered ->
            c1 = Thrown (HttpProblem 404
                           ("Route DELETE /api/transactions/" ++ id
                            ++ " not found")))).
Proof.
  pose proof (url_segment_nonempty id Hid) as Hne.
  split; [|split; [exact (delete_transaction_spec (db s) id Hne)|split]].
  - (* the later server.js *)
    destruct s as [b d c]. cbn [backend]. intros -> net1 Hnet.
    unfold sys_deleteTransaction. cbn [backend db cache route_delete].
    rewrite Hne.
    pose proof (delete_transaction_gone d id) as G.
    destruct (delete_transaction d id) as [d1 r1]. cbn [fst] in G.
    assert (E : exists res1,
               exchange net1 d (d1, r1) = (d1, res1)).
    { destruct net1; cbn; [eauto|congruence|eauto]. }
    destruct E as (res1 & ->).
    destruct (deleteTransaction id res1 c) as [c1 k1].
    cbn [backend db cache route_delete]. rewrite Hne.
    unfold delete_transaction. rewrite Hne. cbn [negb].
    destruct (int4in id) as [key|].
    + destruct G as [G|G]; [|congruence]. rewrite G. cbn. split; reflexivity.
    + cbn. split; reflexivity.
  - (* the client function *)
    reflexivity.
  - (* backend/server.js *)
    destruct s as [b d c]. cbn [backend]. intros -> net.
    unfold sys_deleteTransaction. cbn [backend db cache route_delete].
    destruct net; cbn; (split; [reflexivity|]); congruence.
Qed.

(** Deleting transaction 2 of the sample store twice, on the later
    [server.js]: the first call removes it from store and cache, the second
    throws the 404. *)
Lemma C6_example_delete_twice :
  let r1 := sys_deleteTransaction Delivered "2" (sample_system Full) in
  let r2 := sys_deleteTransaction Delivered "2" (fst r1) in
  snd r1 = Returned tt
  /\ map tx_id (transactions (db (fst r1))) = ["1"; "3"]
  /\ map tx_id (cache (fst r1)) = ["1"; "3"]
  /\ snd r2 = Thrown (HttpProblem 404 "Transaction not found")
  /\ fst r2 = fst r1.
Proof.
  intros r1 r2.
  split; [reflexivity|]. split; [reflexivity|]. split; [reflexivity|].
  assert (Hid : url_segment "2" = true) by reflexivity.
  assert (Hnet : Delivered <> RequestLost) by discriminate.
  pose proof (proj1 (C6_delete_twice (sample_system Full) "2" Hid)
                eq_refl Delivered Hnet) as H.
  exact H.
Defined.

End DeleteFacts.

(* ------------------------------------------------------------------ *)
(** ** Stored amounts *)
(* ------------------------------------------------------------------ *)

Section AmountFacts.
Import JS Http Server Client.
Local Open Scope Qc_scope.

Lemma num_nonneg (z : Z) : (0 <= z)%Z -> 0 <= num z.
Proof.
  intros H. change (inject_Z 0 <= Qred (inject_Z z))%Q.
  rewrite Qred_correct, <- Zle_Qle. exact H.
Qed.

Lemma Qfloor_nonneg (x : Qc) : 0 <= x -> (0 <= Qfloor x)%Z.
Proof.
  intros H. change 0%Z with (Qfloor 0). apply Qfloor_resp_le. exact H.
Qed.

Lemma Qc_div_nonneg (a b : Qc) : 0 <= a -> 0 <= b -> 0 <= a / b.
Proof.
  intros Ha Hb. unfold Qcdiv.
  destruct (Qc_eq_dec b 0) as [->|N].
  - replace (/ 0) with (0:Qc) by (apply Qc_is_canon; reflexivity).
    replace (a * 0) with (0:Qc) by ring. apply Qcle_refl.
  - replace (0:Qc) with (0 * / b) by ring.
    apply Qcmult_le_compat_r; trivial.
    change (0 <= Qred (/ this b))%Q. rewrite Qred_correct.
    apply Qinv_le_0_compat. exact Hb.
Qed.

(** Rounding to the column's scale keeps a non-negative amount
    non-negative. *)
Lemma round_half_away_nonneg (x : Qc) : 0 <= x -> 0 <= round_half_away x.
Proof.
  intros H. unfold round_half_away.
  assert (E : Qle_bool 0 x = true) by (apply Qle_bool_iff; exact H).
  rewrite E. apply Qc_div_nonneg; [|apply num_nonneg; lia].
  apply num_nonneg, Qfloor_nonneg.
  replace (0:Qc) with (0 * num 100 + 0) by ring.
  apply Qcplus_le_compat.
  - apply Qcmult_le_compat_r; [exact H|apply num_nonneg; lia].
  - unfold Qcle. cbn. discriminate.
Qed.

Lemma numeric_15_2_nonneg (a a' : Qc) :
  0 <= a -> numeric_15_2 a = Some a' -> 0 <= a'.
Proof.
  intros H. unfold numeric_15_2.
  destruct (_ || _); [discriminate|]. intros [= <-].
  now apply round_half_away_nonneg.
Qed.

(** What the schema lets through. *)
Lemma transactionSchema_positive (i : SchemaInput) (v : Validated) :
  transactionSchema i = Some v ->
  0 < v_amount v /\ in_amount i = Some (v_amount v) /\ v_type v = in_type i.
Proof.
  unfold transactionSchema.
  destruct (in_amount i) as [a|]; [|discriminate].
  destruct (in_date i) as [d|]; [|discriminate].
  destruct (trimmed_max 100 (in_account i)); [|discriminate].
  destruct (trimmed_max 50 (in_document_no i)); [|discriminate].
  destruct (trimmed_max 500 (in_description i)); [|discriminate].
  destruct (Qle_bool a 0) eqn:E; [discriminate|].
  destruct (negb (truthy_str (in_category_id i))); [discriminate|].
  intros [= <-]. cbn. split; [|split; reflexivity].
  apply Qcnot_le_lt. intros L. change (this a <= 0)%Q in L.
  apply Qle_bool_iff in L. congruence.
Qed.

(** What binding gives for the amount comes from the request, through the
    column's rounding. *)
Lemma bound_values_spec (uid cid : option string) (amount : option Qc)
      (acc doc : option string) (u c : option Z) (a : option Qc) :
  bound_values uid cid amount acc doc = Some (u, c, a) ->
  integer_param uid = Some u /\ integer_param cid = Some c
  /\ amount_param amount = Some a
  /\ fits_opt 255 acc = true /\ fits_opt 255 doc = true.
Proof.
  unfold bound_values.
  destruct (integer_param uid) as [u0|]; [|discriminate].
  destruct (integer_param cid) as [c0|]; [|discriminate].
  destruct (amount_param amount) as [a0|]; [|discriminate].
  destruct (fits_opt 255 acc); [|discriminate].
  destruct (fits_opt 255 doc); [|discriminate].
  intros [= <- <- <-]. repeat split.
Qed.

Lemma amount_param_Some (amount : option Qc) (a : Qc) :
  amount_param amount = Some (Some a) ->
  exists a0, amount = Some a0 /\ numeric_15_2 a0 = Some a.
Proof.
  unfold amount_param. destruct amount as [a0|]; [|discriminate].
  destruct (numeric_15_2 a0) as [a'|] eqn:E; [|discriminate].
  intros [= <-]. now exists a0.
Qed.

Lemma not_null_values_spec (amount : option Qc) (type : option TxType)
      (date : option Date) (a : Qc) (ty : TxType) (d : Date) :
  not_null_values amount type date = Some (a, ty, d) ->
  amount = Some a /\ type = Some ty /\ date = Some d.
Proof.
  unfold not_null_values. destruct amount, type, date; try discriminate.
  intros [= <- <- <-]. repeat split.
Qed.

(** The row a successful [POST] returns and stores. *)
Lemma post_transactions_row (d d' : DB) (now : string)
      (body : TransactionBody) (status : Z) (row : Transaction) :
  post_transactions d now body = (d', Success status row) ->
  (exists a0, b_amount body = Some a0
              /\ numeric_15_2 a0 = Some (tx_amount row))
  /\ b_type body = Some (tx_type row)
  /\ transactions d' = transactions d ++ [row].
Proof.
  unfold post_transactions.
  destruct (bound_values _ _ _ _ _) as [[[u c] a]|] eqn:E; [|discriminate].
  destruct (exhausted _); [discriminate|].
  destruct (not_null_values _ _ _) as [[[a1 ty] dt]|] eqn:N; [|discriminate].
  destruct (references_ok d u c); [|discriminate].
  intros [= <- <- <-]. cbn.
  apply bound_values_spec in E. destruct E as (_ & _ & Ha & _).
  apply not_null_values_spec in N. destruct N as (-> & Ht & _).
  apply amount_param_Some in Ha.
  split; [exact Ha|]. split; trivial.
Qed.

(** The row a successful [PUT] returns, and the rows it leaves. *)
Lemma put_transaction_row (d d' : DB) (id : string) (body : TransactionBody)
      (status : Z) (row : Transaction) :
  put_transaction d id body = (d', Success status row) ->
  (exists a0, b_amount body = Some a0
              /\ numeric_15_2 a0 = Some (tx_amount row))
  /\ b_type body = Some (tx_type row)
  /\ forall t, In t (transactions d') ->
               In t (transactions d)
               \/ (tx_amount t = tx_amount row /\ tx_type t = tx_type row).
Proof.
  unfold put_transaction.
  destruct (negb (truthy_str id)); [discriminate|].
  destruct (int4in id) as [key|]; [|discriminate].
  destruct (bound_values _ _ _ _ _) as [[[u c] a]|] eqn:E; [|discriminate].
  destruct (filter (has_id key) (transactions d)) as [|old rest];
    [discriminate|].
  destruct (not_null_values _ _ _) as [[[a1 ty] dt]|] eqn:N; [|discriminate].
  destruct (references_ok d None c); [|discriminate].
  intros [= <- <- <-]. cbn.
  apply bound_values_spec in E. destruct E as (_ & _ & Ha & _).
  apply not_null_values_spec in N. destruct N as (-> & Ht & _).
  apply amount_param_Some in Ha.
  split; [exact Ha|]. split; trivial.
  intros t It. apply in_app_or in It. destruct It as [It|[<-|It]].
  - apply filter_In in It. now left.
  - right; split; reflexivity.
  - apply in_map_iff in It. destruct It as (x & <- & Ix).
    right; split; reflexivity.
Qed.

(** The list the API returns has the amounts of stored rows. *)
Lemma get_transactions_amounts (d : DB) (uid : option string) (status : Z)
      (rows : list Transaction) :
  get_transactions d uid = Success status rows ->
  forall t, In t rows ->
            exists t0, In t0 (transactions d) /\ tx_amount t = tx_amount t0.
Proof.
  unfold get_transactions. destruct uid as [u|]; [|discriminate].
  destruct (truthy_str u); [|discriminate].
  destruct (int4in u) as [user|]; [|discriminate].
  intros [= <- <-] t It.
  apply (Permutation_in _ (Array_sort_perm _ _ _)) in It.
  apply in_map_iff in It. destruct It as (t0 & <- & I0).
  apply filter_In in I0. exists t0. split; [tauto|reflexivity].
Qed.

(** A client call that returns was answered. *)
Lemma exchange_Ok (A : Type) (net : Delivery) (d d' : DB)
      (served : DB * Reply A) (data : option A) :
  exchange net d served = (d', Ok data) ->
  exists status body,
    served = (d', Success status body) /\ data = Some body.
Proof.
  destruct served as [d1 [st body|st msg]], net; cbn; try discriminate.
  intros [= <- <-]. now exists st, body.
Qed.

(** C4, as stated, fails: the handler of POST /api/transactions checks no
    sign; a request with amount -5 is stored and returned with amount -5. *)
Lemma C4_api_stores_negative_amount :
  exists d' row,
    post_transactions sample_db "2024-03-01T00:00:00.000Z" negative_body
    = (d', Success 201 row)
    /\ In row (transactions d')
    /\ tx_amount row < 0.
Proof.
  eexists. eexists. split; [vm_compute; reflexivity|].
  split; [|vm_compute; reflexivity].
  cbn. right. right. right. left. reflexivity.
Qed.

(** C4, amended: a transaction that goes through the add form or the edit
    form, whose schema accepts only amount > 0, is stored and returned by
    the API with amount >= 0 and with the type chosen in the form, and a
    store whose amounts are all >= 0 stays so and lists only amounts >= 0;
    the sign says nothing about the direction, which is the type's.  (The
    API itself stores the amount it is given, rounded to two decimals.) *)
Theorem C4_form_amounts_nonnegative (s : System)
        (Hinv : Forall (fun t => 0 <= tx_amount t) (transactions (db s))) :
  (forall net user form input now s' row,
      AddTransaction_handleSubmit user form = Some input ->
      sys_addTransaction net now input s = (s', Returned row) ->
      0 <= tx_amount row /\ tx_type row = af_type form
      /\ In row (transactions (db s')) /\ In row (cache s')
      /\ Forall (fun t => 0 <= tx_amount t) (transactions (db s')))
  /\ (forall net id now form tx s' row,
        EditTransaction_handleSubmit id now form (cache s) = Some tx ->
        sys_updateTransaction net tx s = (s', Returned row) ->
        0 <= tx_amount row /\ tx_type row = ef_type form
        /\ Forall (fun t => 0 <= tx_amount t) (transactions (db s')))
  /\ (forall uid status rows,
        get_transactions (db s) uid = Success status rows ->
        Forall (fun t => 0 <= tx_amount t) rows).
Proof.
  split; [|split].
  - intros net user form input now s' row Hsub Hadd.
    unfold AddTransaction_handleSubmit in Hsub.
    destruct (transactionSchema _) as [v|] eqn:Ev; [|discriminate].
    destruct (transactionSchema_positive _ _ Ev) as (Hpos & _ & Hty).
    destruct user as [u|]; [|discriminate].
    destruct (negb _); [discriminate|]. injection Hsub as <-.
    unfold sys_addTransaction in Hadd.
    destruct (exchange net _ _) as [d' res] eqn:Ex.
    destruct res as [|[body|]|st msg]; cbn in Hadd; try discriminate.
    injection Hadd as <- <-. cbn [db cache].
    apply exchange_Ok in Ex. destruct Ex as (st & body' & Ep & [= <-]).
    destruct (post_transactions_row _ _ _ _ _ _ Ep)
      as ((a0 & Ha & Hn) & Ht & Hrows).
    cbn in Ha, Ht. injection Ha as <-. injection Ht as <-.
    assert (Hrow : 0 <= tx_amount body).
    { eapply numeric_15_2_nonneg; [|exact Hn]. now apply Qclt_le_weak. }
    split; [exact Hrow|]. split; [exact Hty|].
    rewrite Hrows. split; [apply in_or_app; simpl; auto|].
    split; [apply in_or_app; simpl; auto|].
    apply Forall_app. split; [exact Hinv|]. now constructor.
  - intros net id now form tx s' row Hsub Hupd.
    unfold EditTransaction_handleSubmit in Hsub.
    destruct (transactionSchema _) as [v|] eqn:Ev; [|discriminate].
    destruct (transactionSchema_positive _ _ Ev) as (Hpos & _ & Hty).
    destruct (find _ _) as [existing|]; [|discriminate].
    injection Hsub as <-.
    unfold sys_updateTransaction in Hupd. cbn [tx_id] in Hupd.
    destruct (exchange net _ _) as [d' res] eqn:Ex.
    destruct res as [|[body|]|st msg]; cbn in Hupd; try discriminate.
    injection Hupd as <- <-. cbn [db].
    apply exchange_Ok in Ex. destruct Ex as (st & body' & Ep & [= <-]).
    destruct (backend s); [discriminate|]. cbn [route_put] in Ep.
    destruct (truthy_str id); [|discriminate].
    destruct (put_transaction_row _ _ _ _ _ _ Ep)
      as ((a0 & Ha & Hn) & Ht & Hrows).
    cbn in Ha, Ht. injection Ha as <-. injection Ht as <-.
    assert (Hrow : 0 <= tx_amount body).
    { eapply numeric_15_2_nonneg; [|exact Hn]. now apply Qclt_le_weak. }
    split; [exact Hrow|]. split; [exact Hty|].
    rewrite Forall_forall in *. intros t It.
    destruct (Hrows t It) as [I|[-> _]]; auto.
  - intros uid status rows Hget. rewrite Forall_forall in *. intros t It.
    destruct (get_transactions_amounts _ _ _ _ Hget t It) as (t0 & I0 & ->).
    auto.
Qed.

(** The sample add form, 12.50 spent, through the sample store. *)
Lemma C4_example_add_form :
  exists input s' row,
    AddTransaction_handleSubmit (Some (mkUser "1" "bat@example.mn"))
                                sample_add_form = Some input
    /\ sys_addTransaction Delivered "2024-03-01T00:00:00.000Z" input
                          (sample_system Full)
       = (s', Returned row)
    /\ 0 <= tx_amount row /\ tx_type row = expense
    /\ Forall (fun t => 0 <= tx_amount t) (transactions (db s')).
Proof.
  assert (Hinv : Forall (fun t => 0 <= tx_amount t)
                        (transactions (db (sample_system Full)))).
  { repeat constructor; vm_compute; discriminate. }
  eexists. eexists. eexists.
  split; [vm_compute; reflexivity|].
  split; [vm_compute; reflexivity|].
  destruct (proj1 (C4_form_amounts_nonnegative (sample_system Full) Hinv)
              Delivered
              (Some (mkUser "1" "bat@example.mn")) sample_add_form
              _ "2024-03-01T00:00:00.000Z"%string _ _ eq_refl eq_refl)
    as (H1 & H2 & _ & _ & H5).
  split; [exact H1|]. split; [exact H2|exact H5].
Defined.

End AmountFacts.

(* ------------------------------------------------------------------ *)
(** ** Login and signup *)
(* ------------------------------------------------------------------ *)

Section AuthFacts.
Import JS Http Server Client.
Local Open Scope string_scope.

Lemma omit_keys (k : string) (o : JsonObject) :
  ~ In k (map fst (omit k o)).
Proof.
  unfold omit. intros I. apply in_map_iff in I.
  destruct I as ([k' v] & E & I). cbn in E. subst k'.
  apply filter_In in I. destruct I as [_ I]. cbn in I.
  now rewrite String.eqb_refl in I.
Qed.

Lemma login_user_keys (u : UserRow) :
  map fst (omit "password" (user_object u))
  = ["id"; "name"; "email"; "user_type"; "organization_name";
     "organization_id"; "created_at"].
Proof. reflexivity. Qed.

Lemma signup_keys (u : UserRow) :
  map fst (returning ["id"; "name"; "email"; "user_type";
                      "organization_name"; "organization_id"]
                     (user_object u))
  = ["id"; "name"; "email"; "user_type"; "organization_name";
     "organization_id"].
Proof. reflexivity. Qed.

(** C8: for every store, request and bcrypt implementation, a successful
    login answers 200 with a user object that has the columns of the stored
    row except password, and a successful signup answers 201 with the
    columns id, name, email, user_type, organization_name and
    organization_id of the created row: neither body has a password field,
    so the stored hash is never returned. *)
Theorem C8_no_password_in_responses (d : DB) :
  (forall bcrypt_compare email password status body,
      login bcrypt_compare d email password = Success status body ->
      status = 200%Z
      /\ (exists user, In user (users d)
                       /\ login_user body = omit "password" (user_object user))
      /\ map fst (login_user body)
         = ["id"; "name"; "email"; "user_type"; "organization_name";
            "organization_id"; "created_at"]
      /\ ~ In "password" (map fst (login_user body)))
  /\ (forall bcrypt_hash now request d' status body,
        signup bcrypt_hash d now request = (d', Success status body) ->
        status = 201%Z
        /\ map fst body
           = ["id"; "name"; "email"; "user_type"; "organization_name";
              "organization_id"]
        /\ ~ In "password" (map fst body)
        /\ exists row, users d' = (users d ++ [row])%list
                       /\ (forall pw, sb_password request = Some pw ->
                                      u_password row = bcrypt_hash pw)).
Proof.
  split.
  - intros cmp email password status body. unfold login.
    destruct email as [em|]; [|discriminate].
    destruct password as [pw|]; [|discriminate].
    destruct (_ || _); [discriminate|].
    destruct (filter _ (users d)) as [|user rest] eqn:E; [discriminate|].
    destruct (cmp pw (u_password user)); [|discriminate].
    intros [= <- <-]. cbn [login_user].
    split; [reflexivity|]. split.
    + exists user. split; [|reflexivity].
      assert (I : In user (filter (fun u => u_email u =? em) (users d)))
        by (rewrite E; now left).
      now apply filter_In in I.
    + split; [apply login_user_keys|].
      change (~ In "password"
                (map fst (omit "password" (user_object user)))).
      apply omit_keys.
  - intros hash now request d' status body. unfold signup.
    destruct (sb_email request) as [em|]; [|discriminate].
    destruct (sb_user_type request) as [ut|]; [|discriminate].
    destruct (sb_password request) as [pw|]; [|discriminate].
    do 3 (match goal with
          | |- (if ?c then _ else _) = _ -> _ => destruct c; [discriminate|]
          end).
    intros [= <- <- <-].
    split; [reflexivity|]. split; [reflexivity|]. split.
    + cbn. intuition discriminate.
    + eexists. split; [reflexivity|]. cbn. now intros pw' [= <-].
Qed.

(** The sample user logs in, a new user signs up: no password field. *)
Lemma C8_example_login_signup :
  (exists body,
      login sample_compare sample_db (Some "bat@example.mn") (Some "secret")
      = Success 200 body
      /\ ~ In "password" (map fst (login_user body))
      /\ Map_get (login_user body) "email" = Some (JString "bat@example.mn"))
  /\ (exists d' body,
        signup sample_hash sample_db "2024-03-01T00:00:00.000Z" sample_signup
        = (d', Success 201 body)
        /\ ~ In "password" (map fst body)
        /\ Map_get body "id" = Some (JString "2")).
Proof.
  split.
  - eexists. split; [reflexivity|].
    split; [|reflexivity].
    apply (proj1 (C8_no_password_in_responses sample_db) sample_compare
                 (Some "bat@example.mn") (Some "secret") 200%Z _ eq_refl).
  - eexists. eexists. split; [reflexivity|].
    split; [|reflexivity].
    apply (proj2 (C8_no_password_in_responses sample_db) sample_hash
                 "2024-03-01T00:00:00.000Z" sample_signup _ 201%Z _ eq_refl).
Defined.

End AuthFacts.
(* ================================================================== *)
(** * Further properties of the code *)
(* ================================================================== *)

(* ------------------------------------------------------------------ *)
(** ** The report: what the range selects *)
(* ------------------------------------------------------------------ *)

Section ReportRanges.
Import JS JSDate Reports Shape.
Local Open Scope Qc_scope.

(** X3.  A range that ends before it starts selects nothing: every total is zero
    and every list of the report is empty, whatever the ledger. *)
Theorem empty_range_gives_empty_report (txs : list Transaction) (s e : Date)
        (Hrange : (getTime e < getTime s)%Z) :
  let r := generateReportData txs s e in
  filteredTransactions txs s e = []
  /\ totalIncome r = 0 /\ totalExpenses r = 0 /\ netBalance r = 0
  /\ incomeByCategory r = [] /\ expensesByCategory r = []
  /\ monthlyData r = [].
Proof.
  assert (E : filteredTransactions txs s e = []).
  { apply filter_none. intros t _. unfold in_range.
    destruct (Z.leb_spec (getTime s) (getTime (tx_date t))); cbn [andb];
      [|reflexivity].
    apply Z.leb_gt. lia. }
  cbn. rewrite E. cbn.
  repeat split; apply Qc_is_canon; reflexivity.
Qed.

(** A range that ends before it starts, on the ledger of section 8. *)
Lemma empty_range_example :
  let r := generateReportData ledger_2024 (mkDate 2024 Feb 1)
                              (mkDate 2024 Jan 1) in
  totalIncome r = 0 /\ monthlyData r = [].
Proof.
  assert (H : (getTime (mkDate 2024 Jan 1) < getTime (mkDate 2024 Feb 1))%Z)
    by reflexivity.
  destruct (empty_range_gives_empty_report ledger_2024 (mkDate 2024 Feb 1)
              (mkDate 2024 Jan 1) H) as (_ & Hi & _ & _ & _ & _ & Hm).
  split; assumption.
Defined.

(** X4.  The report reads the filtered transactions only: a transaction dated
    outside the range changes nothing in it, wherever it stands in the
    ledger. *)
Theorem out_of_range_transaction_ignored
        (l1 l2 : list Transaction) (t : Transaction) (s e : Date)
        (Hout : in_range s e t = false) :
  generateReportData (l1 ++ t :: l2) s e = generateReportData (l1 ++ l2) s e.
Proof.
  unfold generateReportData.
  assert (E : filteredTransactions (l1 ++ t :: l2) s e
              = filteredTransactions (l1 ++ l2) s e).
  { unfold filteredTransactions. rewrite !filter_app. simpl.
    now rewrite Hout. }
  now rewrite E.
Qed.

(** The February transaction of the ledger of section 8 and January. *)
Lemma out_of_range_example :
  generateReportData ledger_2024 (fst january_2024) (snd january_2024)
  = generateReportData (firstn 2 ledger_2024) (fst january_2024)
                       (snd january_2024).
Proof.
  exact (out_of_range_transaction_ignored (firstn 2 ledger_2024) []
           (sample_tx "3" 60 income (mkDate 2024 Feb 1) None None)
           (fst january_2024) (snd january_2024) eq_refl).
Defined.

End ReportRanges.
(* ------------------------------------------------------------------ *)
(** ** The store: what the handlers keep *)
(* ------------------------------------------------------------------ *)

Section StoreFacts.
Import JS JSDate Http Server Client Shape.
Local Open Scope string_scope.

Lemma serial_inj (n m : N) : serial n = serial m -> n = m.
Proof.
  unfold serial. intros H.
  apply (f_equal NilEmpty.uint_of_string) in H.
  rewrite !NilEmpty.usu in H. injection H as H.
  apply (f_equal N.of_uint) in H.
  now rewrite !DecimalN.Unsigned.of_to in H.
Qed.

Lemma keys_ok_fresh (d : DB) (t : Transaction) :
  keys_ok d -> In t (transactions d) ->
  tx_id t <> serial (transactions_id_seq d).
Proof.
  intros [K _] I E. destruct (K t I) as (n & L & En).
  rewrite En in E. apply serial_inj in E. lia.
Qed.

(** A text that reads as an integer is not empty. *)
Lemma int4in_nonempty (s : string) (z : Z) :
  int4in s = Some z -> truthy_str s = true.
Proof. destruct s; [discriminate|reflexivity]. Qed.

(** What a successful [POST] did. *)
Lemma post_transactions_success (d d' : DB) (now : string)
      (body : TransactionBody) (status : Z) (row : Transaction) :
  post_transactions d now body = (d', Success status row) ->
  exists user category,
    status = 201%Z
    /\ integer_param (b_user_id body) = Some user
    /\ integer_param (posted_category body) = Some category
    /\ references_ok d user category = true
    /\ tx_id row = serial (transactions_id_seq d)
    /\ tx_user_id row = option_map integer_text user
    /\ tx_category_id row = option_map integer_text category
    /\ tx_account row = or_null (b_account body)
    /\ tx_document_no row = or_null (b_document_no body)
    /\ tx_description row = or_null (b_description body)
    /\ tx_created_at row = Some now
    /\ tx_categories row = None
    /\ d' = set_transactions (draw_id d) (transactions d ++ [row]).
Proof.
  unfold post_transactions. fold (posted_category body).
  destruct (bound_values _ _ _ _ _) as [[[u c] a]|] eqn:E; [|discriminate].
  destruct (exhausted _); [discriminate|].
  destruct (not_null_values _ _ _) as [[[a1 ty] dt]|]; [|discriminate].
  destruct (references_ok d u c) eqn:R; [|discriminate].
  intros [= <- <- <-].
  apply bound_values_spec in E. destruct E as (Hu & Hc & _).
  exists u, c. repeat split; trivial.
Qed.

(** A refused [POST] changed no table; at most the sequence moved on. *)
Lemma post_transactions_failure (d d' : DB) (now : string)
      (body : TransactionBody) (status : Z) (message : string) :
  post_transactions d now body = (d', Failure status message) ->
  status = 500%Z /\ (d' = d \/ d' = draw_id d).
Proof.
  unfold post_transactions.
  destruct (bound_values _ _ _ _ _) as [[[u c] a]|];
    [|intros [= <- <- _]; auto].
  destruct (exhausted _); [intros [= <- <- _]; auto|].
  destruct (not_null_values _ _ _) as [[[a1 ty] dt]|];
    [|intros [= <- <- _]; auto].
  destruct (references_ok d u c); [discriminate|intros [= <- <- _]; auto].
Qed.

Lemma put_transaction_failure (d d' : DB) (id : string)
      (body : TransactionBody) (status : Z) (message : string) :
  put_transaction d id body = (d', Failure status message) -> d' = d.
Proof.
  unfold put_transaction.
  destruct (negb (truthy_str id)); [now intros [= <-]|].
  destruct (int4in id) as [key|]; [|now intros [= <-]].
  destruct (bound_values _ _ _ _ _) as [[[u c] a]|]; [|now intros [= <-]].
  destruct (filter (has_id key) (transactions d)); [now intros [= <-]|].
  destruct (not_null_values _ _ _) as [[[a1 ty] dt]|]; [|now intros [= <-]].
  destruct (references_ok d None c); [discriminate|now intros [= <-]].
Qed.

Lemma delete_transaction_failure (d d' : DB) (id : string) (status : Z)
      (message : string) :
  delete_transaction d id = (d', Failure status message) -> d' = d.
Proof.
  unfold delete_transaction.
  destruct (negb (truthy_str id)); [now intros [= <-]|].
  destruct (int4in id) as [key|]; [|now intros [= <-]].
  destruct (filter (has_id key) (transactions d)); [now intros [= <-]|].
  discriminate.
Qed.

(** A refused signup added no user; the sequence moved on when the email
    was taken. *)
Lemma signup_failure (bcrypt_hash : string -> string) (d d' : DB)
      (now : string) (body : SignupBody) (status : Z) (message : string) :
  signup bcrypt_hash d now body = (d', Failure status message) ->
  d' = d \/ d' = set_users d (users d) (N.succ (users_id_seq d)).
Proof.
  unfold signup.
  destruct (sb_email body) as [em|]; [|intros [= <-]; auto].
  destruct (sb_user_type body) as [ut|]; [|intros [= <-]; auto].
  destruct (sb_password body) as [pw|]; [|intros [= <-]; auto].
  destruct (_ || _ || _); [intros [= <-]; auto|].
  destruct (_ || _); [intros [= <-]; auto|].
  destruct (existsb _ _); [intros [= <-]; auto|discriminate].
Qed.

(** X8.  A request the API refuses changes no table: whenever [POST] or [PUT
    /api/transactions], [DELETE /api/transactions/:id] or [POST /api/signup]
    answers with an error status, the rows of users, categories and
    transactions are those before the request, and no sequence has stepped
    back.  A refused [PUT] or [DELETE] leaves the whole store as it was; a
    refused [POST] is answered 500. *)
Theorem refused_request_keeps_tables (d : DB) :
  (forall now body d' status message,
      post_transactions d now body = (d', Failure status message) ->
      status = 500%Z /\ same_tables d d'
      /\ users_id_seq d' = users_id_seq d
      /\ (transactions_id_seq d <= transactions_id_seq d')%N)
  /\ (forall id body d' status message,
        put_transaction d id body = (d', Failure status message) -> d' = d)
  /\ (forall id d' status message,
        delete_transaction d id = (d', Failure status message) -> d' = d)
  /\ (forall bcrypt_hash now body d' status message,
        signup bcrypt_hash d now body = (d', Failure status message) ->
        same_tables d d'
        /\ transactions_id_seq d' = transactions_id_seq d
        /\ (users_id_seq d <= users_id_seq d')%N).
Proof.
  split; [|split; [|split]].
  - intros now body d' status message E.
    apply post_transactions_failure in E. destruct E as (-> & [->| ->]).
    + repeat split; lia.
    + repeat split; cbn; lia.
  - intros id body d' status message E.
    eapply put_transaction_failure; eassumption.
  - intros id d' status message E.
    eapply delete_transaction_failure; eassumption.
  - intros hash now body d' status message E.
    apply signup_failure in E. destruct E as [->| ->].
    + repeat split; lia.
    + repeat split; cbn; lia.
Qed.

(** A transaction for user 7, who does not exist in the sample store: the
    request is refused, the tables are as before, and the sequence has given
    away the id 4. *)
Lemma refused_request_example :
  let r := post_transactions sample_db "2024-03-01T00:00:00.000Z"
             {| b_user_id := Some "7"; b_amount := Some (num 5);
                b_type := Some expense; b_date := Some (mkDate 2024 Mar 1);
                b_account := None; b_document_no := None;
                b_description := None; b_category_id := None |} in
  same_tables sample_db (fst r)
  /\ transactions_id_seq (fst r) = 5%N.
Proof.
  cbv zeta. split; [|reflexivity].
  destruct (refused_request_keeps_tables sample_db) as (H & _).
  match goal with
  | |- same_tables _ (fst (post_transactions _ ?n ?b)) =>
      apply (H n b _ 500%Z "Internal server error")
  end.
  reflexivity.
Defined.

(** What a successful [PUT] did. *)
Lemma put_transaction_success (d d' : DB) (id : string)
      (body : TransactionBody) (status : Z) (row : Transaction) :
  put_transaction d id body = (d', Success status row) ->
  exists key old rest category a ty dt,
    status = 200%Z /\ int4in id = Some key
    /\ filter (has_id key) (transactions d) = old :: rest
    /\ integer_param (or_null (b_category_id body)) = Some category
    /\ references_ok d None category = true
    /\ d' = set_transactions d
              (filter (fun t => negb (has_id key t)) (transactions d)
               ++ map (put_row body category a ty dt)
                      (filter (has_id key) (transactions d)))%list
    /\ row = with_categories (put_row body category a ty dt old)
               (match category with
                | Some c =>
                    if (c =? 0)%Z then None
                    else join_category d (Some (integer_text c))
                | None => None
                end).
Proof.
  unfold put_transaction.
  destruct (truthy_str id); cbn [negb]; [|discriminate].
  destruct (int4in id) as [key|]; [|discriminate].
  destruct (bound_values _ _ _ _ _) as [[[u c] a]|] eqn:Eb; [|discriminate].
  destruct (filter (has_id key) (transactions d)) as [|old rest] eqn:Ef;
    [discriminate|].
  destruct (not_null_values _ _ _) as [[[a1 ty] dt]|]; [|discriminate].
  destruct (references_ok d None c) eqn:R; [|discriminate].
  intros [= <- <- <-].
  apply bound_values_spec in Eb. destruct Eb as (_ & Hc & _).
  exists key, old, rest, c, a1, ty, dt.
  repeat split; trivial. now rewrite Ef.
Qed.

(** What a successful [DELETE] did. *)
Lemma delete_transaction_success (d d' : DB) (id : string) (status : Z)
      (body : DeleteBody) :
  delete_transaction d id = (d', Success status body) ->
  exists key,
    status = 200%Z /\ int4in id = Some key
    /\ In (delete_transaction_row body) (transactions d)
    /\ tx_id (delete_transaction_row body) = integer_text key
    /\ d' = set_transactions d
              (filter (fun t => negb (has_id key t)) (transactions d)).
Proof.
  unfold delete_transaction.
  destruct (truthy_str id); cbn [negb]; [|discriminate].
  destruct (int4in id) as [key|]; [|discriminate].
  destruct (filter (has_id key) (transactions d)) as [|old rest] eqn:Ef;
    [discriminate|].
  intros [= <- <- <-]. cbn.
  assert (I : In old (filter (has_id key) (transactions d)))
    by (rewrite Ef; now left).
  apply filter_In in I. destruct I as [I Hid].
  exists key. repeat split; trivial. now apply String.eqb_eq.
Qed.

Lemma filter_keeps_distinct (A B : Type) (key : A -> B) (keep : A -> bool)
      (rows : list A) :
  NoDup (map key rows) -> NoDup (map key (filter keep rows)).
Proof.
  intros ND. induction rows as [|x rows IH]; simpl; [constructor|].
  simpl in ND. apply NoDup_cons_iff in ND. destruct ND as [Hn ND].
  destruct (keep x); simpl; auto.
  constructor; auto. intros I. apply Hn.
  apply in_map_iff in I. destruct I as (y & E & Iy).
  apply filter_In in Iy. apply in_map_iff. exists y. tauto.
Qed.

(** The rows a test rejects and the rows it accepts make up the list. *)
Lemma rejected_then_accepted (A : Type) (test : A -> bool) (rows : list A) :
  Permutation (filter (fun x => negb (test x)) rows ++ filter test rows)%list
              rows.
Proof.
  induction rows as [|x rows IH]; simpl; [constructor|].
  destruct (test x); simpl.
  - apply Permutation_sym, Permutation_cons_app. now apply Permutation_sym.
  - now constructor.
Qed.

(** The rows of the store after a [PUT], by their identifiers. *)
Lemma put_rows_ids (body : TransactionBody) (category : option Z) (a : Qc)
      (ty : TxType) (dt : Date) (key : Z) (rows : list Transaction) :
  Permutation
    (map tx_id (filter (fun t => negb (has_id key t)) rows
                ++ map (put_row body category a ty dt)
                       (filter (has_id key) rows))%list)
    (map tx_id rows).
Proof.
  rewrite map_app, map_map. cbn [put_row tx_id].
  rewrite <- map_app. apply Permutation_map, rejected_then_accepted.
Qed.

Lemma post_keys_ok (d : DB) (now : string) (body : TransactionBody) :
  keys_ok d -> keys_ok (fst (post_transactions d now body)).
Proof.
  intros K.
  destruct (post_transactions d now body) as [d' [status row|status msg]]
    eqn:E.
  - apply post_transactions_success in E.
    destruct E as (u & c & _ & _ & _ & _ & Eid & _ & _ & _ & _ & _ & _ & _ & ->).
    cbn.
    pose proof (keys_ok_fresh d) as Fresh. destruct K as [K1 K2].
    split; cbn.
    + intros t I. apply in_app_iff in I. destruct I as [I|[<-|[]]].
      * destruct (K1 t I) as (n & L & En). exists n. split; [lia|exact En].
      * exists (transactions_id_seq d). split; [lia|exact Eid].
    + rewrite map_app. cbn. rewrite Eid.
      apply NoDup_app; [exact K2|repeat constructor; intros []|].
      intros x Ix [<-|[]].
      apply in_map_iff in Ix. destruct Ix as (t & E & I).
      exact (Fresh t (conj K1 K2) I E).
  - apply post_transactions_failure in E. destruct E as (_ & [->| ->]);
      [exact K|].
    destruct K as [K1 K2]. split; cbn; [|exact K2].
    intros t I. destruct (K1 t I) as (n & L & En).
    exists n. split; [lia|exact En].
Qed.

Lemma put_keys_ok (d : DB) (id : string) (body : TransactionBody) :
  keys_ok d -> keys_ok (fst (put_transaction d id body)).
Proof.
  intros K.
  destruct (put_transaction d id body) as [d' [status row|status msg]] eqn:E.
  - apply put_transaction_success in E.
    destruct E as (key & old & rest & c & a & ty & dt
                   & _ & _ & _ & _ & _ & -> & _).
    cbn. destruct K as [K1 K2]. split; cbn.
    + intros t I. apply in_app_iff in I. destruct I as [I|I].
      * apply filter_In in I. apply K1, I.
      * apply in_map_iff in I. destruct I as (t0 & <- & I0).
        apply filter_In in I0. exact (K1 t0 (proj1 I0)).
    + eapply Permutation_NoDup; [|exact K2].
      apply Permutation_sym, put_rows_ids.
  - apply put_transaction_failure in E. now subst.
Qed.

Lemma delete_keys_ok (d : DB) (id : string) :
  keys_ok d -> keys_ok (fst (delete_transaction d id)).
Proof.
  intros K.
  destruct (delete_transaction d id) as [d' [status row|status msg]] eqn:E.
  - apply delete_transaction_success in E.
    destruct E as (key & _ & _ & _ & _ & ->). cbn. destruct K as [K1 K2].
    split; cbn.
    + intros t I. apply filter_In in I. now apply K1.
    + now apply filter_keeps_distinct.
  - apply delete_transaction_failure in E. now subst.
Qed.

(** X9.  Transaction identifiers stay distinct: in a store whose identifiers
    are distinct and below the sequence, they remain so after any [POST],
    [PUT] or [DELETE], and the identifier a successful [POST] returns is not
    the identifier of any row stored before. *)
Theorem store_keys_stay_distinct (d : DB) (K : keys_ok d) :
  (forall now body, keys_ok (fst (post_transactions d now body)))
  /\ (forall id body, keys_ok (fst (put_transaction d id body)))
  /\ (forall id, keys_ok (fst (delete_transaction d id)))
  /\ (forall now body d' status row,
        post_transactions d now body = (d', Success status row) ->
        ~ In (tx_id row) (map tx_id (transactions d))).
Proof.
  split; [|split; [|split]].
  - intros. now apply post_keys_ok.
  - intros. now apply put_keys_ok.
  - intros. now apply delete_keys_ok.
  - intros now body d' status row E.
    apply post_transactions_success in E.
    destruct E as (u & c & _ & _ & _ & _ & -> & _).
    intros I. apply in_map_iff in I. destruct I as (t & E & I).
    exact (keys_ok_fresh d t K I E).
Qed.

Lemma sample_db_keys_ok : keys_ok sample_db.
Proof.
  split.
  - intros t [<-|[<-|[<-|[]]]];
      [exists 1%N|exists 2%N|exists 3%N]; split; reflexivity.
  - cbn. repeat constructor; cbn; intuition discriminate.
Qed.

(** The store after deleting transaction 2 of the sample ledger. *)
Lemma store_keys_example : keys_ok (fst (delete_transaction sample_db "2")).
Proof.
  destruct (store_keys_stay_distinct sample_db sample_db_keys_ok)
    as (_ & _ & H & _).
  apply H.
Defined.

Lemma columns_selected (t : Transaction) (c : option CategoryInfo) :
  columns (selected t c) = columns t.
Proof. reflexivity. Qed.

Lemma columns_with_categories (t : Transaction) (c : option CategoryInfo) :
  columns (with_categories t c) = columns t.
Proof. reflexivity. Qed.

Lemma StronglySorted_impl (A : Type) (R R' : A -> A -> Prop) (l : list A) :
  (forall a b, R a b -> R' a b) -> StronglySorted R l -> StronglySorted R' l.
Proof.
  intros H. induction 1 as [|a l _ IH F]; constructor; trivial.
  eapply Forall_impl; [|exact F]. auto.
Qed.

(** The list of a user whose id reads as an integer. *)
Lemma get_transactions_rows (d : DB) (uid : string) (user : Z) :
  int4in uid = Some user ->
  get_transactions d (Some uid)
  = Success 200
      (Array_sort by_date_desc
         (map (fun t => selected t (join_category d (tx_category_id t)))
              (rows_of user d))).
Proof.
  intros H. unfold get_transactions.
  now rewrite (int4in_nonempty uid user H), H.
Qed.

Lemma listed_perm (d : DB) (l : list Transaction) :
  Permutation
    (map columns
       (Array_sort by_date_desc
          (map (fun t => selected t (join_category d (tx_category_id t))) l)))
    (map columns l).
Proof.
  rewrite (Permutation_map columns (Array_sort_perm _ by_date_desc _)).
  rewrite map_map. now apply Permutation_refl.
Qed.

(** X10.  [GET /api/transactions?user_id=] with a non-empty [user_id]: when
    the text reads as an integer the answer is 200 with exactly the stored
    rows of that user (column by column, each once, without [created_at]),
    later dates first, each carrying the category its [category_id] joins
    to; when it does not, the answer is the handler's 500. *)
Theorem transaction_list_of_user (d : DB) (uid : string)
        (Huid : uid <> "") :
  match int4in uid with
  | Some user =>
      exists rows,
        get_transactions d (Some uid) = Success 200 rows
        /\ Permutation (map columns rows) (map columns (rows_of user d))
        /\ StronglySorted date_desc rows
        /\ Forall (fun t => tx_user_id t = Some (integer_text user)
                            /\ tx_created_at t = None
                            /\ tx_categories t
                               = join_category d (tx_category_id t)) rows
  | None =>
      get_transactions d (Some uid) = Failure 500 "Internal server error"
  end.
Proof.
  destruct (int4in uid) as [user|] eqn:E.
  - eexists. split; [exact (get_transactions_rows d uid user E)|].
    split; [apply listed_perm|]. split.
    + apply (StronglySorted_impl _
               (fun a b => (- getTime (tx_date a) <= - getTime (tx_date b))%Z)).
      * unfold date_desc. intros; lia.
      * apply (Array_sort_sorted _ by_date_desc
                 (fun t => (- getTime (tx_date t))%Z) (fun _ => True)).
        -- intros x y _ _. unfold by_date_desc. f_equal. lia.
        -- apply Forall_forall. trivial.
    + apply Forall_forall. intros t I.
      apply (Permutation_in _ (Array_sort_perm _ by_date_desc _)) in I.
      apply in_map_iff in I. destruct I as (t0 & <- & I0).
      apply filter_In in I0. destruct I0 as [_ O]. unfold owned_by in O.
      cbn [selected tx_user_id tx_created_at tx_categories tx_category_id].
      destruct (tx_user_id t0) as [u|]; [|discriminate].
      apply String.eqb_eq in O. subst u. repeat split.
  - unfold get_transactions.
    now rewrite (truthy_str_nonempty uid Huid), E.
Qed.

(** The list of user 1 of the sample store. *)
Lemma transaction_list_example :
  exists rows,
    get_transactions sample_db (Some "1") = Success 200 rows
    /\ StronglySorted date_desc rows.
Proof.
  assert (H : "1" <> "") by discriminate.
  pose proof (transaction_list_of_user sample_db "1" H) as L.
  change (int4in "1") with (Some 1%Z) in L.
  destruct L as (rows & E & _ & S & _).
  exists rows. split; assumption.
Defined.

Lemma rows_of_post (d : DB) (row : Transaction) (user : Z) :
  filter (owned_by user) (transactions d ++ [row])%list
  = (rows_of user d ++ (if owned_by user row then [row] else []))%list.
Proof.
  unfold rows_of. rewrite filter_app. cbn.
  now destruct (owned_by user row).
Qed.

(** X11.  What is posted is listed: after a successful [POST] the list of a
    user (a [user_id] that reads as an integer) is the list before plus, for
    the user the row belongs to, the new row; the row has the user the
    request's [user_id] reads as (none when the request has none), the type
    and date of the request and its amount rounded to the column's scale. *)
Theorem posted_transaction_is_listed
        (d d' : DB) (now : string) (body : TransactionBody)
        (row : Transaction) (uid : string) (user : Z)
        (Hpost : post_transactions d now body = (d', Success 201 row))
        (Huid : int4in uid = Some user) :
  exists rows rows',
    get_transactions d (Some uid) = Success 200 rows
    /\ get_transactions d' (Some uid) = Success 200 rows'
    /\ Permutation (map columns rows')
         (map columns rows
          ++ (if owned_by user row then [columns row] else []))%list
    /\ (exists u, integer_param (b_user_id body) = Some u
                  /\ tx_user_id row = option_map integer_text u)
    /\ b_type body = Some (tx_type row)
    /\ b_date body = Some (tx_date row)
    /\ exists a, b_amount body = Some a
                 /\ numeric_15_2 a = Some (tx_amount row).
Proof.
  eexists. eexists.
  split; [exact (get_transactions_rows d uid user Huid)|].
  split; [exact (get_transactions_rows d' uid user Huid)|].
  split.
  - rewrite !listed_perm.
    apply post_transactions_success in Hpost.
    destruct Hpost as (u & c & _ & _ & _ & _ & _ & _ & _ & _ & _ & _ & _ & _
                       & ->).
    unfold rows_of at 1. cbn [transactions set_transactions].
    rewrite rows_of_post, map_app.
    apply Permutation_app_head.
    destruct (owned_by user row); apply Permutation_refl.
  - pose proof (post_transactions_success _ _ _ _ _ _ Hpost)
      as (u & c & _ & Hu & _ & _ & _ & Eu & _).
    split; [now exists u|].
    revert Hpost. unfold post_transactions.
    destruct (bound_values _ _ _ _ _) as [[[u' c'] a]|] eqn:Eb;
      [|discriminate].
    destruct (exhausted _); [discriminate|].
    destruct (not_null_values _ _ _) as [[[a1 ty] dt]|] eqn:En;
      [|discriminate].
    destruct (references_ok d u' c'); [|discriminate].
    intros [= _ <-]. cbn.
    apply bound_values_spec in Eb. destruct Eb as (_ & _ & Ha & _).
    apply not_null_values_spec in En. destruct En as (-> & -> & ->).
    apply amount_param_Some in Ha. repeat split. exact Ha.
Qed.

(** A transaction posted for user 1 of the sample store is in the list of
    user 1 afterwards. *)
Lemma posted_transaction_example :
  let r := post_transactions sample_db "2024-03-01T00:00:00.000Z"
                             negative_body in
  exists rows', get_transactions (fst r) (Some "1") = Success 200 rows'.
Proof.
  cbv zeta.
  destruct (post_transactions sample_db "2024-03-01T00:00:00.000Z"
                              negative_body)
    as [d' [status row|status m]] eqn:E;
    [|vm_compute in E; discriminate E].
  pose proof (post_transactions_success _ _ _ _ _ _ E) as (? & ? & -> & _).
  assert (H1 : int4in "1" = Some 1%Z) by reflexivity.
  destruct (posted_transaction_is_listed _ _ _ _ _ "1" 1%Z E H1)
    as (rows & rows' & _ & E2 & _).
  exists rows'. exact E2.
Defined.

(** In a list with distinct identifiers one row at most has a given id. *)
Lemma one_row_per_key (key : Z) (l : list Transaction) (old : Transaction)
      (rest : list Transaction) :
  NoDup (map tx_id l) -> filter (has_id key) l = old :: rest -> rest = [].
Proof.
  intros ND Ef.
  assert (NDf : NoDup (map tx_id (filter (has_id key) l)))
    by now apply filter_keeps_distinct.
  rewrite Ef in NDf. destruct rest as [|x rest]; trivial.
  assert (Ix : In x (filter (has_id key) l))
    by (rewrite Ef; right; now left).
  assert (Io : In old (filter (has_id key) l)) by (rewrite Ef; now left).
  apply filter_In in Ix, Io. destruct Ix as [_ Hx], Io as [_ Ho].
  apply String.eqb_eq in Hx, Ho.
  cbn in NDf. apply NoDup_cons_iff in NDf. destruct NDf as [Hn _].
  elim Hn. left. congruence.
Qed.

(** X12.  A successful [PUT] changes one row only.  In a store with distinct
    identifiers the id reads as an integer, exactly one stored row has it,
    and the rows after the request are the other rows, unchanged, and the
    new version of that row (the store keeps no position for it): the row
    keeps its identifier, user and creation time, the reply carries the
    category the new [category_id] joins to (none for a missing one and for
    0), and users, categories and the sequences are untouched. *)
Theorem put_changes_only_its_row
        (d d' : DB) (id : string) (body : TransactionBody) (row : Transaction)
        (K : keys_ok d)
        (Hput : put_transaction d id body = (d', Success 200 row)) :
  exists key old,
    int4in id = Some key
    /\ In old (transactions d) /\ tx_id old = integer_text key
    /\ Permutation (transactions d)
         (old :: filter (fun t => negb (has_id key t)) (transactions d))
    /\ Permutation (transactions d')
         (with_categories row None
          :: filter (fun t => negb (has_id key t)) (transactions d))
    /\ tx_id row = tx_id old
    /\ tx_user_id row = tx_user_id old
    /\ tx_created_at row = tx_created_at old
    /\ (tx_category_id row <> Some "0" ->
        tx_categories row = join_category d (tx_category_id row))
    /\ users d' = users d /\ categories d' = categories d
    /\ users_id_seq d' = users_id_seq d
    /\ transactions_id_seq d' = transactions_id_seq d.
Proof.
  apply put_transaction_success in Hput.
  destruct Hput as (key & old & rest & c & a & ty & dt
                    & _ & Hkey & Ef & _ & _ & -> & ->).
  destruct K as [_ ND].
  pose proof (one_row_per_key key _ old rest ND Ef) as ->.
  assert (Io : In old (filter (has_id key) (transactions d)))
    by (rewrite Ef; now left).
  apply filter_In in Io. destruct Io as [Io Ho]. apply String.eqb_eq in Ho.
  exists key, old.
  split; [exact Hkey|]. split; [exact Io|]. split; [exact Ho|]. split.
  { pose proof (rejected_then_accepted _ (has_id key) (transactions d)) as P.
    rewrite Ef in P. apply Permutation_sym in P.
    eapply Permutation_trans; [exact P|].
    apply Permutation_sym, Permutation_cons_append. }
  split.
  { cbn [transactions set_transactions]. rewrite Ef. cbn [map].
    apply Permutation_sym, Permutation_cons_append. }
  cbn. repeat split; trivial.
  intros Hz. destruct c as [c|]; cbn in *; trivial.
  destruct (Z.eqb_spec c 0) as [->|_]; [now elim Hz|reflexivity].
Qed.

(** Transaction 2 of the sample ledger, updated. *)
Lemma put_changes_example :
  exists old row,
    In old (transactions sample_db)
    /\ Permutation
         (transactions (fst (put_transaction sample_db "2" negative_body)))
         (with_categories row None
          :: filter (fun t => negb (has_id 2 t)) (transactions sample_db))
    /\ tx_created_at row = tx_created_at old.
Proof.
  destruct (put_transaction sample_db "2" negative_body)
    as [d' [status row|status m]] eqn:E;
    [|vm_compute in E; discriminate E].
  pose proof (put_transaction_success _ _ _ _ _ _ E)
    as (? & ? & ? & ? & ? & ? & ? & -> & _).
  destruct (put_changes_only_its_row _ _ _ _ _ sample_db_keys_ok E)
    as (key & old & Hk & E1 & _ & _ & E2 & _ & _ & E3 & _).
  change (int4in "2") with (Some 2%Z) in Hk. injection Hk as <-.
  exists old, row. repeat split; assumption.
Defined.

End StoreFacts.

(* ------------------------------------------------------------------ *)
(** ** Accounts: login and signup *)
(* ------------------------------------------------------------------ *)

Section AccountFacts.
Import JS JSDate Http Server Client Shape.
Local Open Scope string_scope.

Lemma truthy_str_true (s : string) : truthy_str s = true -> s <> "".
Proof. destruct s; [discriminate|discriminate]. Qed.

Lemma filter_email_In (d : DB) (em : string) (u : UserRow)
      (rest : list UserRow) :
  filter (fun u => String.eqb (u_email u) em) (users d) = u :: rest ->
  In u (users d) /\ u_email u = em.
Proof.
  intros E.
  assert (I : In u (filter (fun u => String.eqb (u_email u) em) (users d)))
    by (rewrite E; now left).
  apply filter_In in I. destruct I as [I H]. apply String.eqb_eq in H. auto.
Qed.

(** What a successful login did. *)
Lemma login_success (bcrypt_compare : string -> string -> bool) (d : DB)
      (email password : option string) (status : Z) (body : LoginBody) :
  login bcrypt_compare d email password = Success status body ->
  status = 200%Z
  /\ exists em pw u,
       email = Some em /\ password = Some pw
       /\ In u (users d) /\ u_email u = em
       /\ bcrypt_compare pw (u_password u) = true
       /\ login_user body = omit "password" (user_object u).
Proof.
  unfold login.
  destruct email as [em|]; [|discriminate].
  destruct password as [pw|]; [|discriminate].
  destruct (negb (truthy_str em) || negb (truthy_str pw)); [discriminate|].
  destruct (filter _ (users d)) as [|u rest] eqn:Ef; [discriminate|].
  destruct (bcrypt_compare pw (u_password u)) eqn:Ec; [|discriminate].
  intros [= <- <-]. split; trivial.
  destruct (filter_email_In d em u rest Ef) as [I E].
  exists em, pw, u. repeat split; trivial.
Qed.

Lemma filter_email_none (em : string) (l : list UserRow) :
  existsb (fun u => String.eqb (u_email u) em) l = false ->
  filter (fun u => String.eqb (u_email u) em) l = [].
Proof.
  induction l as [|u l IH]; simpl; trivial.
  destruct (String.eqb (u_email u) em); simpl; [discriminate|exact IH].
Qed.

(** What a successful signup did. *)
Lemma signup_success (bcrypt_hash : string -> string) (d d' : DB)
      (now : string) (body : SignupBody) (status : Z) (reply : JsonObject) :
  signup bcrypt_hash d now body = (d', Success status reply) ->
  exists em ut pw row,
    sb_email body = Some em /\ sb_user_type body = Some ut
    /\ sb_password body = Some pw
    /\ em <> "" /\ pw <> ""
    /\ existsb (fun u => String.eqb (u_email u) em) (users d) = false
    /\ row = {| u_id := serial (users_id_seq d);
                u_name := or_null (sb_name body);
                u_email := em;
                u_user_type := ut;
                u_organization_name := or_null (sb_organization_name body);
                u_organization_id := or_null (sb_organization_id body);
                u_password := bcrypt_hash pw;
                u_created_at := now |}
    /\ users d' = (users d ++ [row])%list
    /\ transactions d' = transactions d /\ categories d' = categories d
    /\ status = 201%Z
    /\ reply = returning ["id"; "name"; "email"; "user_type";
                          "organization_name"; "organization_id"]
                         (user_object row).
Proof.
  unfold signup.
  destruct (sb_email body) as [em|]; [|discriminate].
  destruct (sb_user_type body) as [ut|]; [|discriminate].
  destruct (sb_password body) as [pw|]; [|discriminate].
  destruct (truthy_str em) eqn:Em; cbn [negb orb]; [|discriminate].
  destruct (truthy_str ut) eqn:Eu; cbn [negb orb]; [|discriminate].
  destruct (truthy_str pw) eqn:Ep; cbn [negb orb]; [|discriminate].
  destruct (_ || _); [discriminate|].
  destruct (existsb _ (users d)) eqn:Ex; [discriminate|].
  intros [= <- <- <-].
  apply truthy_str_true in Em, Ep.
  eexists em, ut, pw, _. repeat split; trivial.
Qed.

(** X14.  Signup, then login: when [bcrypt.compare] accepts a password against
    its own hash, the email and password of a successful signup log in on
    the resulting store and give the user the signup returned (same id and
    email); a password the hash rejects is refused. *)
Theorem signup_then_login
        (bcrypt_hash : string -> string)
        (bcrypt_compare : string -> string -> bool)
        (d d' : DB) (now : string) (body : SignupBody) (reply : JsonObject)
        (Hbcrypt : forall pw, bcrypt_compare pw (bcrypt_hash pw) = true)
        (Hsignup : signup bcrypt_hash d now body = (d', Success 201 reply)) :
  exists em pw session,
    sb_email body = Some em /\ sb_password body = Some pw
    /\ login bcrypt_compare d' (Some em) (Some pw) = Success 200 session
    /\ Map_get (login_user session) "id" = Map_get reply "id"
    /\ Map_get (login_user session) "email" = Some (JString em)
    /\ Map_get reply "email" = Some (JString em)
    /\ (forall pw', bcrypt_compare pw' (bcrypt_hash pw) = false ->
                    login bcrypt_compare d' (Some em) (Some pw')
                    = Failure 400 (if truthy_str pw'
                                   then "Invalid email or password"
                                   else "Email and password are required")).
Proof.
  apply signup_success in Hsignup.
  destruct Hsignup
    as (em & ut & pw & row & Ee & _ & Ep & Nem & Npw & Ex & Er & Eu & _ & _
        & _ & ->).
  assert (Ef : filter (fun u => String.eqb (u_email u) em) (users d')
               = [row]).
  { rewrite Eu, filter_app, (filter_email_none _ _ Ex). cbn.
    rewrite Er. cbn. now rewrite String.eqb_refl. }
  exists em, pw. eexists. split; [exact Ee|]. split; [exact Ep|].
  split; [|split; [|split; [|split]]].
  - unfold login.
    rewrite (truthy_str_nonempty em Nem), (truthy_str_nonempty pw Npw).
    cbn [negb orb]. rewrite Ef.
    replace (u_password row) with (bcrypt_hash pw) by (now rewrite Er).
    rewrite Hbcrypt. reflexivity.
  - rewrite Er. reflexivity.
  - rewrite Er. reflexivity.
  - rewrite Er. reflexivity.
  - intros pw' Hw. unfold login.
    rewrite (truthy_str_nonempty em Nem). cbn [negb orb].
    destruct (truthy_str pw'); cbn [negb]; trivial.
    rewrite Ef.
    replace (u_password row) with (bcrypt_hash pw) by (now rewrite Er).
    now rewrite Hw.
Qed.

Lemma existsb_email_In (em : string) (l : list UserRow) :
  existsb (fun u => String.eqb (u_email u) em) l = true
  <-> In em (map u_email l).
Proof.
  rewrite existsb_exists, in_map_iff.
  split; intros (u & H1 & H2); exists u.
  - apply String.eqb_eq in H2. auto.
  - split; [tauto|]. apply String.eqb_eq. tauto.
Qed.

(** X15.  Emails stay unique: a signup keeps the emails of the stored users
    distinct, and a signup with an email already stored is refused and adds
    no user: the tables are as before, and so is the store but for the id
    the sequence may have given away. *)
Theorem signup_keeps_emails_unique (bcrypt_hash : string -> string)
        (d : DB) (now : string) (body : SignupBody) (U : emails_unique d) :
  emails_unique (fst (signup bcrypt_hash d now body))
  /\ (forall em, sb_email body = Some em -> In em (map u_email (users d)) ->
                 exists d' status message,
                   signup bcrypt_hash d now body
                   = (d', Failure status message)
                   /\ same_tables d d'
                   /\ transactions_id_seq d' = transactions_id_seq d
                   /\ (users_id_seq d' = users_id_seq d
                       \/ users_id_seq d' = N.succ (users_id_seq d))).
Proof.
  split.
  - destruct (signup bcrypt_hash d now body) as [d' [status reply|status m]]
      eqn:E.
    + apply signup_success in E.
      destruct E as (em & ut & pw & row & _ & _ & _ & _ & _ & Ex & Er & Eu & _).
      unfold emails_unique. cbn. rewrite Eu, map_app. cbn.
      apply NoDup_app; [exact U|repeat constructor; intros []|].
      intros x Ix [<-|[]].
      assert (T : existsb (fun u => String.eqb (u_email u) em) (users d)
                  = true).
      { apply existsb_email_In. now rewrite Er in Ix. }
      congruence.
    + apply signup_failure in E. destruct E as [->| ->]; exact U.
  - intros em Ee I.
    destruct (signup bcrypt_hash d now body) as [d' [status reply|status m]]
      eqn:E.
    + apply signup_success in E.
      destruct E as (em' & ut & pw & row & Ee' & _ & _ & _ & _ & Ex & _).
      rewrite Ee in Ee'. injection Ee' as <-.
      apply existsb_email_In in I. congruence.
    + exists d', status, m. split; [reflexivity|].
      apply signup_failure in E. destruct E as [->| ->]; cbn.
      * repeat split. now left.
      * repeat split. now right.
Qed.

Lemma sample_compare_hash (pw : string) :
  sample_compare pw (sample_hash pw) = true.
Proof. apply String.eqb_refl. Qed.

(** The sample signup, then a login with the same password. *)
Lemma signup_then_login_example :
  let d' := fst (signup sample_hash sample_db "2024-03-01T00:00:00.000Z"
                        sample_signup) in
  exists session,
    login sample_compare d' (Some "dorj@example.mn") (Some "hunter2")
    = Success 200 session.
Proof.
  cbv zeta.
  destruct (signup sample_hash sample_db "2024-03-01T00:00:00.000Z"
                   sample_signup)
    as [d' [status reply|status m]] eqn:E;
    [|vm_compute in E; discriminate E].
  pose proof (signup_success _ _ _ _ _ _ _ E)
    as (? & ? & ? & ? & _ & _ & _ & _ & _ & _ & _ & _ & _ & _ & -> & _).
  destruct (signup_then_login sample_hash sample_compare _ _ _ _ _
              sample_compare_hash E)
    as (em & pw & session & Ee & Ep & El & _).
  injection Ee as <-. injection Ep as <-.
  exists session. exact El.
Defined.

Lemma sample_db_emails_unique : emails_unique sample_db.
Proof. repeat constructor. intros []. Qed.

Lemma signup_keeps_emails_unique_example :
  emails_unique (fst (signup sample_hash sample_db
                             "2024-03-01T00:00:00.000Z" sample_signup)).
Proof.
  destruct (signup_keeps_emails_unique sample_hash sample_db
              "2024-03-01T00:00:00.000Z" sample_signup
              sample_db_emails_unique) as [H _].
  exact H.
Defined.

End AccountFacts.

(* ------------------------------------------------------------------ *)
(** ** The category list *)
(* ------------------------------------------------------------------ *)

Section CategoryListFacts.
Import JS JSDate Http Server Client Shape CategoryList.
Local Open Scope string_scope.

(** X16.  The category list a form asks for holds exactly the stored
    categories of that type, in storage order: no category is in both the
    income and the expense list, a category of type [both] is in neither,
    and an empty type gives every category. *)
Theorem categories_of_exactly_one_type (d : DB) (ty : TxType) :
  sys_Categories (type_name ty) d
  = filter (fun c => String.eqb (cat_type c) (type_name ty)) (categories d)
  /\ (forall c, In c (sys_Categories (type_name ty) d) <->
                In c (categories d) /\ cat_type c = type_name ty)
  /\ (forall c, In c (sys_Categories "income" d) ->
                ~ In c (sys_Categories "expense" d))
  /\ (forall c, cat_type c = "both" ->
                ~ In c (sys_Categories (type_name ty) d))
  /\ sys_Categories "" d = categories d.
Proof.
  assert (E : forall ty',
             sys_Categories (type_name ty') d
             = filter (fun c => String.eqb (cat_type c) (type_name ty'))
                      (categories d)).
  { intros ty'. destruct ty'; reflexivity. }
  assert (M : forall ty' c,
             In c (sys_Categories (type_name ty') d) <->
             In c (categories d) /\ cat_type c = type_name ty').
  { intros ty' c. rewrite E, filter_In, String.eqb_eq. tauto. }
  split; [apply E|]. split; [apply M|]. split; [|split].
  - intros c Hi He. apply (M income) in Hi. apply (M expense) in He.
    destruct Hi as [_ Hi]. destruct He as [_ He]. rewrite Hi in He.
    discriminate He.
  - intros c Hb I. apply M in I. destruct I as [_ I]. rewrite Hb in I.
    destruct ty; discriminate I.
  - reflexivity.
Qed.

(** A failed fetch of the categories gives the empty list. *)
Lemma Categories_failed (res : FetchResult (list CategoryRow)) :
  failed res -> Categories res = [].
Proof.
  intros [->|[(st & m & ->)| ->]]; reflexivity.
Qed.

(** The expense categories of the sample store. *)
Lemma categories_example :
  map cat_name (sys_Categories "expense" sample_db) = ["Food"].
Proof.
  destruct (categories_of_exactly_one_type sample_db expense) as [E _].
  change (type_name expense) with "expense" in E. rewrite E. reflexivity.
Defined.

End CategoryListFacts.

(* ------------------------------------------------------------------ *)
(** ** Cache and store *)
(* ------------------------------------------------------------------ *)

Section StepFacts.
Import JS JSDate Http Server Client Shape.
Local Open Scope string_scope.

Lemma System_eta (s : System) :
  {| backend := backend s; db := db s; cache := cache s |} = s.
Proof. now destruct s. Qed.

Lemma route_put_failure (b : Backend) (d d' : DB) (id : string)
      (body : TransactionBody) (status : Z) (message : string) :
  route_put b d id body = (d', Failure status message) -> d' = d.
Proof.
  destruct b; cbn.
  - now intros [= <-].
  - destruct (truthy_str id); [apply put_transaction_failure|].
    now intros [= <-].
Qed.

Lemma route_delete_failure (b : Backend) (d d' : DB) (id : string)
      (status : Z) (message : string) :
  route_delete b d id = (d', Failure status message) -> d' = d.
Proof.
  destruct b; cbn.
  - now intros [= <-].
  - destruct (truthy_str id); [apply delete_transaction_failure|].
    now intros [= <-].
Qed.

(** A client call that throws the error of a reply was refused by the
    handler; any other outcome that is not ok means [fetch] rejected. *)
Lemma exchange_NotOk (A : Type) (net : Delivery) (d d' : DB)
      (served : DB * Reply A) (status : Z) (message : string) :
  exchange net d served = (d', NotOk status message) ->
  net = Delivered /\ served = (d', Failure status message).
Proof.
  destruct served as [d1 [st body|st msg]], net; cbn; try discriminate.
  now intros [= <- <- <-].
Qed.

Lemma same_tables_refl (d : DB) : same_tables d d.
Proof. repeat split. Qed.

(** X17.  A client operation that throws leaves the cache as it was.  When
    what it throws is the error of a reply, the tables of the store are as
    they were too, and after [updateTransaction] and [deleteTransaction]
    the whole store; when the request never reached the server the store is
    as it was.  (A call whose reply was lost throws as well, and then the
    server may have done what was asked.) *)
Theorem thrown_operation_keeps_cache (s : System) (net : Delivery) :
  (forall now input s' problem,
      sys_addTransaction net now input s = (s', Thrown problem) ->
      cache s' = cache s
      /\ (forall status message, problem = HttpProblem status message ->
                                 same_tables (db s) (db s'))
      /\ (net = RequestLost -> s' = s))
  /\ (forall tx s' problem,
        sys_updateTransaction net tx s = (s', Thrown problem) ->
        cache s' = cache s
        /\ (forall status message, problem = HttpProblem status message ->
                                   s' = s)
        /\ (net = RequestLost -> s' = s))
  /\ (forall id s' problem,
        sys_deleteTransaction net id s = (s', Thrown problem) ->
        cache s' = cache s
        /\ (forall status message, problem = HttpProblem status message ->
                                   s' = s)
        /\ (net = RequestLost -> s' = s)).
Proof.
  split; [|split].
  - intros now input s' problem. unfold sys_addTransaction.
    destruct (exchange net (db s) _) as [d' res] eqn:E.
    destruct res as [|[row|]|st m]; cbn; try discriminate;
      intros [= <- <-]; cbn [cache db]; (split; [reflexivity|]); split;
      try discriminate.
    + intros ->. cbn in E. injection E as <-. apply System_eta.
    + intros ->. cbn in E. injection E as <-. apply System_eta.
    + intros status message [= <- <-].
      apply exchange_NotOk in E. destruct E as [_ E].
      apply post_transactions_failure in E.
      destruct E as (_ & [->| ->]); repeat split.
    + intros ->. cbn in E. discriminate.
  - intros tx s' problem. unfold sys_updateTransaction.
    destruct (exchange net (db s) _) as [d' res] eqn:E.
    destruct res as [|[row|]|st m]; cbn; try discriminate;
      intros [= <- <-]; cbn [cache db]; (split; [reflexivity|]); split;
      try discriminate.
    + intros ->. cbn in E. injection E as <-. apply System_eta.
    + intros ->. cbn in E. injection E as <-. apply System_eta.
    + intros status message [= <- <-].
      apply exchange_NotOk in E. destruct E as [_ E].
      apply route_put_failure in E. subst d'. apply System_eta.
    + intros ->. cbn in E. discriminate.
  - intros id s' problem. unfold sys_deleteTransaction.
    destruct (exchange net (db s) _) as [d' res] eqn:E.
    destruct res as [|row|st m]; cbn; try discriminate;
      intros [= <- <-]; cbn [cache db]; (split; [reflexivity|]); split;
      try discriminate.
    + intros ->. cbn in E. injection E as <-. apply System_eta.
    + intros status message [= <- <-].
      apply exchange_NotOk in E. destruct E as [_ E].
      apply route_delete_failure in E. subst d'. apply System_eta.
    + intros ->. cbn in E. discriminate.
Qed.

(** A delete sent to the backend without the route. *)
Lemma thrown_operation_example :
  fst (sys_deleteTransaction Delivered "2" (sample_system Basic))
  = sample_system Basic.
Proof.
  destruct (thrown_operation_keeps_cache (sample_system Basic) Delivered)
    as (_ & _ & H).
  destruct (H "2" _
              (HttpProblem 404 "Route DELETE /api/transactions/2 not found")
              eq_refl) as (_ & H' & _).
  exact (H' _ _ eq_refl).
Defined.


Lemma key_determines_row (l : list Transaction) (a b : Transaction) :
  NoDup (map tx_id l) -> In a l -> In b l -> tx_id a = tx_id b -> a = b.
Proof.
  induction l as [|x l IH]; simpl; intros ND Ia Ib E; [easy|].
  inversion ND as [|? ? Hn ND']; subst.
  destruct Ia as [<-|Ia], Ib as [<-|Ib]; trivial.
  - elim Hn. rewrite E. now apply in_map.
  - elim Hn. rewrite <- E. now apply in_map.
  - now apply IH.
Qed.











End StepFacts.

(* ------------------------------------------------------------------ *)
(** ** The forms and the API *)
(* ------------------------------------------------------------------ *)

Section FormFacts.
Import JS JSDate Http Server Client Shape EditPage.
Local Open Scope string_scope.

(** [trim] removes the no-break space as it removes the space. *)
Lemma trim_no_break_space :
  trim (String (ascii_of_nat 160) ("Cash" ++ String (ascii_of_nat 160) " "))
  = "Cash".
Proof. reflexivity. Qed.

Lemma trimmed_max_Some (n : nat) (field : option string) (v : string) :
  trimmed_max n field = Some v ->
  exists s, field = Some s /\ v = trim s /\ (String.length v <= n)%nat.
Proof.
  destruct field as [s|]; cbn; [|discriminate].
  destruct (Nat.leb_spec (String.length (trim s)) n); [|discriminate].
  intros [= <-]. now exists s.
Qed.

(** What the schema lets through, field by field. *)
Lemma transactionSchema_Some (i : SchemaInput) (v : Validated) :
  transactionSchema i = Some v ->
  in_amount i = Some (v_amount v) /\ (0 < v_amount v)%Qc
  /\ in_date i = Some (v_date v)
  /\ v_type v = in_type i
  /\ v_category_id v = in_category_id i /\ in_category_id i <> ""
  /\ (exists s, in_account i = Some s /\ v_account v = trim s
                /\ (String.length (v_account v) <= 100)%nat)
  /\ (exists s, in_document_no i = Some s /\ v_document_no v = trim s
                /\ (String.length (v_document_no v) <= 50)%nat)
  /\ (exists s, in_description i = Some s /\ v_description v = trim s
                /\ (String.length (v_description v) <= 500)%nat).
Proof.
  unfold transactionSchema.
  destruct (in_amount i) as [a|]; [|discriminate].
  destruct (in_date i) as [dt|]; [|discriminate].
  destruct (trimmed_max 100 _) as [acc|] eqn:Ea; [|discriminate].
  destruct (trimmed_max 50 _) as [doc|] eqn:Ed; [|discriminate].
  destruct (trimmed_max 500 _) as [desc|] eqn:Es; [|discriminate].
  destruct (Qle_bool a 0) eqn:Eq; [discriminate|].
  destruct (truthy_str (in_category_id i)) eqn:Ec; cbn [negb]; [|discriminate].
  intros [= <-]. cbn.
  apply trimmed_max_Some in Ea, Ed, Es.
  repeat split; trivial.
  - apply Qcnot_le_lt. intros L. change (this a <= 0)%Q in L.
    apply Qle_bool_iff in L. congruence.
  - now apply truthy_str_true.
Qed.

Lemma schema_refuses_null (i : SchemaInput) :
  in_account i = None \/ in_document_no i = None \/ in_description i = None ->
  transactionSchema i = None.
Proof.
  intros H. destruct (transactionSchema i) as [v|] eqn:E; trivial.
  apply transactionSchema_Some in E.
  destruct E as (_ & _ & _ & _ & _ & _ & (s1 & E1 & _) & (s2 & E2 & _)
                 & (s3 & E3 & _)).
  destruct H as [H|[H|H]]; congruence.
Qed.







Lemma edit_needs_schema (id now : string) (f : EditForm)
      (txs : list Transaction) :
  transactionSchema
    {| in_type := ef_type f; in_amount := ef_amount f; in_date := ef_date f;
       in_category_id := or_str (ef_category_id f) "";
       in_account := ef_account f; in_document_no := ef_document_no f;
       in_description := Some (or_str (ef_description f) "") |} = None ->
  EditTransaction_handleSubmit id now f txs = None.
Proof.
  intros H. unfold EditTransaction_handleSubmit. now rewrite H.
Qed.

(** X21.  What the edit form refuses: a form whose account or document
    number is null (so the form loaded from a transaction stored without
    one), a form whose amount field did not parse, and a form whose type was
    just changed are not submitted; what is submitted has the page's id, a
    positive amount, a category, and the joined category of the cached
    record. *)
Theorem edit_form_refusals (id now : string) (txs : list Transaction) :
  (forall f, ef_account f = None \/ ef_document_no f = None ->
             EditTransaction_handleSubmit id now f txs = None)
  /\ (forall tx, tx_account tx = None \/ tx_document_no tx = None ->
                 EditTransaction_handleSubmit id now (loadForm tx) txs = None)
  /\ (forall f,
        EditTransaction_handleSubmit id now (handleAmountChange None f) txs
        = None)
  /\ (forall ty f,
        EditTransaction_handleSubmit id now (handleTypeChange ty f) txs
        = None)
  /\ (forall f tx', EditTransaction_handleSubmit id now f txs = Some tx' ->
                    tx_id tx' = id
                    /\ (0 < tx_amount tx')%Qc
                    /\ (exists c, tx_category_id tx' = Some c /\ c <> "")
                    /\ exists old, In old txs /\ tx_id old = id
                                   /\ tx_categories tx' = tx_categories old).
Proof.
  assert (R : forall f, ef_account f = None \/ ef_document_no f = None ->
                        EditTransaction_handleSubmit id now f txs = None).
  { intros f H. apply edit_needs_schema, schema_refuses_null. cbn. tauto. }
  split; [exact R|]. split; [|split; [|split]].
  - intros tx H. apply R. exact H.
  - intros f. apply edit_needs_schema.
    destruct (transactionSchema _) as [v|] eqn:Ev; trivial.
    apply transactionSchema_Some in Ev. cbn in Ev.
    destruct Ev as ([= Ea] & Hpos & _). rewrite <- Ea in Hpos.
    discriminate Hpos.
  - intros ty f. apply edit_needs_schema.
    destruct (transactionSchema _) as [v|] eqn:Ev; trivial.
    apply transactionSchema_Some in Ev. cbn in Ev.
    destruct Ev as (_ & _ & _ & _ & _ & Nc & _). now elim Nc.
  - intros f tx'. unfold EditTransaction_handleSubmit.
    destruct (transactionSchema _) as [v|] eqn:Ev; [|discriminate].
    apply transactionSchema_Some in Ev. cbn in Ev.
    destruct Ev as (_ & Hpos & _ & _ & Ec & Nc & _).
    destruct (find _ txs) as [old|] eqn:Ef; [|discriminate].
    intros [= <-]. cbn. apply find_some in Ef. destruct Ef as [I E].
    apply String.eqb_eq in E.
    repeat split; trivial.
    + exists (v_category_id v). split; trivial. now rewrite Ec.
    + now exists old.
Qed.

(** X22.  A transaction added with a blank account or a blank document number
    is stored with null there, and the edit form loaded from it is refused
    by the schema, whatever the cache holds. *)
Theorem added_with_blank_text_cannot_be_edited
        (d d' : DB) (u : User) (form : AddForm) (input : TransactionInput)
        (now : string) (row : Transaction)
        (Hsubmit : AddTransaction_handleSubmit (Some u) form = Some input)
        (Hpost : post_transactions d now input = (d', Success 201 row))
        (Hblank : trim (af_account form) = ""
                  \/ trim (af_document_no form) = "") :
  (tx_account row = None \/ tx_document_no row = None)
  /\ forall id now' txs,
       EditTransaction_handleSubmit id now' (loadForm row) txs = None.
Proof.
  assert (H : tx_account row = None \/ tx_document_no row = None).
  { revert Hsubmit Hpost. unfold AddTransaction_handleSubmit.
    destruct (transactionSchema _) as [v|] eqn:Ev; [|discriminate].
    apply transactionSchema_Some in Ev. cbn in Ev.
    destruct Ev as (_ & _ & _ & _ & _ & _ & (s1 & [= <-] & E1 & _)
                    & (s2 & [= <-] & E2 & _) & _).
    destruct (truthy_str _); cbn [negb]; [|discriminate].
    intros [= <-] Hpost.
    apply post_transactions_success in Hpost.
    destruct Hpost as (user & category & _ & _ & _ & _ & _ & _ & _ & Hacc
                       & Hdoc & _).
    rewrite Hacc, Hdoc.
    cbn [b_account b_document_no]. rewrite E1, E2.
    destruct Hblank as [-> | ->]; [left|right]; reflexivity. }
  split; [exact H|].
  intros id now' txs. apply edit_needs_schema, schema_refuses_null.
  cbn. tauto.
Qed.

(** The sample add form leaves the document number blank. *)
Lemma added_with_blank_text_example :
  match AddTransaction_handleSubmit (Some (mkUser "1" "bat@example.mn"))
                                    sample_add_form with
  | Some input =>
      let row := match snd (post_transactions sample_db
                              "2024-03-01T00:00:00.000Z" input) with
                 | Success _ row => row
                 | Failure _ _ => sample_row "0" 0 income (mkDate 2024 Jan 1)
                 end in
      EditTransaction_handleSubmit "4" "2024-03-02T00:00:00.000Z"
                                   (loadForm row) [row] = None
  | None => False
  end.
Proof.
  destruct (AddTransaction_handleSubmit (Some (mkUser "1" "bat@example.mn"))
                                        sample_add_form)
    as [input|] eqn:E; [|vm_compute in E; discriminate E].
  cbv zeta.
  destruct (post_transactions sample_db "2024-03-01T00:00:00.000Z" input)
    as [d' [status row|status m]] eqn:Ep.
  - pose proof (post_transactions_success _ _ _ _ _ _ Ep)
      as (? & ? & -> & _).
    cbn [snd].
    destruct (added_with_blank_text_cannot_be_edited _ _ _ _ _ _ _ E Ep)
      as [_ H].
    + right. reflexivity.
    + apply H.
  - reflexivity.
Defined.

End FormFacts.

(* ------------------------------------------------------------------ *)
(** ** The transactions page *)
(* ------------------------------------------------------------------ *)

Section PageFacts.
Import JS JSDate Http Server Client Shape CategoryList TransactionsPage.
Local Open Scope string_scope.

Lemma lower_char_idem (c : ascii) : lower_char (lower_char c) = lower_char c.
Proof. destruct c as [[] [] [] [] [] [] [] []]; reflexivity. Qed.

Lemma toLowerCase_idem (s : string) :
  toLowerCase (toLowerCase s) = toLowerCase s.
Proof.
  induction s as [|c s IH]; simpl; [reflexivity|].
  now rewrite lower_char_idem, IH.
Qed.

(** Capital letters of Latin-1 are lowered with those of ASCII: the capital
    E with acute accent (201) becomes the small one (233). *)
Lemma toLowerCase_latin1 :
  toLowerCase (String (ascii_of_nat 201) "COLE")
  = String (ascii_of_nat 233) "cole".
Proof. reflexivity. Qed.

Lemma truthy_toLowerCase (s : string) :
  truthy_str (toLowerCase s) = truthy_str s.
Proof. now destruct s. Qed.

(** X23.  The search of the transactions page ignores the case of the search
    term: a term and its lower-case form select the same rows. *)
Theorem search_ignores_case_of_term (transactions : list Transaction)
        (searchTerm typeFilter : string) :
  applyFilters transactions (toLowerCase searchTerm) typeFilter
  = applyFilters transactions searchTerm typeFilter.
Proof.
  unfold applyFilters.
  now rewrite truthy_toLowerCase, toLowerCase_idem.
Qed.

Lemma filter_comm (A : Type) (f g : A -> bool) (l : list A) :
  filter f (filter g l) = filter g (filter f l).
Proof.
  induction l as [|x l IH]; simpl; trivial.
  destruct (f x) eqn:Ef, (g x) eqn:Eg; simpl; rewrite ?Ef, ?Eg, IH; trivial.
Qed.

Lemma filter_idem (A : Type) (f : A -> bool) (l : list A) :
  filter f (filter f l) = filter f l.
Proof.
  induction l as [|x l IH]; simpl; trivial.
  destruct (f x) eqn:Ef; simpl; rewrite ?Ef, IH; trivial.
Qed.

Lemma applyFilters_filter (l : list Transaction) (s ty : string) :
  exists p, forall l', applyFilters l' s ty = filter p l'.
Proof.
  unfold applyFilters.
  destruct (negb (String.eqb ty "all")), (truthy_str s).
  - eexists. intros l'. rewrite filter_filter. reflexivity.
  - eexists. intros l'. reflexivity.
  - eexists. intros l'. reflexivity.
  - exists (fun _ => true). intros l'.
    induction l' as [|x l' IH]; simpl; congruence.
Qed.

Lemma type_partition (A : Type) (f g : A -> bool) (l : list A) :
  (forall x, f x = negb (g x)) ->
  Permutation (filter f l ++ filter g l) l.
Proof.
  intros H. induction l as [|x l IH]; simpl; [constructor|].
  rewrite (H x). destruct (g x); simpl.
  - apply Permutation_sym, Permutation_cons_app, Permutation_sym, IH.
  - now constructor.
Qed.

(** X24.  The filtered view of the transactions page: without a type filter
    and search term it is the cache; it selects rows of the cache;
    filtering twice is filtering once; filtering after a delete is deleting
    from the filtered view; and the income and expense views together hold
    the rows of the unfiltered type, each once. *)
Theorem filtered_view_of_cache (transactions : list Transaction)
        (searchTerm typeFilter : string) :
  applyFilters transactions "" "all" = transactions
  /\ (forall t, In t (applyFilters transactions searchTerm typeFilter) ->
                In t transactions)
  /\ applyFilters (applyFilters transactions searchTerm typeFilter)
                  searchTerm typeFilter
     = applyFilters transactions searchTerm typeFilter
  /\ (forall (id : string) (reply : option DeleteBody),
        applyFilters (fst (deleteTransaction id (Ok reply) transactions))
                     searchTerm typeFilter
        = fst (deleteTransaction id (Ok reply)
                 (applyFilters transactions searchTerm typeFilter)))
  /\ Permutation
       (applyFilters transactions searchTerm "income"
        ++ applyFilters transactions searchTerm "expense")%list
       (applyFilters transactions searchTerm "all").
Proof.
  destruct (applyFilters_filter transactions searchTerm typeFilter)
    as (p & Hp).
  split; [reflexivity|]. split; [|split; [|split]].
  - intros t I. rewrite Hp in I. apply filter_In in I. tauto.
  - rewrite !Hp. apply filter_idem.
  - intros id reply. cbn. rewrite !Hp. apply filter_comm.
  - unfold applyFilters. cbn [String.eqb Ascii.eqb Bool.eqb negb].
    destruct (truthy_str searchTerm).
    + rewrite !(filter_comm _ (matches_search (toLowerCase searchTerm))).
      apply type_partition. intros x. now destruct (tx_type x).
    + apply type_partition. intros x. now destruct (tx_type x).
Qed.

End PageFacts.

(* ------------------------------------------------------------------ *)
(** ** The session *)
(* ------------------------------------------------------------------ *)

Section SessionFacts.
Import JS JSDate Http Server Client Shape Session.
Local Open Scope string_scope.

(** X25.  The session survives a reload: after a successful [signIn] the user
    is set and stored, and a reload restores the same user; a failed
    [signIn] leaves the state as it was; after [signOut] the protected route
    renders nothing and a reload finds no user. *)
Theorem session_survives_reload (res : FetchResult LoginBody) (st : State) :
  let st1 := fst (signIn res st) in
  (snd (signIn res st) = Done ->
   user st1 <> None /\ stored st1 = Some (user st1)
   /\ user (reload st1) = user st1)
  /\ (snd (signIn res st) <> Done -> st1 = st)
  /\ user (reload (signOut st1)) = None
  /\ forall (A : Type) (page : A), ProtectedRoute (signOut st1) page = None.
Proof.
  cbv zeta. destruct res as [|[data|]|status m]; cbn.
  all: repeat split; trivial; try discriminate; try (intros H; now elim H).
Qed.

(** X26.  Only a matching password starts a session: [signIn] on the reply of
    [POST /api/login] sets and stores a user exactly when the reply is a
    success, and then it is a stored user with the given email whose hash
    matches the password; on a refusal the session is unchanged and the
    error carries the reply's status and message. *)
Theorem session_follows_login (bcrypt_compare : string -> string -> bool)
        (d : DB) (email password : option string) (st : State) :
  let reply := login bcrypt_compare d email password in
  let r := signIn (delivered reply) st in
  match reply with
  | Success _ _ =>
      snd r = Done
      /\ exists u su pw,
           In u (users d) /\ email = Some (u_email u) /\ password = Some pw
           /\ bcrypt_compare pw (u_password u) = true
           /\ user (fst r) = Some su /\ stored (fst r) = Some (Some su)
           /\ su_email su = JString (u_email u)
           /\ su_id su = JString (if truthy_str (u_id u)
                                  then u_id u else u_email u)
  | Failure status message =>
      fst r = st /\ snd r = WithError (HttpProblem status message)
  end.
Proof.
  cbv zeta.
  destruct (login bcrypt_compare d email password) as [status body|status m]
    eqn:E; cbn.
  - apply login_success in E.
    destruct E as (_ & em & pw & u & -> & -> & I & <- & Hc & Eb).
    split; trivial. eexists u, _, pw. repeat split; trivial.
    + rewrite Eb. reflexivity.
    + rewrite Eb. cbn. unfold or_json. cbn. now destruct (truthy_str (u_id u)).
  - split; reflexivity.
Qed.

End SessionFacts.

(* ------------------------------------------------------------------ *)
(** ** The report of a cache that was added to *)
(* ------------------------------------------------------------------ *)

Section ReportOfCache.
Import JS JSDate Http Server Client Shape Reports.
Local Open Scope string_scope.

(** The label of a type's rows without a resolved category. *)
Local Abbreviation uncategorized ty :=
  (match ty with
   | income => "Uncategorized Income"
   | expense => "Uncategorized Expense"
   end).

(** The breakdown of a type in a report. *)
Local Abbreviation breakdown ty r :=
  (match ty with
   | income => incomeByCategory r
   | expense => expensesByCategory r
   end).

Lemma report_has_line (txs : list Transaction) (s e : Date)
      (t : Transaction) (k : string) :
  In t txs -> in_range s e t = true -> bucket_label t = Some k ->
  exists line,
    In line (breakdown (tx_type t) (generateReportData txs s e))
    /\ cd_name line = k.
Proof.
  intros I R L.
  assert (IF : In t (filteredTransactions txs s e))
    by (apply filter_In; auto).
  destruct (category_fold_inv (filteredTransactions txs s e) []
              (Map_empty Bucket, Map_empty Bucket)
              (conj (bucket_inv_empty income) (bucket_inv_empty expense)))
    as [Hi He].
  apply category_rows_spec in Hi, He.
  destruct (tx_type t) eqn:Ety.
  - destruct Hi as (_ & _ & H). exact (H t k IF Ety L).
  - destruct He as (_ & _ & H). exact (H t k IF Ety L).
Qed.

Lemma serial_nonempty (n : N) : serial n <> "".
Proof.
  intros E. destruct n as [|p]; [discriminate E|].
  unfold serial in E.
  apply (f_equal NilEmpty.uint_of_string) in E.
  rewrite NilEmpty.usu in E.
  change (NilEmpty.uint_of_string "") with (Some Decimal.Nil) in E.
  injection E as E.
  apply (f_equal N.of_uint) in E.
  change (N.of_uint (N.to_uint (N.pos p)) = 0%N) in E.
  rewrite DecimalN.Unsigned.of_to in E. discriminate E.
Qed.

(** The text of an integer is not empty. *)
Lemma integer_text_truthy (z : Z) : truthy_str (integer_text z) = true.
Proof.
  unfold integer_text. destruct (z <? 0)%Z; [reflexivity|].
  apply truthy_str_nonempty, serial_nonempty.
Qed.

(** What a submitted add form and a successful post give the row. *)
Lemma added_row_category (d d' : DB) (u : User) (form : AddForm)
      (input : TransactionInput) (now : string) (status : Z)
      (row : Transaction) :
  AddTransaction_handleSubmit (Some u) form = Some input ->
  post_transactions d now input = (d', Success status row) ->
  tx_type row = af_type form
  /\ exists key c,
       int4in (af_category_id form) = Some key
       /\ tx_category_id row = Some (integer_text key)
       /\ category_row d (integer_text key) = Some c.
Proof.
  unfold AddTransaction_handleSubmit.
  destruct (transactionSchema _) as [v|] eqn:Ev; [|discriminate].
  apply transactionSchema_Some in Ev. cbn in Ev.
  destruct Ev as (_ & _ & _ & Ety & Ec & Nc & _).
  destruct (truthy_str _); cbn [negb]; [|discriminate].
  intros [= <-] Hpost.
  assert (Ht : tx_type row = af_type form).
  { apply post_transactions_row in Hpost. destruct Hpost as (_ & Ht & _).
    cbn in Ht. injection Ht as <-. exact Ety. }
  split; [exact Ht|].
  apply post_transactions_success in Hpost.
  destruct Hpost as (user & category & _ & _ & Hc & Hr & _ & _ & Hcid & _).
  match type of Hc with
  | integer_param (posted_category ?b) = _ =>
      assert (Ecat : posted_category b = Some (af_category_id form))
  end.
  { unfold posted_category. cbn. rewrite Ec.
    destruct (af_category_id form); [now elim Nc|reflexivity]. }
  rewrite Ecat in Hc. cbn in Hc.
  destruct (int4in (af_category_id form)) as [key|]; [|discriminate].
  injection Hc as <-. cbn in Hcid.
  unfold references_ok in Hr. apply andb_prop in Hr. destruct Hr as [_ Hr].
  destruct (category_row d (integer_text key)) as [c|] eqn:Erow;
    [|discriminate].
  exists key, c. repeat split; trivial.
Qed.

(** X27.  A transaction just added is reported without its category: the
    record [addTransaction] caches carries no joined category, so a report
    of the cache whose range holds its date has a line with the
    Uncategorized label of its type; in the list the API returns to a later
    fetch the same transaction carries its category and is labelled with
    the category's name. *)
Theorem added_transaction_reported_uncategorized
        (s s' : System) (u : User) (form : AddForm)
        (input : TransactionInput) (now : string) (row : Transaction)
        (K : keys_ok (db s))
        (Hsubmit : AddTransaction_handleSubmit (Some u) form = Some input)
        (net : Delivery)
        (Hadd : sys_addTransaction net now input s = (s', Returned row)) :
  In row (cache s')
  /\ bucket_label row = Some (uncategorized (af_type form))
  /\ (forall st e, in_range st e row = true ->
        exists line,
          In line (breakdown (af_type form)
                             (generateReportData (cache s') st e))
          /\ cd_name line = uncategorized (af_type form))
  /\ (forall uid rows t,
        get_transactions (db s') (Some uid) = Success 200 rows ->
        In t rows -> tx_id t = tx_id row ->
        exists c, find_category (db s') (af_category_id form) = Some c
                  /\ bucket_label t = Some (cat_name c)).
Proof.
  revert Hadd. unfold sys_addTransaction.
  destruct (exchange net _ _) as [d' res] eqn:Ex.
  destruct res as [|[r|]|st m]; cbn; try discriminate.
  intros [= <- <-]. cbn.
  apply exchange_Ok in Ex. destruct Ex as (status & r' & Ep & [= <-]).
  destruct (added_row_category _ _ _ _ _ _ _ _ Hsubmit Ep)
    as (Ety & key & c & Hkey & Ecid & Erow).
  pose proof (post_keys_ok (db s) now input K) as K'. rewrite Ep in K'.
  cbn in K'.
  apply post_transactions_success in Ep.
  destruct Ep as (user & category & _ & _ & _ & _ & _ & _ & _ & _ & _ & _ & _
                  & Ecat & ->).
  assert (Ic : In r (cache s ++ [r])%list) by (apply in_app_iff; cbn; auto).
  assert (Lb : bucket_label r = Some (uncategorized (af_type form))).
  { unfold bucket_label, has_reference. rewrite Ecat, Ecid, <- Ety.
    cbn. now rewrite integer_text_truthy. }
  split; [exact Ic|]. split; [exact Lb|]. split.
  - intros st e R. rewrite <- Ety.
    apply report_has_line; trivial. now rewrite Ety.
  - intros uid rows t. unfold get_transactions.
    destruct (truthy_str uid); [|discriminate].
    destruct (int4in uid) as [owner|]; [|discriminate].
    intros [= <-] It Eid.
    apply (Permutation_in _ (Array_sort_perm _ by_date_desc _)) in It.
    apply in_map_iff in It. destruct It as (t0 & <- & I0).
    apply filter_In in I0. destruct I0 as [I0 _]. cbn in I0, Eid.
    assert (t0 = r).
    { apply (key_determines_row (transactions (db s) ++ [r])%list); trivial.
      - apply K'.
      - apply in_app_iff. cbn. auto. }
    subst t0. cbn [tx_category_id db selected]. rewrite Ecid.
    unfold join_category, find_category, category_row in *.
    cbn [categories set_transactions draw_id]. rewrite Hkey, Erow.
    exists c. split; reflexivity.
Qed.

(** The sample add form (12.50 spent on food), submitted and added. *)
Lemma added_transaction_example :
  match AddTransaction_handleSubmit (Some (mkUser "1" "bat@example.mn"))
                                    sample_add_form with
  | Some input =>
      match snd (sys_addTransaction Delivered "2024-03-01T00:00:00.000Z"
                                    input (sample_system Full)) with
      | Returned row => bucket_label row = Some "Uncategorized Expense"
      | Thrown _ => False
      end
  | None => False
  end.
Proof.
  destruct (AddTransaction_handleSubmit (Some (mkUser "1" "bat@example.mn"))
                                        sample_add_form)
    as [input|] eqn:E; [|vm_compute in E; discriminate E].
  pose proof E as E0. vm_compute in E0. injection E0 as <-.
  destruct (sys_addTransaction _ _ _ (sample_system Full))
    as [s' [row|p]] eqn:Ea; [|vm_compute in Ea; discriminate Ea].
  cbn [snd].
  destruct (added_transaction_reported_uncategorized
              (sample_system Full) s' _ sample_add_form _ _ row
              sample_db_keys_ok E Delivered Ea) as (_ & H & _).
  exact H.
Defined.

End ReportOfCache.
